(** * Wallet ledger and FX rate resolution: a shallow embedding

    The development follows the TypeScript sources

      - [common/utils/retry.util.ts] and [fx/config/retry.config.ts],
      - [fx/config/fallback-rates.config.ts] and
        [fx/services/fallback-rates.service.ts],
      - [fx/fx.service.ts],
      - [wallet/wallet.service.ts].

    Conventions of the embedding.

      - Numbers are embedded twice.  In the modules [FallbackRatesService],
        [FxService] and [WalletService] a JavaScript [number] is an exact
        rational ([Q]) and a row holds the term the code computes; these
        carry the properties of control flow, of locks and of what a failed
        operation leaves, none of which depends on how a sum is rounded.
        In the modules [JsNumber], [Columns], [DoubleRates] and
        [WalletLedger] a [number] is the IEEE 754 binary64 value the
        program computes and a [decimal(20,8)] column holds what the server
        rounds [String(number)] to; these carry the properties of the
        values that are stored.  Every amount reaches the services through
        [@IsNumber()] validation, so [NaN] and the infinities are outside
        both.  What the code stores is stated with Leibniz equality;
        arithmetic facts ([total = locked + available]) are stated with
        [==].
      - String enums ([Currency], [TransactionType], [TransactionStatus]) are
        inductive types; [code] gives the string of a currency, which is the
        key of every JavaScript object used as a table.
      - Asynchronous code is sequenced: one operation runs to its end.  The
        database is explicit state, a transaction works on a copy that
        [commitTransaction] publishes and [rollbackTransaction] discards.
        Every database call may throw, as decided by a fault oracle. *)

From Stdlib Require Import QArith Qpower Qminmax Qround Qabs ZArith Lia Lqa List Bool.
From stdpp Require Import base option list gmap strings.

Local Open Scope string_scope.
Local Open Scope list_scope.

(* ===================================================================== *)
(** * Errors *)
(* ===================================================================== *)

(** [HttpStatus] of [@nestjs/common], the members the services use. *)
Definition BAD_REQUEST : Z := 400.
Definition FORBIDDEN : Z := 403.
Definition NOT_FOUND : Z := 404.
Definition INTERNAL_SERVER_ERROR : Z := 500.
Definition SERVICE_UNAVAILABLE : Z := 503.

Record HttpException : Type := mkHttpException {
  message : string;
  status  : Z
}.

(** What a [catch (err)] can receive: an [HttpException], or any other
    thrown value (a driver error, a [TypeError], ...), of which only the
    message matters. *)
Inductive Thrown : Type :=
| ThrownHttp (e : HttpException)
| ThrownOther (msg : string).

(* ===================================================================== *)
(** * common/utils/retry.util.ts *)
(* ===================================================================== *)

Module Retry.

Record RetryConfig : Type := mkRetryConfig {
  maxAttempts   : nat;
  initialDelay  : Q;
  maxDelay      : Q;
  backoffFactor : Q
}.

(** fx/config/retry.config.ts; delays are in milliseconds. *)
Definition RETRY_CONFIG : RetryConfig :=
  {| maxAttempts := 3; initialDelay := 1000; maxDelay := 5000;
     backoffFactor := 2 |}.

(** What one run of [retry] did: the value it returned or the error it
    threw ([None] is the unassigned [lastError] of a loop that never ran),
    how many times [fn] was called, and the [setTimeout] delays it waited
    for, oldest first. *)
Record Run (W T E : Type) : Type := mkRun {
  outcome  : T + option E;
  world    : W;
  attempts : nat;
  waits    : list Q
}.
Arguments mkRun {W T E}.
Arguments outcome {W T E}.
Arguments world {W T E}.
Arguments attempts {W T E}.
Arguments waits {W T E}.

Section Loop.
Context {W T E : Type}.
(** [fn] is a thunk with effects: it is run on a world and leaves one. *)
Variable fn : W -> (T + E) * W.
Variable config : RetryConfig.

(** The [for] loop, from the test [attempt <= config.maxAttempts]
    onwards.  [fuel] bounds the iterations still to run. *)
Fixpoint retry_loop (fuel attempt : nat) (delay : Q) (lastError : option E)
    (w : W) (called : nat) (slept : list Q) : Run W T E :=
  match fuel with
  | O => mkRun (inr lastError) w called slept
  | S fuel' =>
      if (attempt <=? maxAttempts config)%nat then
        match fn w with
        | (inl v, w') => mkRun (inl v) w' (S called) slept
        | (inr error, w') =>
            if (attempt =? maxAttempts config)%nat then
              mkRun (inr (Some error)) w' (S called) slept
            else
              retry_loop fuel' (S attempt)
                (Qmin (delay * backoffFactor config) (maxDelay config))
                (Some error) w' (S called) (slept ++ [delay])
        end
      else mkRun (inr lastError) w called slept
  end.

(** [attempt] starts at 1, so [maxAttempts] iterations exhaust the loop
    (see [retry_loop_fuel] below). *)
Definition retry (w : W) : Run W T E :=
  retry_loop (maxAttempts config) 1 (initialDelay config) None w 0 [].
End Loop.

(** The first [n] delays the loop waits for when it starts from [delay]. *)
Fixpoint schedule (config : RetryConfig) (delay : Q) (n : nat) : list Q :=
  match n with
  | O => []
  | S n' =>
      delay :: schedule config
                 (Qmin (delay * backoffFactor config) (maxDelay config)) n'
  end.

(** Exponential backoff in closed form: [initial * factor ^ k], capped. *)
Definition backoff (config : RetryConfig) (k : nat) : Q :=
  Qmin (initialDelay config * backoffFactor config ^ Z.of_nat k)
       (maxDelay config).

Definition total_wait (slept : list Q) : Q := fold_right Qplus 0%Q slept.

End Retry.

(* ===================================================================== *)
(** * wallet/entities/wallet-balance.entity.ts: the currency catalog *)
(* ===================================================================== *)

Inductive Currency : Type := NGN | USD | EUR | GBP.

(** The string value of each member of the enum. *)
Definition code (c : Currency) : string :=
  match c with
  | NGN => "NGN"
  | USD => "USD"
  | EUR => "EUR"
  | GBP => "GBP"
  end.

#[global] Instance Currency_eq_dec : EqDecision Currency.
Proof. solve_decision. Defined.

(** Comparisons of numbers as booleans. *)
Definition Qltb (a b : Q) : bool :=
  match (a ?= b)%Q with Lt => true | _ => false end.
Definition Qleb (a b : Q) : bool :=
  match (a ?= b)%Q with Gt => false | _ => true end.
Definition Qis_zero (a : Q) : bool :=
  match (a ?= 0)%Q with Eq => true | _ => false end.

(* ===================================================================== *)
(** * fx/config/fallback-rates.config.ts *)
(* ===================================================================== *)

Module FallbackRatesConfig.

Record FallbackRate : Type := mkFallbackRate {
  rate        : Q;
  lastUpdated : Z          (* a [Date], as milliseconds since the epoch *)
}.

(** [interface FallbackRates { [key: string]: { [key: string]: FallbackRate } }] *)
Abbreviation FallbackRates := (gmap string (gmap string FallbackRate)).

Definition row (entries : list (Currency * Q)) : gmap string Q :=
  list_to_map (map (fun e => (code (fst e), snd e)) entries).

Definition BASE_FALLBACK_RATES : gmap string (gmap string Q) :=
  list_to_map
    [ (code NGN, row [(USD, 0.0021%Q); (EUR, 0.0019%Q); (GBP, 0.0016%Q)]);
      (code USD, row [(NGN, 476.19%Q); (EUR, 0.92%Q); (GBP, 0.79%Q)]);
      (code EUR, row [(NGN, 517.60%Q); (USD, 1.09%Q); (GBP, 0.86%Q)]);
      (code GBP, row [(NGN, 602.41%Q); (USD, 1.27%Q); (EUR, 1.16%Q)]) ].

Definition initializeFallbackRates (now : Z) : FallbackRates :=
  (fun toCurrencies : gmap string Q =>
     (fun r => mkFallbackRate r now) <$> toCurrencies)
  <$> BASE_FALLBACK_RATES.

End FallbackRatesConfig.

(* ===================================================================== *)
(** * fx/interfaces/rate-source.interface.ts *)
(* ===================================================================== *)

Module RateSourceInterface.

Record RateSourceResponse : Type := mkRateSourceResponse {
  fromCurrency : Currency;
  toCurrency   : Currency;
  rate         : Q;
  timestamp    : Z;
  source       : string
}.

(** A rate source as one refresh cycle sees it: what its two promises
    settle to ([inl] resolved, [inr] rejected). *)
Record RateSource : Type := mkRateSource {
  name        : string;
  getRates    : list RateSourceResponse + Thrown;
  isAvailable : bool + Thrown
}.

End RateSourceInterface.

(* ===================================================================== *)
(** * fx/services/fallback-rates.service.ts *)
(* ===================================================================== *)

Module FallbackRatesService.
Import FallbackRatesConfig RateSourceInterface.

(** The service object: its table, and how many times [new Date()] was
    evaluated (the clock below is read at that index). *)
Record State : Type := mkState {
  fallbackRates : FallbackRates;
  dates         : nat
}.

(** [this.fallbackRates[fromCurrency]?.[toCurrency]] *)
Definition entry (table : FallbackRates) (fromCurrency toCurrency : Currency)
  : option FallbackRate :=
  table !! code fromCurrency ≫= fun inner => inner !! code toCurrency.

Definition base_entry (fromCurrency toCurrency : Currency) : option Q :=
  BASE_FALLBACK_RATES !! code fromCurrency ≫= fun inner => inner !! code toCurrency.

Definition getRate (table : FallbackRates) (fromCurrency toCurrency : Currency) : Q :=
  match entry table fromCurrency toCurrency with
  | None => default 1%Q (base_entry fromCurrency toCurrency)
  | Some rate => FallbackRatesConfig.rate rate
  end.

(** [typeof], [isNaN] and [isFinite] hold of every rational. *)
Definition isValidRate (rate : Q) : bool :=
  Qltb 0 rate && Qltb rate 1000000.

(** [if (!table[a]) table[a] = {}; table[a][b] = v] *)
Definition set_entry (table : FallbackRates) (a b : Currency) (v : FallbackRate)
  : FallbackRates :=
  <[code a := <[code b := v]> (default ∅ (table !! code a))]> table.

Section Clock.
(** The value of the [k]-th [new Date()]. *)
Variable clock : nat -> Z.

(** The logger calls, and with them the monitoring of significant
    changes ([calculateChangePercent]), leave the table alone and are
    not modelled. *)
Definition updateRate (fromCurrency toCurrency : Currency) (newRate : Q)
    (s : State) : State :=
  if negb (isValidRate newRate) then s
  else
    let t1 := set_entry (fallbackRates s) fromCurrency toCurrency
                (mkFallbackRate newRate (clock (dates s))) in
    let inverseRate := (1 / newRate)%Q in
    let t2 := set_entry t1 toCurrency fromCurrency
                (mkFallbackRate inverseRate (clock (S (dates s)))) in
    mkState t2 (S (S (dates s))).

(** The body of [for (const rate of rates)]. *)
Definition apply_rate (s : State) (r : RateSourceResponse) : State :=
  if isValidRate (RateSourceInterface.rate r)
  then updateRate (fromCurrency r) (toCurrency r) (RateSourceInterface.rate r) s
  else s.

(** [for (const source of this.rateSources)]: the flag [success], the
    variable [lastError] and the state when the loop is left. *)
Fixpoint sources_loop (sources : list RateSource) (lastError : option Thrown)
    (s : State) : bool * option Thrown * State :=
  match sources with
  | [] => (false, lastError, s)
  | source :: rest =>
      match isAvailable source with
      | inr error => sources_loop rest (Some error) s
      | inl false => sources_loop rest lastError s
      | inl true =>
          match getRates source with
          | inr error => sources_loop rest (Some error) s
          | inl rates => (true, lastError, fold_left apply_rate rates s)
          end
      end
  end.

Definition fetchLatestRates (rateSources : list RateSource) (s : State)
  : (unit + Thrown) * State :=
  match sources_loop rateSources None s with
  | (true, _, s') => (inl tt, s')
  | (false, lastError, s') =>
      (inr (default (ThrownOther "All rate sources failed") lastError), s')
  end.
End Clock.

End FallbackRatesService.

(* ===================================================================== *)
(** * fx/fx.service.ts *)
(* ===================================================================== *)

(** JavaScript's [a || b] on an optional number and an optional string:
    [undefined], [0] and the empty string are falsy. *)
Definition number_or (a : option Z) (b : Z) : Z :=
  match a with
  | Some v => if (v =? 0)%Z then b else v
  | None => b
  end.

Definition string_or (a : option string) (b : string) : string :=
  match a with
  | Some v => if String.eqb v "" then b else v
  | None => b
  end.

(** [s.includes(sub)] *)
Definition includes (s sub : string) : bool :=
  match String.index 0 sub s with Some _ => true | None => false end.

Module FxService.
Import Retry.

Record ExchangeRateResponse : Type := mkExchangeRateResponse {
  rates     : gmap string Q;
  base      : string;
  timestamp : Z
}.

(** The [response] of an axios error. *)
Record ErrorResponse : Type := mkErrorResponse {
  response_status : option Z;          (* error.response.status *)
  data_message    : option string;     (* error.response.data?.message *)
  statusText      : option string      (* error.response.statusText *)
}.

(** What a rejected request throws: an axios error that carries the
    provider's response, one that only carries the request (nothing came
    back), or another [Error] with its [message] and optional [status]. *)
Inductive RequestError : Type :=
| WithResponse (r : ErrorResponse)
| WithRequest
| OtherError (msg : string) (st : option Z).

(** One HTTP exchange: a response whose [data] is a rate table ([None]
    when [data], or [data.rates], is missing or is no object), or a
    rejection. *)
Inductive Exchange : Type :=
| Responded (data : option ExchangeRateResponse)
| Rejected (error : RequestError).

(** The cache manager, the number of requests sent so far and the delays
    waited for between attempts. *)
Record World : Type := mkWorld {
  cache    : gmap string ExchangeRateResponse;
  requests : nat;
  slept    : list Q
}.

Section Network.
(** The provider: what the [k]-th request for a base currency gets. *)
Variable network : nat -> string -> Exchange.

(** [() => firstValueFrom(observable)]: every subscription sends a
    request. *)
Definition fetch (baseCurrency : string) (w : World)
  : (option ExchangeRateResponse + RequestError) * World :=
  let w' := mkWorld (cache w) (S (requests w)) (slept w) in
  match network (requests w) baseCurrency with
  | Responded data => (inl data, w')
  | Rejected error => (inr error, w')
  end.

(** The [catch (error: any)] of [getRates]. *)
Definition rethrow (error : RequestError) : HttpException :=
  match error with
  | WithResponse r =>
      mkHttpException
        (string_or (data_message r) (string_or (statusText r) "FX API Error"))
        (number_or (response_status r) SERVICE_UNAVAILABLE)
  | WithRequest =>
      mkHttpException "Failed to reach FX service" SERVICE_UNAVAILABLE
  | OtherError msg st =>
      if includes msg "maxAttempts" then
        mkHttpException
          "Failed to fetch exchange rates after multiple attempts"
          SERVICE_UNAVAILABLE
      else
        mkHttpException
          (string_or (Some msg) "Failed to fetch exchange rates")
          (number_or st INTERNAL_SERVER_ERROR)
  end.

Definition getRates (baseCurrency : string) (w : World)
  : (ExchangeRateResponse + Thrown) * World :=
  let cacheKey := "rates:" +:+ baseCurrency in
  match cache w !! cacheKey with
  | Some cachedRates => (inl cachedRates, w)
  | None =>
      let run := retry (fetch baseCurrency) RETRY_CONFIG w in
      let w1 := mkWorld (cache (world run)) (requests (world run))
                  (slept (world run) ++ waits run) in
      match outcome run with
      | inl (Some rates) =>
          (inl rates,
           mkWorld (<[cacheKey := rates]> (cache w1)) (requests w1) (slept w1))
      | inl None =>
          (inr (ThrownHttp (rethrow (OtherError
             "Invalid response data received from FX API in getRates" None))),
           w1)
      | inr (Some error) => (inr (ThrownHttp (rethrow error)), w1)
      | inr None =>
          (* [throw lastError!] of a loop that never ran: the handler
             reads [error.message] of [undefined] *)
          (inr (ThrownOther "TypeError"), w1)
      end
  end.

End Network.

End FxService.

(* ===================================================================== *)
(** * Entities *)
(* ===================================================================== *)

(** auth/entities/user.entity.ts, the columns the wallet service reads. *)
Module UserEntity.
Record User : Type := mkUser {
  id              : string;
  isEmailVerified : bool
}.
End UserEntity.

(** wallet/entities/wallet.entity.ts *)
Module WalletEntity.
Record Wallet : Type := mkWallet {
  id     : string;
  userId : string
}.
End WalletEntity.

(** wallet/entities/wallet-balance.entity.ts.  A row is identified by its
    wallet and currency, the key every query of the service uses; the
    generated [id] and the two date columns are left out. *)
Module WalletBalanceEntity.
Record WalletBalance : Type := mkWalletBalance {
  walletId         : string;
  currency         : Currency;
  balance          : Q;
  lockedBalance    : Q;
  availableBalance : Q
}.
End WalletBalanceEntity.

(** transactions/entities/transaction.entity.ts *)
Module TransactionEntity.
Inductive TransactionType : Type := FUNDING | TRANSFER | TRADE.
Inductive TransactionStatus : Type := PENDING | COMPLETED | FAILED | CANCELLED.

(** The template literals that print a number are kept symbolic. *)
Inductive Description : Type :=
| Text (s : string)
| WalletFundedWith (amount : Q) (currency : Currency)
| TradeFor (amount : Q) (fromCurrency : Currency) (convertedAmount : Q)
    (toCurrency : Currency) (rate : Q).

Record Transaction : Type := mkTransaction {
  userId          : string;
  walletId        : string;
  type            : TransactionType;
  status          : TransactionStatus;
  amount          : Q;
  fromCurrency    : Currency;
  toCurrency      : Currency;
  rate            : Q;
  convertedAmount : Q;
  reference       : option string;
  description     : Description
}.
End TransactionEntity.

(* ===================================================================== *)
(** * The database and its transactions *)
(* ===================================================================== *)

Module Database.
Import UserEntity WalletEntity WalletBalanceEntity TransactionEntity.

Record Db : Type := mkDb {
  users          : list User;
  wallets        : list Wallet;
  walletBalances : list WalletBalance;
  transactions   : list Transaction
}.

(** A row lock taken by [lock: { mode: 'pessimistic_write' }], or the
    hold a transaction has on a row it inserted. *)
Inductive Hold : Type :=
| HoldWallet (walletId : string)
| HoldBalance (walletId : string) (currency : Currency).

(** The state an operation runs on: the committed database, the copy the
    open transaction works on, the number of database calls made, the
    holds acquired (oldest first) and the world of the FX service. *)
Record Tx : Type := mkTx {
  committed : Db;
  working   : Db;
  calls     : nat;
  holds     : list Hold;
  fx        : FxService.World
}.

Definition M (A : Type) : Type := Tx -> (A + Thrown) * Tx.

Definition ret {A} (a : A) : M A := fun s => (inl a, s).
Definition throw {A} (e : Thrown) : M A := fun s => (inr e, s).
Definition bind {A B} (m : M A) (k : A -> M B) : M B :=
  fun s => match m s with
           | (inl a, s') => k a s'
           | (inr e, s') => (inr e, s')
           end.

Definition set_working (d : Db) (s : Tx) : Tx :=
  mkTx (committed s) d (calls s) (holds s) (fx s).
Definition add_hold (h : Hold) (s : Tx) : Tx :=
  mkTx (committed s) (working s) (calls s) (holds s ++ [h]) (fx s).

Definition same_key (walletId : string) (currency : Currency)
    (b : WalletBalance) : bool :=
  String.eqb (WalletBalanceEntity.walletId b) walletId
  && bool_decide (WalletBalanceEntity.currency b = currency).

(** [save] of a balance: the row of that key is rewritten, or a row is
    inserted. *)
Fixpoint upsert (b : WalletBalance) (rows : list WalletBalance)
  : list WalletBalance :=
  match rows with
  | [] => [b]
  | r :: rows' =>
      if same_key (WalletBalanceEntity.walletId b) (WalletBalanceEntity.currency b) r
      then b :: rows'
      else r :: upsert b rows'
  end.

Definition with_walletBalances (rows : list WalletBalance) (d : Db) : Db :=
  mkDb (users d) (wallets d) rows (transactions d).
Definition with_transactions (rows : list Transaction) (d : Db) : Db :=
  mkDb (users d) (wallets d) (walletBalances d) rows.

(** What a database call throws when it fails. *)
Definition database_error : Thrown := ThrownOther "database error".

Section Faults.
(** Whether the [k]-th database call of the operation throws. *)
Variable faults : nat -> bool.

Definition dbCall : M unit := fun s =>
  let s' := mkTx (committed s) (working s) (S (calls s)) (holds s) (fx s) in
  if faults (calls s) then (inr database_error, s') else (inl tt, s').

(** [userRepository.findOneBy({ id })], outside any transaction. *)
Definition findOneUser (userId : string) : M (option User) :=
  bind dbCall (fun _ s =>
    (inl (find (fun u => String.eqb (UserEntity.id u) userId)
            (users (committed s))), s)).

Definition connect : M unit := dbCall.

Definition startTransaction : M unit :=
  bind dbCall (fun _ s => (inl tt, set_working (committed s) s)).

Definition commitTransaction : M unit :=
  bind dbCall (fun _ s =>
    (inl tt, mkTx (working s) (working s) (calls s) (holds s) (fx s))).

(** Never throws: a transaction that cannot be rolled back is aborted
    by the server when the connection is released. *)
Definition rollbackTransaction (s : Tx) : Tx := set_working (committed s) s.

(** [manager.findOne(Wallet, { where: { userId }, lock })] *)
Definition findOneWallet (userId : string) : M (option Wallet) :=
  bind dbCall (fun _ s =>
    match find (fun w => String.eqb (WalletEntity.userId w) userId)
            (wallets (working s)) with
    | Some w => (inl (Some w), add_hold (HoldWallet (WalletEntity.id w)) s)
    | None => (inl None, s)
    end).

(** [manager.findOne(WalletBalance, { where: { walletId, currency }, lock })] *)
Definition findOneBalance (walletId : string) (currency : Currency)
  : M (option WalletBalance) :=
  bind dbCall (fun _ s =>
    match find (same_key walletId currency) (walletBalances (working s)) with
    | Some b => (inl (Some b), add_hold (HoldBalance walletId currency) s)
    | None => (inl None, s)
    end).

(** [manager.save(WalletBalance, balance)] *)
Definition saveBalance (b : WalletBalance) : M WalletBalance :=
  bind dbCall (fun _ s =>
    (inl b, set_working (with_walletBalances
               (upsert b (walletBalances (working s))) (working s)) s)).

(** [manager.save(Transaction, transaction)] *)
Definition saveTransaction (t : Transaction) : M Transaction :=
  bind dbCall (fun _ s =>
    (inl t, set_working (with_transactions
               (transactions (working s) ++ [t]) (working s)) s)).

(** The [catch (err)] of the three operations: roll back, pass an
    [HttpException] on and wrap anything else. *)
Definition catch_rollback {A} (body : M A) (failure : string) : M A :=
  fun s => match body s with
           | (inl a, s') => (inl a, s')
           | (inr err, s') =>
               let s'' := rollbackTransaction s' in
               match err with
               | ThrownHttp e => (inr (ThrownHttp e), s'')
               | ThrownOther _ =>
                   (inr (ThrownHttp
                      (mkHttpException failure INTERNAL_SERVER_ERROR)), s'')
               end
           end.
End Faults.

(** The oracle of a database that never fails. *)
Definition no_faults (k : nat) : bool := false.

(** The state an operation starts from. *)
Definition initial (d : Db) (w : FxService.World) : Tx := mkTx d d 0 [] w.

End Database.

Declare Scope tx_scope.
Notation "'let*' x ':=' m 'in' k" := (Database.bind m (fun x => k))
  (at level 10, x pattern, m at level 100, k at level 200) : tx_scope.

(* ===================================================================== *)
(** * wallet/wallet.service.ts *)
(* ===================================================================== *)

Module WalletService.
Import UserEntity WalletEntity WalletBalanceEntity TransactionEntity Database.
Local Open Scope tx_scope.

Definition http {A} (msg : string) (st : Z) : M A :=
  throw (ThrownHttp (mkHttpException msg st)).

(** [balance.balance = Number(balance.balance) + d;
     balance.availableBalance = Number(balance.availableBalance) + d] *)
Definition credit (d : Q) (b : WalletBalance) : WalletBalance :=
  mkWalletBalance (WalletBalanceEntity.walletId b) (currency b)
    (balance b + d)%Q (lockedBalance b) (availableBalance b + d)%Q.

Definition debit (d : Q) (b : WalletBalance) : WalletBalance :=
  mkWalletBalance (WalletBalanceEntity.walletId b) (currency b)
    (balance b - d)%Q (lockedBalance b) (availableBalance b - d)%Q.

Section Service.
Variable faults : nat -> bool.
Variable network : nat -> string -> FxService.Exchange.

Definition getOrCreateBalance (walletId : string) (currency : Currency)
  : M WalletBalance :=
  let* found := findOneBalance faults walletId currency in
  match found with
  | Some balance => ret balance
  | None =>
      let* saved := saveBalance faults (mkWalletBalance walletId currency 0 0 0) in
      fun s => (inl saved, add_hold (HoldBalance walletId currency) s)
  end.

Definition checkUserVerified (userId : string) : M unit :=
  let* user := findOneUser faults userId in
  match user with
  | Some u =>
      if isEmailVerified u then ret tt
      else http "User not verified or not found" FORBIDDEN
  | None => http "User not verified or not found" FORBIDDEN
  end.

(** [this.fxService.getRates(baseCurrency)] *)
Definition fxGetRates (baseCurrency : Currency)
  : M FxService.ExchangeRateResponse :=
  fun s =>
    let '(r, w) := FxService.getRates network (code baseCurrency) (fx s) in
    (r, mkTx (committed s) (working s) (calls s) (holds s) w).

Definition fundWallet (userId : string) (amount : Q) (currency : Currency)
    (reference : string) : M Transaction :=
  let* _ := checkUserVerified userId in
  if Qleb amount 0 then http "Funding amount must be positive" BAD_REQUEST
  else
    let* _ := connect faults in
    let* _ := startTransaction faults in
    catch_rollback
      (let* wallet := findOneWallet faults userId in
       match wallet with
       | None => http "Wallet not found" NOT_FOUND
       | Some wallet =>
           let* balance :=
             getOrCreateBalance (WalletEntity.id wallet) currency in
           let balance := credit amount balance in
           let* _ := saveBalance faults balance in
           let transaction :=
             mkTransaction userId (WalletEntity.id wallet) FUNDING COMPLETED
               amount currency currency 1 amount (Some reference)
               (WalletFundedWith amount currency) in
           let* savedTransaction := saveTransaction faults transaction in
           let* _ := commitTransaction faults in
           ret savedTransaction
       end)
      "Wallet funding failed".

Definition transferFunds (fromUserId toUserId : string) (amount : Q)
    (currency : Currency) (description : string) : M Transaction :=
  let* _ := checkUserVerified fromUserId in
  if String.eqb fromUserId toUserId
  then http "Cannot transfer funds to the same user" BAD_REQUEST
  else if Qleb amount 0
  then http "Transfer amount must be positive" BAD_REQUEST
  else
    let* _ := connect faults in
    let* _ := startTransaction faults in
    catch_rollback
      (let* fromWallet := findOneWallet faults fromUserId in
       let* toWallet := findOneWallet faults toUserId in
       match fromWallet, toWallet with
       | Some fromWallet, Some toWallet =>
           let* fromBalance :=
             getOrCreateBalance (WalletEntity.id fromWallet) currency in
           let* toBalance :=
             getOrCreateBalance (WalletEntity.id toWallet) currency in
           if Qltb (availableBalance fromBalance) amount
           then http "Insufficient available balance" BAD_REQUEST
           else
             let fromBalance := debit amount fromBalance in
             let toBalance := credit amount toBalance in
             let* _ := saveBalance faults fromBalance in
             let* _ := saveBalance faults toBalance in
             let transaction :=
               mkTransaction fromUserId (WalletEntity.id fromWallet)
                 TRANSFER COMPLETED amount currency currency 1 amount None
                 (Text (if String.eqb description ""
                        then "Transfer to user " +:+ toUserId
                        else description)) in
             let* savedTransaction := saveTransaction faults transaction in
             let* _ := commitTransaction faults in
             ret savedTransaction
       | _, _ => http "Sender or receiver wallet not found" NOT_FOUND
       end)
      "Fund transfer failed".

Definition executeTrade (userId : string) (fromCurrency toCurrency : Currency)
    (amount : Q) : M Transaction :=
  let* _ := checkUserVerified userId in
  if bool_decide (fromCurrency = toCurrency)
  then http "Cannot trade the same currency" BAD_REQUEST
  else if Qleb amount 0
  then http "Trade amount must be positive" BAD_REQUEST
  else
    let* _ := connect faults in
    let* _ := startTransaction faults in
    catch_rollback
      (let* wallet := findOneWallet faults userId in
       match wallet with
       | None => http "Wallet not found" NOT_FOUND
       | Some wallet =>
           let* ratesData := fxGetRates fromCurrency in
           let unavailable :=
             http ("Exchange rate not available for " +:+ code fromCurrency
                   +:+ " to " +:+ code toCurrency) SERVICE_UNAVAILABLE in
           match FxService.rates ratesData !! code toCurrency with
           | None => unavailable
           | Some rate =>
               if Qis_zero rate then unavailable
               else
                 let convertedAmount := (amount * rate)%Q in
                 let* fromBalance :=
                   getOrCreateBalance (WalletEntity.id wallet) fromCurrency in
                 let* toBalance :=
                   getOrCreateBalance (WalletEntity.id wallet) toCurrency in
                 if Qltb (availableBalance fromBalance) amount
                 then http ("Insufficient " +:+ code fromCurrency +:+ " balance")
                        BAD_REQUEST
                 else
                   let fromBalance := debit amount fromBalance in
                   let toBalance := credit convertedAmount toBalance in
                   let* _ := saveBalance faults fromBalance in
                   let* _ := saveBalance faults toBalance in
                   let transaction :=
                     mkTransaction userId (WalletEntity.id wallet) TRADE
                       COMPLETED amount fromCurrency toCurrency rate
                       convertedAmount None
                       (TradeFor amount fromCurrency convertedAmount
                          toCurrency rate) in
                   let* savedTransaction :=
                     saveTransaction faults transaction in
                   let* _ := commitTransaction faults in
                   ret savedTransaction
           end
       end)
      "Trade execution failed".
End Service.

(** The three ledger operations, as requests. *)
Inductive Operation : Type :=
| Fund (userId : string) (amount : Q) (currency : Currency) (reference : string)
| Transfer (fromUserId toUserId : string) (amount : Q) (currency : Currency)
    (description : string)
| Trade (userId : string) (fromCurrency toCurrency : Currency) (amount : Q).

Definition perform (faults : nat -> bool)
    (network : nat -> string -> FxService.Exchange) (op : Operation)
  : M Transaction :=
  match op with
  | Fund u a c r => fundWallet faults u a c r
  | Transfer f t a c d => transferFunds faults f t a c d
  | Trade u f t a => executeTrade faults network u f t a
  end.

End WalletService.

(* ===================================================================== *)
(** * fx/utils/retry.util.ts *)
(* ===================================================================== *)

Module FxRetry.
Import Retry.

(** What one run of [withRetry] did: as [Retry.Run], and the warnings it
    logged, one [(attempt, error)] for each
    [Attempt ${attempt}/${maxAttempts} failed for ${context}: ${message}]. *)
Record LoggedRun (W T E : Type) : Type := mkLoggedRun {
  outcome  : T + E;
  world    : W;
  attempts : nat;
  waits    : list Q;
  warnings : list (nat * E)
}.
Arguments mkLoggedRun {W T E}.
Arguments outcome {W T E}.
Arguments world {W T E}.
Arguments attempts {W T E}.
Arguments waits {W T E}.
Arguments warnings {W T E}.

Section Loop.
Context {W T E : Type}.
Variable operation : W -> (T + E) * W.
(** [error instanceof Error ? error : new Error(String(error))] *)
Variable asError : E -> E.

Fixpoint withRetry_loop (fuel attempt : nat) (delay : Q) (lastError : E)
    (w : W) (called : nat) (slept : list Q) (warned : list (nat * E))
  : LoggedRun W T E :=
  match fuel with
  | O => mkLoggedRun (inr lastError) w called slept warned
  | S fuel' =>
      if (attempt <=? maxAttempts RETRY_CONFIG)%nat then
        match operation w with
        | (inl v, w') => mkLoggedRun (inl v) w' (S called) slept warned
        | (inr error, w') =>
            let lastError := asError error in
            let warned := warned ++ [(attempt, lastError)] in
            if (attempt =? maxAttempts RETRY_CONFIG)%nat then
              mkLoggedRun (inr lastError) w' (S called) slept warned
            else
              withRetry_loop fuel' (S attempt)
                (Qmin (delay * backoffFactor RETRY_CONFIG)
                      (maxDelay RETRY_CONFIG))
                lastError w' (S called) (slept ++ [delay]) warned
        end
      else mkLoggedRun (inr lastError) w called slept warned
  end.

(** [failed] is [new Error('Operation failed after all retries')], the
    first value of [lastError]. *)
Definition withRetry (failed : E) (w : W) : LoggedRun W T E :=
  withRetry_loop (maxAttempts RETRY_CONFIG) 1 (initialDelay RETRY_CONFIG)
    failed w 0 [] [].
End Loop.

End FxRetry.

(* ===================================================================== *)
(** * The refresh of the fallback table
      (fx/config/fallback-rates.config.ts,
       fx/services/fallback-rates.service.ts) *)
(* ===================================================================== *)

Module FallbackRatesRefresh.
Import FallbackRatesConfig RateSourceInterface FallbackRatesService.

(** Maximum age of a fallback rate, in hours. *)
Definition MAX_FALLBACK_RATE_AGE : Q := 1.

(** [now] is the [new Date()] the function reads. *)
Definition areRatesStale (now lastUpdated : Z) : bool :=
  let hoursSinceUpdate :=
    (inject_Z (now - lastUpdated) / (1000 * 60 * 60))%Q in
  Qltb MAX_FALLBACK_RATE_AGE hoursSinceUpdate.

Section Clock.
Variable clock : nat -> Z.

(** The two loops of [shouldUpdateRates] over the pairs of keys in the
    order in which [Object.keys] lists them; every entry examined reads
    the clock once, and the first stale one ends the loops.  The result
    is the answer and the number of clock reads so far. *)
Fixpoint stale_scan (table : FallbackRates) (order : list (string * string))
    (dates : nat) : bool * nat :=
  match order with
  | [] => (false, dates)
  | (fromCurrency, toCurrency) :: rest =>
      match table !! fromCurrency ≫= fun inner => inner !! toCurrency with
      | Some rate =>
          if areRatesStale (clock dates) (lastUpdated rate)
          then (true, S dates)
          else stale_scan table rest (S dates)
      | None => stale_scan table rest dates
      end
  end.

Definition shouldUpdateRates (order : list (string * string)) (s : State)
  : bool * State :=
  let '(stale, dates') := stale_scan (fallbackRates s) order (dates s) in
  (stale, mkState (fallbackRates s) dates').

(** What the rate sources settle to in the [k]-th run of
    [fetchLatestRates]. *)
Variable sources : nat -> list RateSource.

(** [() => this.fetchLatestRates()], on the service and the number of
    cycles run so far. *)
Definition cycle (w : State * nat) : (unit + Thrown) * (State * nat) :=
  let '(r, s') := fetchLatestRates clock (sources (snd w)) (fst w) in
  (r, (s', S (snd w))).

(** Whatever is thrown is an [Error], or is made one with the same
    message. *)
Definition asError (t : Thrown) : Thrown := t.

Definition updateRatesIfNeeded (order : list (string * string)) (s : State)
  : FxRetry.LoggedRun (State * nat) unit Thrown :=
  let '(stale, s1) := shouldUpdateRates order s in
  if stale then
    FxRetry.withRetry cycle asError
      (ThrownOther "Operation failed after all retries") (s1, 0%nat)
  else FxRetry.mkLoggedRun (inl tt) (s1, 0%nat) 0 [] [].
End Clock.

End FallbackRatesRefresh.

(* ===================================================================== *)
(** * fx/fx.service.ts, [convertCurrency] *)
(* ===================================================================== *)

Module FxConversion.
Import FxService.

Record Conversion : Type := mkConversion {
  amount          : Q;
  rate            : Q;
  convertedAmount : Q
}.

Section Network.
Variable network : nat -> string -> Exchange.

(** A table that [getRates] returns has its [rates], so the check
    [!ratesData || !ratesData.rates] never fires; [undefined] is a key
    the table lacks. *)
Definition convertCurrency (fromCurrency toCurrency : string) (amount : Q)
    (w : World) : (Conversion + Thrown) * World :=
  match getRates network fromCurrency w with
  | (inr thrown, w') => (inr thrown, w')
  | (inl ratesData, w') =>
      match rates ratesData !! toCurrency with
      | None =>
          (inr (ThrownHttp (mkHttpException
                  ("Exchange rate not available for " +:+ toCurrency)
                  BAD_REQUEST)), w')
      | Some rate =>
          let convertedAmount := (amount * rate)%Q in
          (inl (mkConversion amount rate convertedAmount), w')
      end
  end.
End Network.

End FxConversion.

(* ===================================================================== *)
(** * wallet/wallet.service.ts, the two queries *)
(* ===================================================================== *)

Module WalletQueries.
Import UserEntity WalletEntity WalletBalanceEntity TransactionEntity Database.
Import WalletService.
Local Open Scope tx_scope.

Section Service.
Variable faults : nat -> bool.
(** The order in which the database returns the rows of a relation:
    the query has no [ORDER BY]. *)
Variable loaded : list WalletBalance -> list WalletBalance.

(** [walletRepository.findOne({ where: { userId }, relations: ['balances'] })],
    outside any transaction and without a lock: the wallet and the
    rows of its balances, in the order the database returns them. *)
Definition findOneWalletWithBalances (userId : string)
  : M (option (Wallet * list WalletBalance)) :=
  bind (dbCall faults) (fun _ s =>
    (inl (match find (fun w => String.eqb (WalletEntity.userId w) userId)
                  (wallets (committed s)) with
          | Some w =>
              Some (w, loaded
                         (List.filter
                            (fun b => String.eqb
                                        (WalletBalanceEntity.walletId b)
                                        (WalletEntity.id w))
                            (walletBalances (committed s))))
          | None => None
          end), s)).

(** The [catch (err)] of [getWalletBalances]: roll back and throw the
    same [HttpException] whatever was caught. *)
Definition catch_rollback_all {A} (body : M A) (failure : string) : M A :=
  fun s => match body s with
           | (inl a, s') => (inl a, s')
           | (inr _, s') =>
               (inr (ThrownHttp
                       (mkHttpException failure INTERNAL_SERVER_ERROR)),
                rollbackTransaction s')
           end.

(** The relation is loaded, so [!wallet.balances] is false. *)
Definition getWalletBalances (userId : string) : M (list WalletBalance) :=
  let* _ := checkUserVerified faults userId in
  let* wallet := findOneWalletWithBalances userId in
  match wallet with
  | None => http "Wallet not found" NOT_FOUND
  | Some (wallet, balances) =>
      if (length balances =? 0)%nat then
        let* _ := connect faults in
        let* _ := startTransaction faults in
        catch_rollback_all
          (let* ngnBalance :=
             getOrCreateBalance faults (WalletEntity.id wallet) NGN in
           let* _ := commitTransaction faults in
           ret [ngnBalance])
          "Failed to retrieve wallet balances"
      else ret balances
  end.

(** [transactionRepository.find({ where: { userId },
    order: { createdAt: 'DESC' } })]: the ledger lists its entries in
    the order they were inserted, which is the order of [createdAt]. *)
Definition findTransactions (userId : string) : M (list Transaction) :=
  bind (dbCall faults) (fun _ s =>
    (inl (rev (List.filter
                 (fun t => String.eqb (TransactionEntity.userId t) userId)
                 (transactions (committed s)))), s)).

Definition getTransactions (userId : string) : M (list Transaction) :=
  let* _ := checkUserVerified faults userId in
  findTransactions userId.
End Service.

End WalletQueries.

(* ===================================================================== *)
(** * JavaScript numbers and decimal columns *)
(* ===================================================================== *)

(** The [number] of JavaScript: an IEEE 754 binary64 value.  A value is
    the rational it denotes; every operation is the exact operation
    followed by rounding to the nearest binary64, ties to even, with
    gradual underflow.  [NaN], the infinities and the sign of zero are not
    represented: no result here reaches the largest double. *)
Module JsNumber.

(** The exponent of a positive rational: [2 ^ e <= x < 2 ^ (e + 1)]. *)
Definition exponent (x : Q) : Z :=
  let e := (Z.log2 (Qnum x) - Z.log2 (Zpos (Qden x)))%Z in
  if Qleb (Qpower 2 e) x then e else (e - 1)%Z.

(** The nearest integer, ties to even. *)
Definition nearest_even (x : Q) : Z :=
  let q := (Qnum x / Zpos (Qden x))%Z in
  let r := (Qnum x mod Zpos (Qden x))%Z in
  match (2 * r ?= Zpos (Qden x))%Z with
  | Lt => q
  | Gt => (q + 1)%Z
  | Eq => if Z.even q then q else (q + 1)%Z
  end.

(** The binary64 value nearest to [x]: 53 significant bits, and no bit
    below [2 ^ -1074]. *)
Definition binary64 (x : Q) : Q :=
  if Qis_zero x then 0%Q
  else
    let ulp := Qpower 2 (Z.max (exponent (Qabs x) - 52) (-1074)) in
    Qred (inject_Z (nearest_even (x / ulp)) * ulp).

(** [Number(s)] of a decimal string, as TypeORM returns a [decimal]
    column; on a value that is a number already it changes nothing. *)
Definition Number (x : Q) : Q := binary64 x.

(** [a + b], [a - b], [a * b] and [a / b]. *)
Definition add (a b : Q) : Q := binary64 (a + b).
Definition sub (a b : Q) : Q := binary64 (a - b).
Definition mul (a b : Q) : Q := binary64 (a * b).
Definition div (a b : Q) : Q := binary64 (a / b).

(** The [n] with [10 ^ (n - 1) <= x < 10 ^ n], for a positive [x]. *)
Definition decade (x : Q) : Z :=
  let n := (exponent x * 30103 / 100000 - 1)%Z in
  if Qltb x (Qpower 10 n) then n
  else if Qltb x (Qpower 10 (n + 1)) then (n + 1)%Z
  else if Qltb x (Qpower 10 (n + 2)) then (n + 2)%Z
  else (n + 3)%Z.

(** The decimal of [k] digits that reads back as [x], when there is one:
    one of the two neighbours of [x] at that precision, the nearer when
    both do. *)
Definition digits (x : Q) (n k : Z) : option Q :=
  let scale := Qpower 10 (n - k) in
  let s := Qfloor (x / scale) in
  let lo := (inject_Z s * scale)%Q in
  let hi := (inject_Z (s + 1) * scale)%Q in
  match Qeq_bool (binary64 lo) x, Qeq_bool (binary64 hi) x with
  | true, true =>
      Some (match (x - lo ?= hi - x)%Q with
            | Lt => lo
            | Gt => hi
            | Eq => if Z.even s then lo else hi
            end)
  | true, false => Some lo
  | false, true => Some hi
  | false, false => None
  end.

Fixpoint shortest (x : Q) (n : Z) (fuel : nat) (k : Z) : Q :=
  match fuel with
  | O => x
  | S fuel' =>
      match digits x n k with
      | Some c => c
      | None => shortest x n fuel' (k + 1)
      end
  end.

(** [String(x)], as the decimal it denotes: the decimal with the fewest
    digits that reads back as the number (ECMAScript,
    Number::toString); seventeen digits always do. *)
Definition toString (x : Q) : Q :=
  let d := binary64 x in
  if Qis_zero d then 0%Q
  else
    let c := shortest (Qabs d) (decade (Qabs d)) 17 1 in
    Qred (if Qltb d 0 then - c else c).

Arguments binary64 : simpl never.
Arguments toString : simpl never.

End JsNumber.

Arguments JsNumber.binary64 : simpl never.
Arguments JsNumber.toString : simpl never.

(** The [decimal(20,8)] columns of [wallet_balances] and [transactions]. *)
Module Columns.
Import WalletBalanceEntity TransactionEntity.

(** What the server makes of a decimal literal: eight digits after the
    point, ties away from zero.  A value of [10 ^ 12] or more is an
    overflow, which makes the database call throw: one of the faults of
    the oracle. *)
Definition numeric_20_8 (x : Q) : Q :=
  let r := Qfloor (Qabs x * 100000000 + (1 # 2)) in
  Qred (inject_Z (if Qltb x 0 then (- r)%Z else r) / 100000000).

(** What a column holds after the number [v] was saved to it: the driver
    sends [String(v)]. *)
Definition decimal (v : Q) : Q := numeric_20_8 (JsNumber.toString v).

(** A value that a column holds as it is: it has at most eight digits
    after the point. *)
Definition eight_decimals (x : Q) : bool := Qeq_bool (numeric_20_8 x) x.
Arguments numeric_20_8 : simpl never.
Arguments decimal : simpl never.

(** The row of a balance entity whose [balance] and [availableBalance]
    were assigned numbers.  [lockedBalance] is what was loaded, or the 0
    of a new entity, and is stored as it is. *)
Definition balance_row (b : WalletBalance) : WalletBalance :=
  mkWalletBalance (WalletBalanceEntity.walletId b) (currency b)
    (decimal (balance b)) (lockedBalance b) (decimal (availableBalance b)).

Definition transaction_row (t : Transaction) : Transaction :=
  mkTransaction (TransactionEntity.userId t) (TransactionEntity.walletId t)
    (type t) (TransactionEntity.status t) (decimal (amount t))
    (fromCurrency t) (toCurrency t) (decimal (rate t))
    (decimal (convertedAmount t)) (reference t) (description t).

End Columns.

Arguments Columns.numeric_20_8 : simpl never.
Arguments Columns.decimal : simpl never.

(* ===================================================================== *)
(** * fx/services/fallback-rates.service.ts, [updateRate] on doubles *)
(* ===================================================================== *)

Module DoubleRates.
Import FallbackRatesConfig FallbackRatesService.

Section Clock.
Variable clock : nat -> Z.

(** As [FallbackRatesService.updateRate], with [1 / newRate] the
    division of JavaScript. *)
Definition updateRate (fromCurrency toCurrency : Currency) (newRate : Q)
    (s : State) : State :=
  if negb (isValidRate newRate) then s
  else
    let t1 := set_entry (fallbackRates s) fromCurrency toCurrency
                (mkFallbackRate newRate (clock (dates s))) in
    let inverseRate := JsNumber.div 1 newRate in
    let t2 := set_entry t1 toCurrency fromCurrency
                (mkFallbackRate inverseRate (clock (S (dates s)))) in
    mkState t2 (S (S (dates s))).
End Clock.

End DoubleRates.

(* ===================================================================== *)
(** * wallet/wallet.service.ts on doubles and decimal columns *)
(* ===================================================================== *)

(** The three operations of [WalletService] once more, with the numbers of
    the program: what an entity holds in memory is a double (or the decimal
    a column returned, until [Number] reads it), and what a save writes is
    the rounding of the column.  The checks, the database calls and the
    rate resolver are those of the modules above. *)
Module WalletLedger.
Import UserEntity WalletEntity WalletBalanceEntity TransactionEntity Database.
Import WalletService JsNumber Columns.
Local Open Scope tx_scope.

(** [balance.balance = Number(balance.balance) + d;
     balance.availableBalance = Number(balance.availableBalance) + d] *)
Definition credit (d : Q) (b : WalletBalance) : WalletBalance :=
  mkWalletBalance (WalletBalanceEntity.walletId b) (currency b)
    (add (Number (balance b)) d) (lockedBalance b)
    (add (Number (availableBalance b)) d).

Definition debit (d : Q) (b : WalletBalance) : WalletBalance :=
  mkWalletBalance (WalletBalanceEntity.walletId b) (currency b)
    (sub (Number (balance b)) d) (lockedBalance b)
    (sub (Number (availableBalance b)) d).

Section Service.
Variable faults : nat -> bool.
Variable network : nat -> string -> FxService.Exchange.

(** [manager.save(WalletBalance, balances)], of one entity or of an
    array: one call, which writes the rows in the order given and
    returns the entities as they are in memory. *)
Definition saveBalances (balances : list WalletBalance) : M unit :=
  bind (dbCall faults) (fun _ s =>
    (inl tt,
     set_working
       (with_walletBalances
          (fold_left (fun rows b => upsert (balance_row b) rows) balances
             (walletBalances (working s)))
          (working s)) s)).

(** [manager.save(Transaction, transaction)]: the row is written
    rounded, the entity is returned as it is in memory. *)
Definition saveTransaction (t : Transaction) : M Transaction :=
  bind (dbCall faults) (fun _ s =>
    (inl t, set_working (with_transactions
               (transactions (working s) ++ [transaction_row t])
               (working s)) s)).

Definition getOrCreateBalance (walletId : string) (currency : Currency)
  : M WalletBalance :=
  let* found := findOneBalance faults walletId currency in
  match found with
  | Some balance => ret balance
  | None =>
      let balance := mkWalletBalance walletId currency 0 0 0 in
      let* _ := saveBalances [balance] in
      fun s => (inl balance, add_hold (HoldBalance walletId currency) s)
  end.

Definition fundWallet (userId : string) (amount : Q) (currency : Currency)
    (reference : string) : M Transaction :=
  let* _ := checkUserVerified faults userId in
  if Qleb amount 0 then http "Funding amount must be positive" BAD_REQUEST
  else
    let* _ := connect faults in
    let* _ := startTransaction faults in
    catch_rollback
      (let* wallet := findOneWallet faults userId in
       match wallet with
       | None => http "Wallet not found" NOT_FOUND
       | Some wallet =>
           let* balance :=
             getOrCreateBalance (WalletEntity.id wallet) currency in
           let balance := credit amount balance in
           let* _ := saveBalances [balance] in
           let transaction :=
             mkTransaction userId (WalletEntity.id wallet) FUNDING COMPLETED
               amount currency currency 1 amount (Some reference)
               (WalletFundedWith amount currency) in
           let* savedTransaction := saveTransaction transaction in
           let* _ := commitTransaction faults in
           ret savedTransaction
       end)
      "Wallet funding failed".

Definition transferFunds (fromUserId toUserId : string) (amount : Q)
    (currency : Currency) (description : string) : M Transaction :=
  let* _ := checkUserVerified faults fromUserId in
  if String.eqb fromUserId toUserId
  then http "Cannot transfer funds to the same user" BAD_REQUEST
  else if Qleb amount 0
  then http "Transfer amount must be positive" BAD_REQUEST
  else
    let* _ := connect faults in
    let* _ := startTransaction faults in
    catch_rollback
      (let* fromWallet := findOneWallet faults fromUserId in
       let* toWallet := findOneWallet faults toUserId in
       match fromWallet, toWallet with
       | Some fromWallet, Some toWallet =>
           let* fromBalance :=
             getOrCreateBalance (WalletEntity.id fromWallet) currency in
           let* toBalance :=
             getOrCreateBalance (WalletEntity.id toWallet) currency in
           if Qltb (Number (availableBalance fromBalance)) amount
           then http "Insufficient available balance" BAD_REQUEST
           else
             let fromBalance := debit amount fromBalance in
             let toBalance := credit amount toBalance in
             let* _ := saveBalances [fromBalance; toBalance] in
             let transaction :=
               mkTransaction fromUserId (WalletEntity.id fromWallet)
                 TRANSFER COMPLETED amount currency currency 1 amount None
                 (Text (if String.eqb description ""
                        then "Transfer to user " +:+ toUserId
                        else description)) in
             let* savedTransaction := saveTransaction transaction in
             let* _ := commitTransaction faults in
             ret savedTransaction
       | _, _ => http "Sender or receiver wallet not found" NOT_FOUND
       end)
      "Fund transfer failed".

Definition executeTrade (userId : string) (fromCurrency toCurrency : Currency)
    (amount : Q) : M Transaction :=
  let* _ := checkUserVerified faults userId in
  if bool_decide (fromCurrency = toCurrency)
  then http "Cannot trade the same currency" BAD_REQUEST
  else if Qleb amount 0
  then http "Trade amount must be positive" BAD_REQUEST
  else
    let* _ := connect faults in
    let* _ := startTransaction faults in
    catch_rollback
      (let* wallet := findOneWallet faults userId in
       match wallet with
       | None => http "Wallet not found" NOT_FOUND
       | Some wallet =>
           let* ratesData := fxGetRates network fromCurrency in
           let unavailable :=
             http ("Exchange rate not available for " +:+ code fromCurrency
                   +:+ " to " +:+ code toCurrency) SERVICE_UNAVAILABLE in
           match FxService.rates ratesData !! code toCurrency with
           | None => unavailable
           | Some rate =>
               if Qis_zero rate then unavailable
               else
                 let convertedAmount := mul amount rate in
                 let* fromBalance :=
                   getOrCreateBalance (WalletEntity.id wallet) fromCurrency in
                 let* toBalance :=
                   getOrCreateBalance (WalletEntity.id wallet) toCurrency in
                 if Qltb (Number (availableBalance fromBalance)) amount
                 then http ("Insufficient " +:+ code fromCurrency +:+ " balance")
                        BAD_REQUEST
                 else
                   let fromBalance := debit amount fromBalance in
                   let toBalance := credit convertedAmount toBalance in
                   let* _ := saveBalances [fromBalance; toBalance] in
                   let transaction :=
                     mkTransaction userId (WalletEntity.id wallet) TRADE
                       COMPLETED amount fromCurrency toCurrency rate
                       convertedAmount None
                       (TradeFor amount fromCurrency convertedAmount
                          toCurrency rate) in
                   let* savedTransaction := saveTransaction transaction in
                   let* _ := commitTransaction faults in
                   ret savedTransaction
           end
       end)
      "Trade execution failed".
End Service.

Definition perform (faults : nat -> bool)
    (network : nat -> string -> FxService.Exchange) (op : Operation)
  : M Transaction :=
  match op with
  | Fund u a c r => fundWallet faults u a c r
  | Transfer f t a c d => transferFunds faults f t a c d
  | Trade u f t a => executeTrade faults network u f t a
  end.

End WalletLedger.

(* ===================================================================== *)
(** * Notions of the specification *)
(* ===================================================================== *)

(** Definitions that follow the words of the specification, to state its
    sentences about the code above. *)
Module Stated.
Import RateSourceInterface FallbackRatesService.

(** The baseline constant of a pair, and 1 for a pair that has none. *)
Definition baseline (fromCurrency toCurrency : Currency) : Q :=
  match fromCurrency, toCurrency with
  | NGN, USD => 0.0021 | NGN, EUR => 0.0019 | NGN, GBP => 0.0016
  | USD, NGN => 476.19 | USD, EUR => 0.92   | USD, GBP => 0.79
  | EUR, NGN => 517.60 | EUR, USD => 1.09   | EUR, GBP => 0.86
  | GBP, NGN => 602.41 | GBP, USD => 1.27   | GBP, EUR => 1.16
  | _, _ => 1
  end%Q.

(** An adapter "fails" when it is unavailable or one of its two calls
    throws; it "returns invalid data" when a rate of its list does not
    validate. *)
Definition fails (src : RateSource) : bool :=
  match isAvailable src, getRates src with
  | inl true, inl _ => false
  | _, _ => true
  end.

Definition returns_invalid_data (src : RateSource) : bool :=
  match isAvailable src, getRates src with
  | inl true, inl rates =>
      existsb (fun r => negb (isValidRate (RateSourceInterface.rate r))) rates
  | _, _ => false
  end.

Definition returns_valid_nonempty (src : RateSource) : bool :=
  match isAvailable src, getRates src with
  | inl true, inl rates =>
      negb (bool_decide (length rates = 0%nat))
      && forallb (fun r => isValidRate (RateSourceInterface.rate r)) rates
  | _, _ => false
  end.

(** The first adapter, in priority order, that is available and whose
    [getRates] returns, with the list it returns. *)
Fixpoint first_responding (sources : list RateSource)
  : option (RateSource * list RateSourceResponse) :=
  match sources with
  | [] => None
  | src :: rest =>
      match isAvailable src, getRates src with
      | inl true, inl rates => Some (src, rates)
      | _, _ => first_responding rest
      end
  end.

(** ** The ledger *)

(** [getOrCreateBalance] on the rows alone: the balance it returns and
    the rows it leaves. *)
Definition ensure (walletId : string) (currency : Currency)
    (rows : list WalletBalanceEntity.WalletBalance)
  : WalletBalanceEntity.WalletBalance * list WalletBalanceEntity.WalletBalance :=
  match find (Database.same_key walletId currency) rows with
  | Some b => (b, rows)
  | None =>
      let zero := WalletBalanceEntity.mkWalletBalance walletId currency 0 0 0 in
      (zero, Database.upsert zero rows)
  end.

(** The balance of a key: its row, or zeros when it has none yet. *)
Definition row_at (walletId : string) (currency : Currency)
    (rows : list WalletBalanceEntity.WalletBalance)
  : WalletBalanceEntity.WalletBalance :=
  fst (ensure walletId currency rows).

(** The sum of [total] over all rows of a currency. *)
Definition total_in (currency : Currency)
    (rows : list WalletBalanceEntity.WalletBalance) : Q :=
  fold_right
    (fun b acc =>
       if bool_decide (WalletBalanceEntity.currency b = currency)
       then (WalletBalanceEntity.balance b + acc)%Q else acc)
    0%Q rows.



(** The rows after a credit of [amount] to the balance of a key. *)
Definition fund_rows (walletId : string) (currency : Currency) (amount : Q)
    (rows : list WalletBalanceEntity.WalletBalance)
  : list WalletBalanceEntity.WalletBalance :=
  let e := ensure walletId currency rows in
  Database.upsert (WalletService.credit amount (fst e)) (snd e).

(** The rows after [out] was taken from the balance of one key and
    [into] was added to the balance of another. *)
Definition move_rows (fromWallet : string) (fromCurrency : Currency)
    (toWallet : string) (toCurrency : Currency) (out into : Q)
    (rows : list WalletBalanceEntity.WalletBalance)
  : list WalletBalanceEntity.WalletBalance :=
  let e1 := ensure fromWallet fromCurrency rows in
  let e2 := ensure toWallet toCurrency (snd e1) in
  Database.upsert (WalletService.credit into (fst e2))
    (Database.upsert (WalletService.debit out (fst e1)) (snd e2)).

Definition wallet_of (db : Database.Db) (userId : string)
  : option WalletEntity.Wallet :=
  find (fun w => String.eqb (WalletEntity.userId w) userId) (Database.wallets db).

(** The eligibility check: the owner exists and has a verified e-mail. *)
Definition eligible (db : Database.Db) (userId : string) : Prop :=
  exists u, find (fun u => String.eqb (UserEntity.id u) userId) (Database.users db)
            = Some u
            /\ UserEntity.isEmailVerified u = true.

(** The holds of each operation, in the order of its arguments. *)
Definition fund_holds (db : Database.Db) (userId : string) (currency : Currency)
  : list Database.Hold :=
  match wallet_of db userId with
  | Some w => [Database.HoldWallet (WalletEntity.id w);
               Database.HoldBalance (WalletEntity.id w) currency]
  | None => []
  end.

Definition transfer_holds (db : Database.Db) (fromUserId toUserId : string)
    (currency : Currency) : list Database.Hold :=
  match wallet_of db fromUserId, wallet_of db toUserId with
  | Some fw, Some tw =>
      [Database.HoldWallet (WalletEntity.id fw);
       Database.HoldWallet (WalletEntity.id tw);
       Database.HoldBalance (WalletEntity.id fw) currency;
       Database.HoldBalance (WalletEntity.id tw) currency]
  | Some fw, None => [Database.HoldWallet (WalletEntity.id fw)]
  | None, Some tw => [Database.HoldWallet (WalletEntity.id tw)]
  | None, None => []
  end.

Definition trade_holds (db : Database.Db) (userId : string)
    (fromCurrency toCurrency : Currency) : list Database.Hold :=
  match wallet_of db userId with
  | Some w => [Database.HoldWallet (WalletEntity.id w);
               Database.HoldBalance (WalletEntity.id w) fromCurrency;
               Database.HoldBalance (WalletEntity.id w) toCurrency]
  | None => []
  end.

Definition expected_holds (db : Database.Db) (op : WalletService.Operation)
  : list Database.Hold :=
  match op with
  | WalletService.Fund u _ c _ => fund_holds db u c
  | WalletService.Transfer f t _ c _ => transfer_holds db f t c
  | WalletService.Trade u f t _ => trade_holds db u f t
  end.

(** The canonical order of the specification: balance keys by owner id,
    then by currency code. *)
Definition owner_of (db : Database.Db) (walletId : string) : string :=
  match find (fun w => String.eqb (WalletEntity.id w) walletId)
          (Database.wallets db) with
  | Some w => WalletEntity.userId w
  | None => ""
  end.

Fixpoint balance_keys (db : Database.Db) (hs : list Database.Hold)
  : list (string * string) :=
  match hs with
  | [] => []
  | Database.HoldWallet _ :: hs' => balance_keys db hs'
  | Database.HoldBalance w c :: hs' =>
      (owner_of db w, code c) :: balance_keys db hs'
  end.

Definition key_leb (k1 k2 : string * string) : bool :=
  match String.compare (fst k1) (fst k2) with
  | Lt => true
  | Gt => false
  | Eq => String.leb (snd k1) (snd k2)
  end.

Fixpoint sorted (keys : list (string * string)) : bool :=
  match keys with
  | k1 :: (k2 :: _) as rest => key_leb k1 k2 && sorted rest
  | _ => true
  end.

Definition canonical (db : Database.Db) (hs : list Database.Hold) : bool :=
  sorted (balance_keys db hs).

End Stated.

(** Predicates on the runs of a transaction. *)
Module Hoare.
Import UserEntity WalletEntity WalletBalanceEntity TransactionEntity Database.

(** Some database call of the operation throws. *)
Definition may_fail (faults : nat -> bool) : Prop := exists k, faults k = true.

(** [wp m s Q]: running [m] on [s] ends in a result and a state that
    satisfy [Q]. *)
Definition wp {A} (m : M A) (s : Tx) (Q : A + Thrown -> Tx -> Prop) : Prop :=
  Q (fst (m s)) (snd (m s)).

(** What is known of the state while a transaction is open: the
    committed database [c], the rows and the ledger entries of the working
    copy, the holds acquired and the world of the FX service. *)
Record At (c : Db) (rows : list WalletBalance) (txs : list Transaction)
    (h : list Hold) (x : FxService.World) (s : Tx) : Prop := mkAt {
  at_committed : committed s = c;
  at_users     : users (working s) = users c;
  at_wallets   : wallets (working s) = wallets c;
  at_rows      : walletBalances (working s) = rows;
  at_txs       : transactions (working s) = txs;
  at_holds     : holds s = h;
  at_fx        : fx s = x
}.

(** The same outside a transaction. *)
Record Before (c : Db) (h : list Hold) (x : FxService.World) (s : Tx)
  : Prop := mkBefore {
  before_committed : committed s = c;
  before_holds     : holds s = h;
  before_fx        : fx s = x
}.

End Hoare.


(* ===================================================================== *)
(** * Notions for the properties of the remaining code *)
(* ===================================================================== *)

Module Notions.

Section Calls.
Context {W T E : Type}.
Variable fn : W -> (T + E) * W.

(** The errors of [n] calls of [fn] in a row that all fail, oldest
    first, and the world they leave; [None] when one of them succeeds. *)
Fixpoint failures (w : W) (n : nat) : option (list E * W) :=
  match n with
  | O => Some ([], w)
  | S n' =>
      match fn w with
      | (inr e, w') =>
          match failures w' n' with
          | Some (es, w'') => Some (e :: es, w'')
          | None => None
          end
      | (inl _, _) => None
      end
  end.
End Calls.

(** What [withRetry] throws when [retry] throws [e]: the error made an
    [Error], or the initial [lastError] when none was assigned. *)
Definition normalised {E : Type} (asError : E -> E) (failed : E)
    (e : option E) : E :=
  match e with Some e => asError e | None => failed end.

(** Every entry of the table holds a rate above zero. *)
Definition positive_table (t : FallbackRatesConfig.FallbackRates) : Prop :=
  forall (a b : string) inner r,
    t !! a = Some inner -> inner !! b = Some r ->
    (0 < FallbackRatesConfig.rate r)%Q.

(** The pairs of keys [order] list every entry of the table. *)
Definition lists_entries (order : list (string * string))
    (t : FallbackRatesConfig.FallbackRates) : Prop :=
  forall (a b : string) inner r,
    t !! a = Some inner -> inner !! b = Some r -> In (a, b) order.

(** From the [k]-th reading of the clock on, no entry of the table is
    more than an hour (3 600 000 ms) old. *)
Definition all_fresh (clock : nat -> Z) (k : nat)
    (t : FallbackRatesConfig.FallbackRates) : Prop :=
  forall (a b : string) inner r (j : nat),
    t !! a = Some inner -> inner !! b = Some r -> (k <= j)%nat ->
    (clock j - FallbackRatesConfig.lastUpdated r <= 3600000)%Z.

(** From the [k]-th reading of the clock on, some entry of the table is
    more than an hour old. *)
Definition some_stale (clock : nat -> Z) (k : nat)
    (t : FallbackRatesConfig.FallbackRates) : Prop :=
  exists (a b : string) inner r,
    t !! a = Some inner /\ inner !! b = Some r
    /\ forall j : nat, (k <= j)%nat ->
                       (clock j - FallbackRatesConfig.lastUpdated r > 3600000)%Z.

(** The pairs a list of source rates names, in both directions. *)
Definition touched (rates : list RateSourceInterface.RateSourceResponse)
    (a b : Currency) : Prop :=
  exists r, In r rates
            /\ ((a, b) = (RateSourceInterface.fromCurrency r,
                          RateSourceInterface.toCurrency r)
                \/ (a, b) = (RateSourceInterface.toCurrency r,
                             RateSourceInterface.fromCurrency r)).

(** The error of a response whose body is no rate table, as the [catch]
    of [getRates] rethrows it. *)
Definition invalid_data : Thrown :=
  ThrownHttp (mkHttpException
                "Invalid response data received from FX API in getRates"
                INTERNAL_SERVER_ERROR).

(** What [getRates] makes of the body of a response. *)
Definition answer (data : option FxService.ExchangeRateResponse)
  : FxService.ExchangeRateResponse + Thrown :=
  match data with Some rates => inl rates | None => inr invalid_data end.

(** The world after [n] requests for a base currency: [n] more requests
    sent, the delays waited for between them, and the table that was
    cached, when one was. *)
Definition after_requests (baseCurrency : string) (w : FxService.World)
    (n : nat) (cached : option FxService.ExchangeRateResponse)
  : FxService.World :=
  FxService.mkWorld
    (match cached with
     | Some rates => <["rates:" +:+ baseCurrency := rates]> (FxService.cache w)
     | None => FxService.cache w
     end)
    (n + FxService.requests w)
    (FxService.slept w ++ firstn (pred n) [1000; 2000]%Q).

(** The user in whose name an operation is requested. *)
Definition actor (op : WalletService.Operation) : string :=
  match op with
  | WalletService.Fund userId _ _ _ => userId
  | WalletService.Transfer fromUserId _ _ _ _ => fromUserId
  | WalletService.Trade userId _ _ _ => userId
  end.

(** The keys of the balance rows, in the order of the table. *)
Definition keys (rows : list WalletBalanceEntity.WalletBalance)
  : list (string * Currency) :=
  map (fun b => (WalletBalanceEntity.walletId b, WalletBalanceEntity.currency b))
    rows.

(** The keys [ks'] keep the keys [ks] in their places, add keys at the
    end only, and are distinct when [ks] are. *)
Definition extends (ks ks' : list (string * Currency)) : Prop :=
  ks `prefix_of` ks' /\ (NoDup ks -> NoDup ks').

(** The balance rows of a wallet, in the order of the table. *)
Definition rows_of (walletId : string)
    (rows : list WalletBalanceEntity.WalletBalance)
  : list WalletBalanceEntity.WalletBalance :=
  List.filter (fun b => String.eqb (WalletBalanceEntity.walletId b) walletId)
    rows.

(** ** The ledger on doubles and decimal columns *)

(** The rows after the balance of a key was credited and saved. *)
Definition funded_rows (walletId : string) (currency : Currency) (amount : Q)
    (rows : list WalletBalanceEntity.WalletBalance)
  : list WalletBalanceEntity.WalletBalance :=
  let e := Stated.ensure walletId currency rows in
  Database.upsert (Columns.balance_row (WalletLedger.credit amount (fst e)))
    (snd e).

(** The rows after [out] was taken from the balance of one key, [into]
    was added to the balance of another, and both were saved. *)
Definition moved_rows (fromWallet : string) (fromCurrency : Currency)
    (toWallet : string) (toCurrency : Currency) (out into : Q)
    (rows : list WalletBalanceEntity.WalletBalance)
  : list WalletBalanceEntity.WalletBalance :=
  let e1 := Stated.ensure fromWallet fromCurrency rows in
  let e2 := Stated.ensure toWallet toCurrency (snd e1) in
  Database.upsert (Columns.balance_row (WalletLedger.credit into (fst e2)))
    (Database.upsert (Columns.balance_row (WalletLedger.debit out (fst e1)))
       (snd e2)).

(** An amount of at most eight decimals and at most a million, either
    way: the sums and differences of two of them are computed and stored
    without loss. *)
Definition modest (x : Q) : Prop :=
  Columns.eight_decimals x = true /\ (Qabs x <= 1000000)%Q.

Definition modest_row (b : WalletBalanceEntity.WalletBalance) : Prop :=
  modest (WalletBalanceEntity.balance b)
  /\ modest (WalletBalanceEntity.availableBalance b).

End Notions.

(* ===================================================================== *)
(** * Sample inputs *)
(* ===================================================================== *)

Module Samples.
Import FallbackRatesConfig RateSourceInterface FallbackRatesService.

Definition clock0 (k : nat) : Z := 0.

(** The table of a service that was just constructed. *)
Definition table0 : State := mkState (initializeFallbackRates 0) 0.

Definition negative_rate : RateSourceResponse :=
  mkRateSourceResponse USD EUR (-1) 0 "Exchange Rates API".
Definition fixer_rate : RateSourceResponse :=
  mkRateSourceResponse EUR USD 1.25 0 "Fixer API".

Definition invalid_source : RateSource :=
  mkRateSource "Exchange Rates API" (inl [negative_rate]) (inl true).
Definition empty_source : RateSource :=
  mkRateSource "Exchange Rates API" (inl []) (inl true).
Definition fixer_source : RateSource :=
  mkRateSource "Fixer API" (inl [fixer_rate]) (inl true).

(** An operation that fails while its counter is below 2 and then returns
    the counter. *)
Definition flaky (n : nat) : (nat + string) * nat :=
  if (n <? 2)%nat then (inr "ECONNRESET", S n) else (inl n, S n).

(** ** A small database *)

Definition users0 : list UserEntity.User :=
  [UserEntity.mkUser "u1" true; UserEntity.mkUser "u2" true;
   UserEntity.mkUser "u3" false].

Definition wallets0 : list WalletEntity.Wallet :=
  [WalletEntity.mkWallet "w1" "u1"; WalletEntity.mkWallet "w2" "u2"].

(** Owner u1 has 1000 USD, owner u2 has 500 USD. *)
Definition db0 : Database.Db :=
  Database.mkDb users0 wallets0
    [WalletBalanceEntity.mkWalletBalance "w1" USD 1000 0 1000;
     WalletBalanceEntity.mkWalletBalance "w2" USD 500 0 500]
    [].

(** A cache that holds the rates of USD, with EUR at [eur]. *)
Definition cached (eur : Q) : FxService.World :=
  FxService.mkWorld
    {[ "rates:USD" := FxService.mkExchangeRateResponse {[ "EUR" := eur ]} "USD" 0 ]}
    0 [].

Definition cold : FxService.World := FxService.mkWorld ∅ 0 [].

(** A provider that cannot be reached, and one that answers every
    request with 429. *)
Definition offline (k : nat) (baseCurrency : string) : FxService.Exchange :=
  FxService.Rejected FxService.WithRequest.

Definition rate_limited (k : nat) (baseCurrency : string) : FxService.Exchange :=
  FxService.Rejected
    (FxService.WithResponse
       (FxService.mkErrorResponse (Some 429%Z) None (Some "Too Many Requests"))).


(** A provider whose answer has no rate table. *)
Definition garbled (k : nat) (baseCurrency : string) : FxService.Exchange :=
  FxService.Responded None.

(** The database call of index [k] throws. *)
Definition fault_at (k n : nat) : bool := (n =? k)%nat.

End Samples.

Module MoreSamples.

(** An operation that always fails, with its counter as the error. *)
Definition numbered (n : nat) : (unit + nat) * nat := (inr n, S n).

(** A clock that shows 3 600 001 ms after the epoch. *)
Definition an_hour_later (k : nat) : Z := 3600001.

(** The keys of the initial table, in the order of the constants. *)
Definition base_order : list (string * string) :=
  [("NGN", "USD"); ("NGN", "EUR"); ("NGN", "GBP");
   ("USD", "NGN"); ("USD", "EUR"); ("USD", "GBP");
   ("EUR", "NGN"); ("EUR", "USD"); ("EUR", "GBP");
   ("GBP", "NGN"); ("GBP", "USD"); ("GBP", "EUR")].

(** Sources that are down in the first cycle and answer from the second
    on. *)
Definition down_source : RateSourceInterface.RateSource :=
  RateSourceInterface.mkRateSource "Fixer API"
    (inr (ThrownOther "ECONNREFUSED")) (inl true).

Definition recovering (k : nat) : list RateSourceInterface.RateSource :=
  match k with
  | O => [down_source]
  | S _ => [Samples.fixer_source]
  end.

(** Owner u1 has 1000 USD and 20 EUR. *)
Definition db_two : Database.Db :=
  Database.mkDb Samples.users0 Samples.wallets0
    [WalletBalanceEntity.mkWalletBalance "w1" USD 1000 0 1000;
     WalletBalanceEntity.mkWalletBalance "w1" EUR 20 0 20]
    [].

Definition quote : Q := JsNumber.Number 0.85.

End MoreSamples.

(* ===================================================================== *)
(** * Comparisons of numbers *)
(* ===================================================================== *)

Module NumberFacts.

Lemma Qltb_lt a b : Qltb a b = true <-> (a < b)%Q.
Proof.
  unfold Qltb. rewrite Qlt_alt.
  destruct (a ?= b)%Q; split; intros H; try reflexivity; discriminate H.
Qed.

Lemma Qltb_ge a b : Qltb a b = false <-> (b <= a)%Q.
Proof.
  rewrite <- not_true_iff_false, Qltb_lt. split.
  - apply Qnot_lt_le.
  - apply Qle_not_lt.
Qed.

Lemma Qleb_gt a b : Qleb a b = false <-> (b < a)%Q.
Proof.
  unfold Qleb. rewrite Qgt_alt.
  destruct (a ?= b)%Q; split; intros H; try reflexivity; discriminate H.
Qed.

Lemma Qleb_le a b : Qleb a b = true <-> (a <= b)%Q.
Proof.
  rewrite <- not_false_iff_true, Qleb_gt. split.
  - apply Qnot_lt_le.
  - apply Qle_not_lt.
Qed.

Lemma Qis_zero_false a : Qis_zero a = false <-> ~ (a == 0)%Q.
Proof.
  unfold Qis_zero. rewrite Qeq_alt.
  destruct (a ?= 0)%Q; split; intros H; try reflexivity;
    try discriminate H; try (intros H'; discriminate H').
  exfalso. by apply H.
Qed.

End NumberFacts.

(* ===================================================================== *)
(** * The retry combinator *)
(* ===================================================================== *)

Module RetryFacts.
Import Retry.

Section Loop.
Context {W T E : Type}.
Variable fn : W -> (T + E) * W.
Variable config : RetryConfig.

(** Fuel beyond the iterations that remain changes nothing: the loop is
    left by its own test, so [retry] is the loop of the source. *)
Lemma retry_loop_fuel (extra fuel attempt : nat) delay lastError w called slept :
  (maxAttempts config < fuel + attempt)%nat ->
  retry_loop fn config (fuel + extra) attempt delay lastError w called slept
  = retry_loop fn config fuel attempt delay lastError w called slept.
Proof.
  revert attempt delay lastError w called slept.
  induction fuel as [|fuel IH]; intros attempt delay lastError w called slept Hlt.
  - simpl in Hlt. destruct extra as [|extra]; simpl; [reflexivity|].
    destruct (Nat.leb_spec attempt (maxAttempts config)); [lia|reflexivity].
  - simpl. destruct (attempt <=? maxAttempts config)%nat; [|reflexivity].
    destruct (fn w) as [[v|error] w']; [reflexivity|].
    destruct (Nat.eqb_spec attempt (maxAttempts config)); [reflexivity|].
    apply IH. lia.
Qed.

Lemma retry_loop_attempts fuel attempt delay lastError w called slept :
  (called <= attempts (retry_loop fn config fuel attempt delay lastError w called slept)
   <= called + fuel)%nat.
Proof.
  revert attempt delay lastError w called slept.
  induction fuel as [|fuel IH]; intros; simpl; [lia|].
  destruct (attempt <=? maxAttempts config)%nat; simpl; [|lia].
  destruct (fn w) as [[v|error] w']; simpl; [lia|].
  destruct (attempt =? maxAttempts config)%nat; simpl; [lia|].
  match goal with |- context [retry_loop _ _ _ ?a ?d ?l ?w ?c ?s] =>
    specialize (IH a d l w c s) end.
  lia.
Qed.

Lemma retry_loop_calls fuel attempt delay lastError w called slept :
  (attempt <= maxAttempts config)%nat ->
  (S called
   <= attempts (retry_loop fn config (S fuel) attempt delay lastError w called slept))%nat.
Proof.
  intros Hle. simpl.
  destruct (Nat.leb_spec attempt (maxAttempts config)); [|lia].
  destruct (fn w) as [[v|error] w']; simpl; [lia|].
  destruct (attempt =? maxAttempts config)%nat; simpl; [lia|].
  match goal with |- context [retry_loop _ _ _ ?a ?d ?l ?w ?c ?s] =>
    pose proof (retry_loop_attempts fuel a d l w c s) end.
  lia.
Qed.

Lemma retry_loop_waits fuel attempt delay lastError w called slept :
  (maxAttempts config < fuel + attempt)%nat ->
  waits (retry_loop fn config fuel attempt delay lastError w called slept)
  = slept ++ schedule config delay
      (pred (attempts (retry_loop fn config fuel attempt delay lastError
                         w called slept) - called)).
Proof.
  revert attempt delay lastError w called slept.
  induction fuel as [|fuel IH]; intros attempt delay lastError w called slept Hlt.
  - simpl. rewrite Nat.sub_diag. simpl. by rewrite app_nil_r.
  - simpl. destruct (Nat.leb_spec attempt (maxAttempts config)) as [Hle|Hgt]; simpl.
    2:{ rewrite Nat.sub_diag. simpl. by rewrite app_nil_r. }
    destruct (fn w) as [[v|error] w']; simpl.
    { replace (S called - called)%nat with 1%nat by lia. simpl.
      by rewrite app_nil_r. }
    destruct (Nat.eqb_spec attempt (maxAttempts config)) as [Heq|Hne]; simpl.
    { replace (S called - called)%nat with 1%nat by lia. simpl.
      by rewrite app_nil_r. }
    rewrite IH by lia.
    destruct fuel as [|fuel]; [lia|].
    pose proof (retry_loop_calls fuel (S attempt)
      (Qmin (delay * backoffFactor config) (maxDelay config))
      (Some error) w' (S called) (slept ++ [delay]) ltac:(lia)) as Hb.
    match goal with |- context [attempts ?r] => set (n := attempts r) in * end.
    replace (pred (n - called)) with (S (pred (n - S called))) by lia.
    simpl. by rewrite <- app_assoc.
Qed.

(** The loop throws an unassigned [lastError] only when it does not
    call [fn] at all. *)
Lemma retry_loop_unassigned fuel attempt delay lastError w called slept :
  outcome (retry_loop fn config fuel attempt delay lastError w called slept)
  = inr None ->
  lastError = None /\ (fuel = 0%nat \/ (maxAttempts config < attempt)%nat).
Proof.
  revert attempt delay lastError w called slept.
  induction fuel as [|fuel IH]; intros attempt delay lastError w called slept;
    simpl.
  - intros [= ->]. auto.
  - destruct (Nat.leb_spec attempt (maxAttempts config)) as [Hle|Hgt]; simpl.
    2:{ intros [= ->]. auto. }
    destruct (fn w) as [[v|error] w']; simpl; [discriminate|].
    destruct (attempt =? maxAttempts config)%nat; simpl; [discriminate|].
    intros H. apply IH in H as [H _]. discriminate H.
Qed.

Lemma retry_assigned w :
  (1 <= maxAttempts config)%nat -> outcome (retry fn config w) <> inr None.
Proof.
  intros Hmax H. unfold retry in H.
  apply retry_loop_unassigned in H as [_ [H|H]]; lia.
Qed.

(** Any configuration: [fn] is called at most [maxAttempts] times, and
    the delays waited for are the first [attempts - 1] of the schedule
    that starts at [initialDelay]. *)
Lemma retry_bounded w :
  (attempts (retry fn config w) <= maxAttempts config)%nat
  /\ waits (retry fn config w)
     = schedule config (initialDelay config)
         (pred (attempts (retry fn config w))).
Proof.
  unfold retry. split.
  - pose proof (retry_loop_attempts (maxAttempts config) 1
      (initialDelay config) None w 0 []). lia.
  - rewrite retry_loop_waits by lia. simpl. by rewrite Nat.sub_0_r.
Qed.
End Loop.

End RetryFacts.

Module RetryPolicy.
Import Retry RetryFacts Samples.

(** C9.  Under [RETRY_CONFIG] the operation is attempted at most 3 times;
    one delay is waited for before every attempt after the first, and the
    [k]-th of them is 1000 ms times 2 to the [k], capped at 5000 ms; an
    operation that fails twice and then succeeds makes [retry] return its
    result after 3 attempts, and the waits before the third attempt,
    1000 ms and 2000 ms, add up to a time between 1 s and 1 s + 2 s. *)
Theorem retry_policy {W T E : Type} (fn : W -> (T + E) * W) (w : W) :
  let run := retry fn RETRY_CONFIG w in
  (attempts run <= 3)%nat
  /\ length (waits run) = pred (attempts run)
  /\ (forall k d, waits run !! k = Some d -> d = backoff RETRY_CONFIG k)
  /\ (forall e1 e2 v w1 w2 w3,
        fn w = (inr e1, w1) -> fn w1 = (inr e2, w2) -> fn w2 = (inl v, w3) ->
        outcome run = inl v /\ world run = w3 /\ attempts run = 3%nat
        /\ waits run = [1000%Q; 2000%Q]
        /\ (1000 <= total_wait (waits run) <= 1000 + 2000)%Q).
Proof.
  intros run.
  destruct (retry_bounded fn RETRY_CONFIG w) as [Hmax Hwaits].
  fold run in Hmax, Hwaits. simpl in Hmax.
  assert (Hsched : waits run = firstn (pred (attempts run)) [1000%Q; 2000%Q]).
  { rewrite Hwaits.
    destruct (attempts run) as [|[|[|[|n]]]]; try reflexivity; lia. }
  split; [exact Hmax|]. split.
  { rewrite Hsched, length_firstn. simpl. lia. }
  split.
  { intros k d. rewrite Hsched.
    destruct (attempts run) as [|[|[|[|n]]]]; try lia;
      destruct k as [|[|k]]; simpl; intros [= <-]; reflexivity. }
  intros e1 e2 v w1 w2 w3 H1 H2 H3.
  subst run. unfold retry. simpl. rewrite H1. simpl. rewrite H2. simpl.
  rewrite H3. simpl. repeat split; vm_compute; discriminate.
Qed.

Lemma retry_policy_witness :
  outcome (retry flaky RETRY_CONFIG 0%nat) = inl 2%nat
  /\ attempts (retry flaky RETRY_CONFIG 0%nat) = 3%nat
  /\ waits (retry flaky RETRY_CONFIG 0%nat) = [1000%Q; 2000%Q].
Proof.
  destruct (retry_policy flaky 0%nat) as (_ & _ & _ & H).
  destruct (H "ECONNRESET" "ECONNRESET" 2%nat 1%nat 2%nat 3%nat)
    as (Ho & _ & Ha & Hw & _); try reflexivity.
  exact (conj Ho (conj Ha Hw)).
Defined.

End RetryPolicy.

(* ===================================================================== *)
(** * The fallback rate table *)
(* ===================================================================== *)

Module FallbackFacts.
Import FallbackRatesConfig RateSourceInterface FallbackRatesService NumberFacts.

Lemma code_inj a b : code a = code b -> a = b.
Proof. destruct a, b; simpl; intros H; try reflexivity; discriminate H. Qed.

Lemma isValidRate_bounds r :
  isValidRate r = true <-> (0 < r /\ r < 1000000)%Q.
Proof.
  unfold isValidRate. rewrite andb_true_iff, !Qltb_lt. reflexivity.
Qed.

Lemma entry_set_entry_eq table a b v :
  entry (set_entry table a b v) a b = Some v.
Proof.
  unfold entry, set_entry. rewrite lookup_insert_eq. simpl.
  by rewrite lookup_insert_eq.
Qed.

Lemma entry_set_entry_ne table a b v a' b' :
  (a', b') <> (a, b) ->
  entry (set_entry table a b v) a' b' = entry table a' b'.
Proof.
  intros Hne. unfold entry, set_entry.
  destruct (decide (a' = a)) as [->|Ha].
  - rewrite lookup_insert_eq. simpl.
    assert (code b' <> code b) as Hb.
    { intros Hc. apply code_inj in Hc. congruence. }
    rewrite lookup_insert_ne by congruence.
    destruct (table !! code a); simpl; [reflexivity|apply lookup_empty].
  - rewrite lookup_insert_ne; [reflexivity|].
    intros Hc. apply code_inj in Hc. congruence.
Qed.

Section Clock.
Variable clock : nat -> Z.

Lemma updateRate_invalid a b r s :
  isValidRate r = false -> updateRate clock a b r s = s.
Proof. intros H. unfold updateRate. by rewrite H. Qed.

(** What [apply_rate] writes are the rates that validate. *)
Lemma fold_apply_rate_valid rates s :
  fold_left (apply_rate clock) rates s
  = fold_left (fun s r => updateRate clock (fromCurrency r) (toCurrency r)
                            (RateSourceInterface.rate r) s)
      (filter (fun r => isValidRate (RateSourceInterface.rate r) = true) rates) s.
Proof.
  revert s. induction rates as [|r rates IH]; intros s; [reflexivity|].
  simpl. rewrite IH. unfold apply_rate.
  rewrite filter_cons.
  destruct (decide (isValidRate (RateSourceInterface.rate r) = true)) as [Hv|Hv].
  - rewrite Hv. reflexivity.
  - apply not_true_is_false in Hv. rewrite Hv. reflexivity.
Qed.

Lemma sources_loop_failed sources lastError s :
  fst (fst (sources_loop clock sources lastError s)) = false ->
  snd (sources_loop clock sources lastError s) = s.
Proof.
  revert lastError. induction sources as [|src rest IH]; intros lastError; simpl.
  - reflexivity.
  - destruct (isAvailable src) as [[|]|error]; [|apply IH..].
    destruct (getRates src) as [rates|error]; [|apply IH].
    simpl. discriminate.
Qed.
End Clock.

End FallbackFacts.

Module FallbackProperties.
Import FallbackRatesConfig RateSourceInterface FallbackRatesService.
Import FallbackFacts Stated Samples.

(** C10.  [getRate] is a total function that never throws: for a pair
    present in the table it returns the stored rate, for a pair absent
    from the table it returns the baseline constant of the pair, and for a
    pair that has no baseline constant either, as every pair of a
    currency with itself, it returns 1. *)
Theorem getRate_total (table : FallbackRates) (fromCurrency toCurrency : Currency) :
  (forall (inner : gmap string FallbackRate) (r : FallbackRate),
      table !! code fromCurrency = Some inner ->
      inner !! code toCurrency = Some r ->
      getRate table fromCurrency toCurrency = FallbackRatesConfig.rate r)
  /\ ((table !! code fromCurrency = None
       \/ exists inner : gmap string FallbackRate,
            table !! code fromCurrency = Some inner
            /\ inner !! code toCurrency = None) ->
      getRate table fromCurrency toCurrency = baseline fromCurrency toCurrency)
  /\ (fromCurrency = toCurrency -> baseline fromCurrency toCurrency = 1%Q).
Proof.
  split; [|split].
  - intros inner r Hi Hr. unfold getRate, entry. rewrite Hi. simpl.
    by rewrite Hr.
  - intros Habsent.
    assert (entry table fromCurrency toCurrency = None) as Hnone.
    { unfold entry. destruct Habsent as [->|(inner & -> & Hr)]; simpl; done. }
    unfold getRate. rewrite Hnone.
    destruct fromCurrency, toCurrency; reflexivity.
  - intros <-. destruct fromCurrency; reflexivity.
Qed.

Lemma getRate_total_witness :
  getRate (initializeFallbackRates 0) USD EUR = 0.92%Q
  /\ getRate ∅ USD EUR = 0.92%Q
  /\ getRate ∅ USD USD = 1%Q.
Proof.
  split; [|split].
  - apply (proj1 (getRate_total (initializeFallbackRates 0) USD EUR)
             ((fun r => mkFallbackRate r 0) <$> row [(NGN, 476.19%Q); (EUR, 0.92%Q); (GBP, 0.79%Q)])
             (mkFallbackRate 0.92 0)); reflexivity.
  - apply (proj1 (proj2 (getRate_total ∅ USD EUR))). left. reflexivity.
  - destruct (getRate_total ∅ USD USD) as (_ & Habsent & Hsame).
    rewrite Habsent; [apply Hsame; reflexivity|left; reflexivity].
Defined.

Lemma sources_loop_first clock sources lastError s :
  match first_responding sources with
  | Some (_, rates) =>
      exists lastError',
        sources_loop clock sources lastError s
        = (true, lastError', fold_left (apply_rate clock) rates s)
  | None =>
      exists lastError', sources_loop clock sources lastError s = (false, lastError', s)
  end.
Proof.
  revert lastError. induction sources as [|src rest IH]; intros lastError; simpl.
  - by exists lastError.
  - destruct (isAvailable src) as [[|]|error]; [|apply IH..].
    destruct (getRates src) as [rates|error]; [|apply IH].
    by exists lastError.
Qed.

(** C8, as the code has it.  The cycle takes the adapters in priority
    order and passes over one that is unavailable or throws.  The first
    adapter that is available and whose [getRates] returns ends the
    cycle without error: of its list, and of no other adapter's, the
    rates that validate are written, the others are skipped.  When no
    adapter is available and returns, the cycle throws and the table is
    as it was. *)
Theorem refresh_cycle (clock : nat -> Z) (sources : list RateSource) (s : State) :
  match first_responding sources with
  | Some (src, rates) =>
      fetchLatestRates clock sources s
      = (inl tt,
         fold_left (fun s r => updateRate clock (fromCurrency r) (toCurrency r)
                                 (RateSourceInterface.rate r) s)
           (filter (fun r => isValidRate (RateSourceInterface.rate r) = true) rates) s)
  | None => exists error, fetchLatestRates clock sources s = (inr error, s)
  end.
Proof.
  pose proof (sources_loop_first clock sources None s) as H.
  unfold fetchLatestRates.
  destruct (first_responding sources) as [[src rates]|].
  - destruct H as [lastError' ->]. by rewrite fold_apply_rate_valid.
  - destruct H as [lastError' ->]. eauto.
Qed.

(** C8 as stated fails: an adapter whose only rate is negative returns
    invalid data, yet the cycle ends without error; and an adapter that
    returns an empty list ends the cycle before the next adapter, whose
    list is valid and non-empty, is asked. *)
Lemma refresh_cycle_counterexample :
  (forallb (fun src => fails src || returns_invalid_data src) [invalid_source] = true
   /\ fetchLatestRates clock0 [invalid_source] table0 = (inl tt, table0))
  /\ (returns_valid_nonempty empty_source = false
      /\ returns_valid_nonempty fixer_source = true
      /\ fetchLatestRates clock0 [empty_source; fixer_source] table0 = (inl tt, table0)
      /\ fetchLatestRates clock0 [fixer_source] table0 <> (inl tt, table0)).
Proof.
  repeat split; try reflexivity.
  intros H. apply (f_equal (fun p => dates (snd p))) in H. discriminate H.
Qed.

End FallbackProperties.

(* ===================================================================== *)
(** * The rate resolver *)
(* ===================================================================== *)

Module FxServiceFacts.
Import Retry FxService.


(** A cached table is returned as it is, and nothing is fetched. *)
Lemma getRates_cached network baseCurrency w cachedRates :
  cache w !! ("rates:" +:+ baseCurrency) = Some cachedRates ->
  getRates network baseCurrency w = (inl cachedRates, w).
Proof. intros H. unfold getRates. by rewrite H. Qed.

End FxServiceFacts.

(* ===================================================================== *)
(** * The ledger: rows, transactions and the three operations *)
(* ===================================================================== *)

Module LedgerFacts.
Import UserEntity WalletEntity WalletBalanceEntity TransactionEntity Database.
Import WalletService Stated NumberFacts.

(** ** Rows *)

Lemma same_key_spec w c b :
  same_key w c b = true
  <-> WalletBalanceEntity.walletId b = w /\ currency b = c.
Proof.
  unfold same_key. rewrite andb_true_iff, String.eqb_eq, bool_decide_eq_true.
  reflexivity.
Qed.

Lemma same_key_refl b :
  same_key (WalletBalanceEntity.walletId b) (currency b) b = true.
Proof. by apply same_key_spec. Qed.

Lemma find_same_key w c rows b :
  find (same_key w c) rows = Some b ->
  In b rows /\ WalletBalanceEntity.walletId b = w /\ currency b = c.
Proof.
  intros H. apply find_some in H as [Hin Hk].
  by apply same_key_spec in Hk.
Qed.

Lemma find_upsert_eq b rows :
  find (same_key (WalletBalanceEntity.walletId b) (currency b)) (upsert b rows)
  = Some b.
Proof.
  induction rows as [|r rows IH]; simpl.
  - by rewrite same_key_refl.
  - destruct (same_key _ _ r) eqn:Hr; simpl.
    + by rewrite same_key_refl.
    + by rewrite Hr.
Qed.

Lemma find_upsert_ne w c b rows :
  same_key w c b = false ->
  find (same_key w c) (upsert b rows) = find (same_key w c) rows.
Proof.
  intros Hb. induction rows as [|r rows IH]; simpl.
  - by rewrite Hb.
  - destruct (same_key (WalletBalanceEntity.walletId b) (currency b) r) eqn:Hr; simpl.
    + rewrite Hb.
      assert (same_key w c r = false) as ->; [|reflexivity].
      apply same_key_spec in Hr as [Hw Hc].
      apply not_true_iff_false. rewrite same_key_spec. intros [<- <-].
      apply not_true_iff_false in Hb. apply Hb. by apply same_key_spec.
    + destruct (same_key w c r); [reflexivity|exact IH].
Qed.


Lemma ensure_key w c rows :
  WalletBalanceEntity.walletId (fst (ensure w c rows)) = w
  /\ currency (fst (ensure w c rows)) = c.
Proof.
  unfold ensure. destruct (find (same_key w c) rows) as [b|] eqn:Hf; simpl.
  - apply find_same_key in Hf. tauto.
  - done.
Qed.

Lemma find_ensure w c rows :
  find (same_key w c) (snd (ensure w c rows)) = Some (fst (ensure w c rows)).
Proof.
  unfold ensure. destruct (find (same_key w c) rows) as [b|] eqn:Hf; simpl.
  - exact Hf.
  - apply (find_upsert_eq (mkWalletBalance w c 0 0 0)).
Qed.

Lemma find_ensure_ne w c w' c' rows :
  (w', c') <> (w, c) ->
  find (same_key w' c') (snd (ensure w c rows)) = find (same_key w' c') rows.
Proof.
  intros Hne. unfold ensure.
  destruct (find (same_key w c) rows) as [b|]; simpl; [reflexivity|].
  apply find_upsert_ne. apply not_true_iff_false.
  rewrite same_key_spec. simpl. intros [-> ->]. by apply Hne.
Qed.


(** ** The balance of a key *)

Lemma row_at_find w c rows :
  row_at w c rows
  = default (mkWalletBalance w c 0 0 0) (find (same_key w c) rows).
Proof. unfold row_at, ensure. by destruct (find (same_key w c) rows). Qed.

Lemma row_at_upsert_eq b rows :
  row_at (WalletBalanceEntity.walletId b) (currency b) (upsert b rows) = b.
Proof. by rewrite row_at_find, find_upsert_eq. Qed.

Lemma row_at_upsert_ne w c b rows :
  (w, c) <> (WalletBalanceEntity.walletId b, currency b) ->
  row_at w c (upsert b rows) = row_at w c rows.
Proof.
  intros Hne. rewrite !row_at_find, find_upsert_ne; [reflexivity|].
  apply not_true_iff_false. rewrite same_key_spec. intros [<- <-].
  by apply Hne.
Qed.

Lemma row_at_ensure w c w' c' rows :
  row_at w c (snd (ensure w' c' rows)) = row_at w c rows.
Proof.
  destruct (decide ((w, c) = (w', c'))) as [[= -> ->]|Hne].
  - by rewrite row_at_find, find_ensure.
  - by rewrite !row_at_find, find_ensure_ne.
Qed.

Lemma row_at_key w c rows :
  WalletBalanceEntity.walletId (row_at w c rows) = w
  /\ currency (row_at w c rows) = c.
Proof. apply ensure_key. Qed.



(** ** The sum of a currency *)

Lemma total_in_upsert c b rows :
  currency b = c ->
  (total_in c (upsert b rows)
   == total_in c rows - balance (row_at (WalletBalanceEntity.walletId b) c rows)
      + balance b)%Q.
Proof.
  intros <-. rewrite row_at_find.
  induction rows as [|r rows IH]; simpl.
  - rewrite bool_decide_eq_true_2 by reflexivity. ring.
  - destruct (same_key (WalletBalanceEntity.walletId b) (currency b) r) eqn:Hr;
      simpl.
    + apply same_key_spec in Hr as [_ Hrc].
      rewrite !bool_decide_eq_true_2 by done. ring.
    + destruct (find (same_key (WalletBalanceEntity.walletId b) (currency b)) rows)
        as [b0|]; simpl in *;
        destruct (bool_decide (currency r = currency b)); rewrite ?IH; ring.
Qed.

Lemma total_in_upsert_other c b rows :
  currency b <> c -> (total_in c (upsert b rows) == total_in c rows)%Q.
Proof.
  intros Hc. induction rows as [|r rows IH]; simpl.
  - rewrite bool_decide_eq_false_2 by exact Hc. reflexivity.
  - destruct (same_key _ _ r) eqn:Hr; simpl.
    + apply same_key_spec in Hr as [_ Hrc].
      rewrite !bool_decide_eq_false_2 by congruence. reflexivity.
    + destruct (bool_decide (currency r = c)); rewrite ?IH; reflexivity.
Qed.

Lemma total_in_ensure c w c' rows :
  (total_in c (snd (ensure w c' rows)) == total_in c rows)%Q.
Proof.
  unfold ensure. destruct (find (same_key w c') rows) as [b|] eqn:Hf; simpl.
  - reflexivity.
  - destruct (decide (c' = c)) as [->|Hne].
    + rewrite total_in_upsert by reflexivity. simpl.
      rewrite row_at_find, Hf. simpl. ring.
    + by apply total_in_upsert_other.
Qed.

(** A transfer between two wallets leaves the sum of its currency alone. *)
Lemma total_in_move_rows c w1 w2 amount rows :
  w1 <> w2 ->
  (total_in c (move_rows w1 c w2 c amount amount rows) == total_in c rows)%Q.
Proof.
  intros Hne. unfold move_rows. cbv zeta.
  set (e1 := ensure w1 c rows). set (e2 := ensure w2 c (snd e1)).
  destruct (ensure_key w1 c rows) as [Hw1 Hc1]. fold e1 in Hw1, Hc1.
  destruct (ensure_key w2 c (snd e1)) as [Hw2 Hc2]. fold e2 in Hw2, Hc2.
  rewrite total_in_upsert by exact Hc2. simpl. rewrite Hw2.
  rewrite row_at_upsert_ne by (simpl; rewrite Hw1, Hc1; congruence).
  rewrite total_in_upsert by exact Hc1. simpl. rewrite Hw1.
  assert (row_at w2 c (snd e2) = fst e2) as ->.
  { unfold e2. rewrite row_at_ensure. reflexivity. }
  assert (row_at w1 c (snd e2) = fst e1) as ->.
  { unfold e2. rewrite row_at_ensure. unfold e1.
    by rewrite row_at_find, find_ensure. }
  unfold e2. rewrite total_in_ensure. unfold e1 at 1. rewrite total_in_ensure.
  ring.
Qed.

(** ** The invariant of a balance *)









End LedgerFacts.

(* ===================================================================== *)
(** * Reasoning about a transaction *)
(* ===================================================================== *)

Module TxLogic.
Import UserEntity WalletEntity WalletBalanceEntity TransactionEntity Database.
Import WalletService Stated Hoare NumberFacts LedgerFacts.

Lemma wp_run {A} (m : M A) s Q r s' : wp m s Q -> m s = (r, s') -> Q r s'.
Proof. unfold wp. intros H Hm. by rewrite Hm in H. Qed.

Lemma wp_ret {A} (a : A) s (Q : A + Thrown -> Tx -> Prop) :
  Q (inl a) s -> wp (ret a) s Q.
Proof. done. Qed.

Lemma wp_throw {A} e s (Q : A + Thrown -> Tx -> Prop) :
  Q (inr e) s -> wp (throw e) s Q.
Proof. done. Qed.

Lemma wp_bind {A B} (m : M A) (k : A -> M B) s (Q : B + Thrown -> Tx -> Prop) :
  wp m s (fun r s1 => match r with
                      | inl a => wp (k a) s1 Q
                      | inr e => Q (inr e) s1
                      end) ->
  wp (bind m k) s Q.
Proof. unfold wp, bind. by destruct (m s) as [[a|e] s1]. Qed.

Lemma wp_catch_rollback {A} (body : M A) failure s (Q : A + Thrown -> Tx -> Prop) :
  wp body s (fun r s1 =>
    match r with
    | inl a => Q (inl a) s1
    | inr (ThrownHttp e) => Q (inr (ThrownHttp e)) (rollbackTransaction s1)
    | inr (ThrownOther _) =>
        Q (inr (ThrownHttp (mkHttpException failure INTERNAL_SERVER_ERROR)))
          (rollbackTransaction s1)
    end) ->
  wp (catch_rollback body failure) s Q.
Proof. unfold wp, catch_rollback. by destruct (body s) as [[a|[e|msg]] s1]. Qed.

Lemma Before_At c h x s :
  Before c h x s -> working s = c ->
  At c (walletBalances c) (transactions c) h x s.
Proof. intros [Hc Hh Hx] Hw. split; congruence. Qed.

Lemma At_rollback c rows txs h x s :
  At c rows txs h x s -> Before c h x (rollbackTransaction s).
Proof. intros [Hc _ _ _ _ Hh Hx]. by split. Qed.

Section Faults.
Variable faults : nat -> bool.

Lemma wp_dbCall s (Q : unit + Thrown -> Tx -> Prop) :
  (forall s', committed s' = committed s -> working s' = working s ->
              holds s' = holds s -> fx s' = fx s ->
              (may_fail faults -> Q (inr database_error) s') /\ Q (inl tt) s') ->
  wp (dbCall faults) s Q.
Proof.
  intros H. unfold wp, dbCall.
  destruct (H (mkTx (committed s) (working s) (S (calls s)) (holds s) (fx s)))
    as [He Hok]; try reflexivity.
  destruct (faults (calls s)) eqn:Hf; [|exact Hok].
  apply He. by exists (calls s).
Qed.

Lemma wp_findOneUser userId c h x s (Q : option User + Thrown -> Tx -> Prop) :
  Before c h x s ->
  (forall s', Before c h x s' ->
              (may_fail faults -> Q (inr database_error) s')
              /\ Q (inl (find (fun u => String.eqb (UserEntity.id u) userId)
                           (users c))) s') ->
  wp (findOneUser faults userId) s Q.
Proof.
  intros [Hc Hh Hx] H. unfold findOneUser. apply wp_bind, wp_dbCall.
  intros s' Hc' _ Hh' Hx'. destruct (H s') as [He Hok]; [split; congruence|].
  split; [exact He|]. unfold wp. simpl. by rewrite Hc', Hc.
Qed.

Lemma wp_connect c h x s (Q : unit + Thrown -> Tx -> Prop) :
  Before c h x s ->
  (forall s', Before c h x s' ->
              (may_fail faults -> Q (inr database_error) s') /\ Q (inl tt) s') ->
  wp (connect faults) s Q.
Proof.
  intros [Hc Hh Hx] H. apply wp_dbCall. intros s' Hc' _ Hh' Hx'.
  apply H; split; congruence.
Qed.

Lemma wp_startTransaction c h x s (Q : unit + Thrown -> Tx -> Prop) :
  Before c h x s ->
  (forall s', Before c h x s' -> may_fail faults -> Q (inr database_error) s') ->
  (forall s', At c (walletBalances c) (transactions c) h x s' -> Q (inl tt) s') ->
  wp (startTransaction faults) s Q.
Proof.
  intros [Hc Hh Hx] He Hok. unfold startTransaction. apply wp_bind, wp_dbCall.
  intros s' Hc' _ Hh' Hx'. split; [apply He; split; congruence|].
  unfold wp. simpl. apply Hok. split; simpl; congruence.
Qed.

Lemma wp_commitTransaction c rows txs h x s (Q : unit + Thrown -> Tx -> Prop) :
  At c rows txs h x s ->
  (forall s', At c rows txs h x s' -> may_fail faults -> Q (inr database_error) s') ->
  (forall s', Before (mkDb (users c) (wallets c) rows txs) h x s' ->
              Q (inl tt) s') ->
  wp (commitTransaction faults) s Q.
Proof.
  intros [Hc Hu Hw Hr Ht Hh Hx] He Hok. unfold commitTransaction.
  apply wp_bind, wp_dbCall. intros s' Hc' Hw' Hh' Hx'. split.
  - apply He. split; congruence.
  - unfold wp. simpl. apply Hok. split; simpl; [|congruence..].
    rewrite Hw'. destruct (working s). simpl in *. congruence.
Qed.

Lemma wp_findOneWallet userId c rows txs h x s
    (Q : option Wallet + Thrown -> Tx -> Prop) :
  At c rows txs h x s ->
  (forall s', At c rows txs h x s' -> may_fail faults -> Q (inr database_error) s') ->
  (forall s', At c rows txs h x s' -> wallet_of c userId = None ->
              Q (inl None) s') ->
  (forall w s', At c rows txs (h ++ [HoldWallet (WalletEntity.id w)]) x s' ->
                wallet_of c userId = Some w -> Q (inl (Some w)) s') ->
  wp (findOneWallet faults userId) s Q.
Proof.
  intros [Hc Hu Hw Hr Ht Hh Hx] He Hnone Hsome. unfold findOneWallet.
  apply wp_bind, wp_dbCall. intros s' Hc' Hw' Hh' Hx'.
  assert (At c rows txs h x s') as Hat by (split; congruence).
  split; [by apply He|]. unfold wp.
  rewrite Hw', Hw. unfold wallet_of in Hnone, Hsome.
  destruct (find _ (wallets c)) as [w|] eqn:Hf; simpl.
  - apply Hsome; [|reflexivity]. destruct Hat. split; simpl; congruence.
  - by apply Hnone.
Qed.

Lemma wp_saveBalance b c rows txs h x s
    (Q : WalletBalance + Thrown -> Tx -> Prop) :
  At c rows txs h x s ->
  (forall s', At c rows txs h x s' -> may_fail faults -> Q (inr database_error) s') ->
  (forall s', At c (upsert b rows) txs h x s' -> Q (inl b) s') ->
  wp (saveBalance faults b) s Q.
Proof.
  intros [Hc Hu Hw Hr Ht Hh Hx] He Hok. unfold saveBalance.
  apply wp_bind, wp_dbCall. intros s' Hc' Hw' Hh' Hx'.
  split; [apply He; split; congruence|]. unfold wp. simpl.
  apply Hok. split; simpl; congruence.
Qed.

Lemma wp_saveTransaction t c rows txs h x s
    (Q : Transaction + Thrown -> Tx -> Prop) :
  At c rows txs h x s ->
  (forall s', At c rows txs h x s' -> may_fail faults -> Q (inr database_error) s') ->
  (forall s', At c rows (txs ++ [t]) h x s' -> Q (inl t) s') ->
  wp (saveTransaction faults t) s Q.
Proof.
  intros [Hc Hu Hw Hr Ht Hh Hx] He Hok. unfold saveTransaction.
  apply wp_bind, wp_dbCall. intros s' Hc' Hw' Hh' Hx'.
  split; [apply He; split; congruence|]. unfold wp. simpl.
  apply Hok. split; simpl; congruence.
Qed.

Lemma wp_getOrCreateBalance walletId currency c rows txs h x s
    (Q : WalletBalance + Thrown -> Tx -> Prop) :
  At c rows txs h x s ->
  (forall s', At c rows txs h x s' -> may_fail faults -> Q (inr database_error) s') ->
  (forall s', At c (snd (ensure walletId currency rows)) txs
                (h ++ [HoldBalance walletId currency]) x s' ->
              Q (inl (fst (ensure walletId currency rows))) s') ->
  wp (getOrCreateBalance faults walletId currency) s Q.
Proof.
  intros Hat He Hok. unfold getOrCreateBalance, findOneBalance.
  apply wp_bind, wp_bind, wp_dbCall. intros s1 Hc1 Hw1 Hh1 Hx1.
  assert (At c rows txs h x s1) as Hat1.
  { destruct Hat. split; congruence. }
  split; [by apply He|]. unfold wp at 1.
  destruct Hat1 as [Hc Hu Hw Hr Ht Hh Hx].
  unfold ensure in Hok. rewrite Hr.
  destruct (find (same_key walletId currency) rows) as [b|] eqn:Hf; simpl.
  - apply wp_ret. apply Hok. split; simpl; congruence.
  - apply wp_bind. eapply wp_saveBalance.
    + split; eassumption.
    + intros s2 Hat2. by apply He.
    + intros s2 [Hc2 Hu2 Hw2 Hr2 Ht2 Hh2 Hx2]. unfold wp. simpl.
      apply Hok. split; simpl; congruence.
Qed.

Lemma wp_checkUserVerified userId c h x s (Q : unit + Thrown -> Tx -> Prop) :
  Before c h x s ->
  (forall s', Before c h x s' -> may_fail faults -> Q (inr database_error) s') ->
  (forall s', Before c h x s' -> ~ eligible c userId ->
     Q (inr (ThrownHttp (mkHttpException "User not verified or not found"
                           FORBIDDEN))) s') ->
  (forall s', Before c h x s' -> eligible c userId -> Q (inl tt) s') ->
  wp (checkUserVerified faults userId) s Q.
Proof.
  intros Hb He Hno Hok. unfold checkUserVerified.
  apply wp_bind. eapply wp_findOneUser; [eassumption|].
  intros s' Hb'. split; [by apply He|].
  destruct (find _ (users c)) as [u|] eqn:Hf.
  - destruct (isEmailVerified u) eqn:Hv.
    + apply wp_ret. apply Hok; [assumption|]. by exists u.
    + apply wp_throw. apply Hno; [assumption|].
      intros (u' & Hf' & Hv'). congruence.
  - apply wp_throw. apply Hno; [assumption|].
    intros (u' & Hf' & Hv'). unfold eligible in *. congruence.
Qed.

Lemma wp_fxGetRates network baseCurrency c rows txs h x s
    (Q : FxService.ExchangeRateResponse + Thrown -> Tx -> Prop) :
  At c rows txs h x s ->
  (forall s', At c rows txs h
                (snd (FxService.getRates network (code baseCurrency) x)) s' ->
              Q (fst (FxService.getRates network (code baseCurrency) x)) s') ->
  wp (fxGetRates network baseCurrency) s Q.
Proof.
  intros [Hc Hu Hw Hr Ht Hh Hx] H. unfold wp, fxGetRates. rewrite Hx.
  destruct (FxService.getRates network (code baseCurrency) x) as [r x'].
  simpl in *. apply H. by split.
Qed.
End Faults.

End TxLogic.

(* ===================================================================== *)
(** * The three operations, run by run *)
(* ===================================================================== *)

Module OperationFacts.
Import UserEntity WalletEntity WalletBalanceEntity TransactionEntity Database.
Import WalletService Stated Hoare NumberFacts LedgerFacts TxLogic.

(** A run that failed: it holds a prefix of the expected holds and the
    committed database is the one it started from. *)
Ltac failed :=
  unfold database_error; simpl;
  lazymatch goal with
  | H : At _ _ _ _ _ ?s |- _ /\ committed ?s = _ =>
      destruct H as [Hc_ _ _ _ _ Hh_ _];
      split; [rewrite Hh_; eexists; simpl; reflexivity|exact Hc_]
  | H : Before _ _ _ ?s |- _ /\ committed ?s = _ =>
      destruct H as [Hc_ Hh_ _];
      split; [rewrite Hh_; eexists; simpl; reflexivity|exact Hc_]
  end.

Section Faults.
Variable faults : nat -> bool.
Variable network : nat -> string -> FxService.Exchange.

Lemma fundWallet_run userId amount currency reference db x s :
  Before db [] x s ->
  wp (fundWallet faults userId amount currency reference) s (fun r s' =>
    holds s' `prefix_of` fund_holds db userId currency
    /\ match r with
       | inr _ => committed s' = db
       | inl tx =>
           exists wallet,
             eligible db userId /\ (0 < amount)%Q
             /\ wallet_of db userId = Some wallet
             /\ tx = mkTransaction userId (WalletEntity.id wallet) FUNDING
                       COMPLETED amount currency currency 1 amount
                       (Some reference) (WalletFundedWith amount currency)
             /\ committed s'
                = mkDb (users db) (wallets db)
                    (fund_rows (WalletEntity.id wallet) currency amount
                       (walletBalances db))
                    (transactions db ++ [tx])
             /\ holds s' = fund_holds db userId currency
       end).
Proof.
  intros Hb. unfold fundWallet.
  apply wp_bind. eapply wp_checkUserVerified; [eassumption| | |].
  { intros s1 Hb1 _. failed. }
  { intros s1 Hb1 _. failed. }
  intros s1 Hb1 Heligible.
  destruct (Qleb amount 0) eqn:Hamount.
  { apply wp_throw. failed. }
  apply Qleb_gt in Hamount.
  apply wp_bind. eapply wp_connect; [eassumption|].
  intros s2 Hb2. split; [intros _; failed|].
  apply wp_bind. eapply wp_startTransaction; [eassumption| |].
  { intros s3 Hb3 _. failed. }
  intros s3 Hat3. apply wp_catch_rollback.
  apply wp_bind. eapply wp_findOneWallet; [eassumption| | |].
  { intros s4 Hat4 _. failed. }
  { intros s4 Hat4 Hnone. apply wp_throw. failed. }
  intros wallet s4 Hat4 Hwallet.
  unfold fund_holds. rewrite Hwallet.
  apply wp_bind. eapply wp_getOrCreateBalance; [eassumption| |].
  { intros s5 Hat5 _. failed. }
  intros s5 Hat5.
  apply wp_bind. eapply wp_saveBalance; [eassumption| |].
  { intros s6 Hat6 _. failed. }
  intros s6 Hat6.
  apply wp_bind. eapply wp_saveTransaction; [eassumption| |].
  { intros s7 Hat7 _. failed. }
  intros s7 Hat7.
  apply wp_bind. eapply wp_commitTransaction; [eassumption| |].
  { intros s8 Hat8 _. failed. }
  intros s8 [Hc8 Hh8 _]. apply wp_ret.
  split; [rewrite Hh8; by exists []|].
  exists wallet. by repeat split.
Qed.

Lemma transferFunds_run fromUserId toUserId amount currency description db x s :
  Before db [] x s ->
  wp (transferFunds faults fromUserId toUserId amount currency description) s
    (fun r s' =>
    holds s' `prefix_of` transfer_holds db fromUserId toUserId currency
    /\ match r with
       | inr _ => committed s' = db
       | inl tx =>
           exists fromWallet toWallet,
             eligible db fromUserId /\ fromUserId <> toUserId
             /\ (0 < amount)%Q
             /\ wallet_of db fromUserId = Some fromWallet
             /\ wallet_of db toUserId = Some toWallet
             /\ (amount <= availableBalance
                   (fst (ensure (WalletEntity.id fromWallet) currency
                           (walletBalances db))))%Q
             /\ tx = mkTransaction fromUserId (WalletEntity.id fromWallet)
                       TRANSFER COMPLETED amount currency currency 1 amount
                       None
                       (Text (if String.eqb description ""
                              then "Transfer to user " +:+ toUserId
                              else description))
             /\ committed s'
                = mkDb (users db) (wallets db)
                    (move_rows (WalletEntity.id fromWallet) currency
                       (WalletEntity.id toWallet) currency amount amount
                       (walletBalances db))
                    (transactions db ++ [tx])
             /\ holds s' = transfer_holds db fromUserId toUserId currency
       end).
Proof.
  intros Hb. unfold transferFunds.
  apply wp_bind. eapply wp_checkUserVerified; [eassumption| | |].
  { intros s1 Hb1 _. failed. }
  { intros s1 Hb1 _. failed. }
  intros s1 Hb1 Heligible.
  destruct (String.eqb_spec fromUserId toUserId) as [Hsame|Hdiff].
  { apply wp_throw. failed. }
  destruct (Qleb amount 0) eqn:Hamount.
  { apply wp_throw. failed. }
  apply Qleb_gt in Hamount.
  apply wp_bind. eapply wp_connect; [eassumption|].
  intros s2 Hb2. split; [intros _; failed|].
  apply wp_bind. eapply wp_startTransaction; [eassumption| |].
  { intros s3 Hb3 _. failed. }
  intros s3 Hat3. apply wp_catch_rollback.
  unfold transfer_holds.
  apply wp_bind. eapply wp_findOneWallet; [eassumption| | |].
  { intros s4 Hat4 _. failed. }
  { intros s4 Hat4 Hnone. rewrite Hnone.
    apply wp_bind. eapply wp_findOneWallet; [eassumption| | |].
    - intros s5 Hat5 _. failed.
    - intros s5 Hat5 Hnone'. rewrite Hnone'. apply wp_throw. failed.
    - intros toWallet s5 Hat5 Hto. rewrite Hto. apply wp_throw. failed. }
  intros fromWallet s4 Hat4 Hfrom. rewrite Hfrom.
  apply wp_bind. eapply wp_findOneWallet; [eassumption| | |].
  { intros s5 Hat5 _. destruct (wallet_of db toUserId); failed. }
  { intros s5 Hat5 Hnone. rewrite Hnone. apply wp_throw. failed. }
  intros toWallet s5 Hat5 Hto. rewrite Hto.
  apply wp_bind. eapply wp_getOrCreateBalance; [eassumption| |].
  { intros s6 Hat6 _. failed. }
  intros s6 Hat6.
  apply wp_bind. eapply wp_getOrCreateBalance; [eassumption| |].
  { intros s7 Hat7 _. failed. }
  intros s7 Hat7.
  destruct (Qltb _ amount) eqn:Hfunds.
  { apply wp_throw. failed. }
  apply Qltb_ge in Hfunds.
  apply wp_bind. eapply wp_saveBalance; [eassumption| |].
  { intros s8 Hat8 _. failed. }
  intros s8 Hat8.
  apply wp_bind. eapply wp_saveBalance; [eassumption| |].
  { intros s9 Hat9 _. failed. }
  intros s9 Hat9.
  apply wp_bind. eapply wp_saveTransaction; [eassumption| |].
  { intros s10 Hat10 _. failed. }
  intros s10 Hat10.
  apply wp_bind. eapply wp_commitTransaction; [eassumption| |].
  { intros s11 Hat11 _. failed. }
  intros s11 [Hc11 Hh11 _]. apply wp_ret.
  split; [rewrite Hh11; by exists []|].
  exists fromWallet, toWallet. by repeat split.
Qed.

Lemma executeTrade_run userId fromCurrency toCurrency amount db x s :
  Before db [] x s ->
  wp (executeTrade faults network userId fromCurrency toCurrency amount) s
    (fun r s' =>
    holds s' `prefix_of` trade_holds db userId fromCurrency toCurrency
    /\ match r with
       | inr _ => committed s' = db
       | inl tx =>
           exists wallet ratesData rate,
             eligible db userId /\ fromCurrency <> toCurrency
             /\ (0 < amount)%Q
             /\ wallet_of db userId = Some wallet
             /\ fst (FxService.getRates network (code fromCurrency) x)
                = inl ratesData
             /\ FxService.rates ratesData !! code toCurrency = Some rate
             /\ ~ (rate == 0)%Q
             /\ (amount <= availableBalance
                   (fst (ensure (WalletEntity.id wallet) fromCurrency
                           (walletBalances db))))%Q
             /\ tx = mkTransaction userId (WalletEntity.id wallet) TRADE
                       COMPLETED amount fromCurrency toCurrency rate
                       (amount * rate) None
                       (TradeFor amount fromCurrency (amount * rate)
                          toCurrency rate)
             /\ committed s'
                = mkDb (users db) (wallets db)
                    (move_rows (WalletEntity.id wallet) fromCurrency
                       (WalletEntity.id wallet) toCurrency amount
                       (amount * rate) (walletBalances db))
                    (transactions db ++ [tx])
             /\ holds s' = trade_holds db userId fromCurrency toCurrency
       end).
Proof.
  intros Hb. unfold executeTrade.
  apply wp_bind. eapply wp_checkUserVerified; [eassumption| | |].
  { intros s1 Hb1 _. failed. }
  { intros s1 Hb1 _. failed. }
  intros s1 Hb1 Heligible.
  destruct (bool_decide_reflect (fromCurrency = toCurrency)) as [Hsame|Hdiff].
  { apply wp_throw. failed. }
  destruct (Qleb amount 0) eqn:Hamount.
  { apply wp_throw. failed. }
  apply Qleb_gt in Hamount.
  apply wp_bind. eapply wp_connect; [eassumption|].
  intros s2 Hb2. split; [intros _; failed|].
  apply wp_bind. eapply wp_startTransaction; [eassumption| |].
  { intros s3 Hb3 _. failed. }
  intros s3 Hat3. apply wp_catch_rollback.
  unfold trade_holds.
  apply wp_bind. eapply wp_findOneWallet; [eassumption| | |].
  { intros s4 Hat4 _. failed. }
  { intros s4 Hat4 Hnone. apply wp_throw. failed. }
  intros wallet s4 Hat4 Hwallet. rewrite Hwallet.
  apply wp_bind. eapply wp_fxGetRates; [eassumption|].
  intros s5 Hat5.
  destruct (fst (FxService.getRates network (code fromCurrency) x))
    as [ratesData|[e|msg]] eqn:Hrates; [|failed..].
  destruct (FxService.rates ratesData !! code toCurrency) as [rate|] eqn:Hrate.
  2:{ apply wp_throw. failed. }
  destruct (Qis_zero rate) eqn:Hzero.
  { apply wp_throw. failed. }
  apply Qis_zero_false in Hzero.
  apply wp_bind. eapply wp_getOrCreateBalance; [eassumption| |].
  { intros s6 Hat6 _. failed. }
  intros s6 Hat6.
  apply wp_bind. eapply wp_getOrCreateBalance; [eassumption| |].
  { intros s7 Hat7 _. failed. }
  intros s7 Hat7.
  destruct (Qltb _ amount) eqn:Hfunds.
  { apply wp_throw. failed. }
  apply Qltb_ge in Hfunds.
  apply wp_bind. eapply wp_saveBalance; [eassumption| |].
  { intros s8 Hat8 _. failed. }
  intros s8 Hat8.
  apply wp_bind. eapply wp_saveBalance; [eassumption| |].
  { intros s9 Hat9 _. failed. }
  intros s9 Hat9.
  apply wp_bind. eapply wp_saveTransaction; [eassumption| |].
  { intros s10 Hat10 _. failed. }
  intros s10 Hat10.
  apply wp_bind. eapply wp_commitTransaction; [eassumption| |].
  { intros s11 Hat11 _. failed. }
  intros s11 [Hc11 Hh11 _]. apply wp_ret.
  split; [rewrite Hh11; by exists []|].
  exists wallet, ratesData, rate. by repeat split.
Qed.
End Faults.

End OperationFacts.

(* ===================================================================== *)
(** * The operations on a database that does not fail *)
(* ===================================================================== *)

Module ResultFacts.
Import UserEntity WalletEntity WalletBalanceEntity TransactionEntity Database.
Import WalletService Stated Hoare NumberFacts LedgerFacts TxLogic.

Ltac no_fault :=
  lazymatch goal with
  | Hnf : ~ may_fail _ |- _ => intros; exfalso; by apply Hnf
  end.

Ltac thrown :=
  unfold http; apply wp_throw; simpl;
  lazymatch goal with
  | H : At _ _ _ _ _ ?s |- _ /\ committed ?s = _ =>
      split; [reflexivity|exact (at_committed _ _ _ _ _ _ H)]
  | H : Before _ _ _ ?s |- _ /\ committed ?s = _ =>
      split; [reflexivity|exact (before_committed _ _ _ _ H)]
  end.

Section Faults.
Variable faults : nat -> bool.
Variable network : nat -> string -> FxService.Exchange.
Hypothesis Hnf : ~ may_fail faults.

Lemma executeTrade_result userId fromCurrency toCurrency amount db x s :
  Before db [] x s -> eligible db userId ->
  wp (executeTrade faults network userId fromCurrency toCurrency amount) s
    (fun r s' =>
    let unavailable :=
      ThrownHttp (mkHttpException
        ("Exchange rate not available for " +:+ code fromCurrency
         +:+ " to " +:+ code toCurrency) SERVICE_UNAVAILABLE) in
    if bool_decide (fromCurrency = toCurrency) then
      r = inr (ThrownHttp (mkHttpException "Cannot trade the same currency"
                             BAD_REQUEST))
      /\ committed s' = db
    else if Qleb amount 0 then
      r = inr (ThrownHttp (mkHttpException "Trade amount must be positive"
                             BAD_REQUEST))
      /\ committed s' = db
    else
      match wallet_of db userId with
      | None =>
          r = inr (ThrownHttp (mkHttpException "Wallet not found" NOT_FOUND))
          /\ committed s' = db
      | Some wallet =>
          match fst (FxService.getRates network (code fromCurrency) x) with
          | inr (ThrownHttp e) => r = inr (ThrownHttp e) /\ committed s' = db
          | inr (ThrownOther _) =>
              r = inr (ThrownHttp (mkHttpException "Trade execution failed"
                                     INTERNAL_SERVER_ERROR))
              /\ committed s' = db
          | inl ratesData =>
              match FxService.rates ratesData !! code toCurrency with
              | None => r = inr unavailable /\ committed s' = db
              | Some rate =>
                  if Qis_zero rate then r = inr unavailable /\ committed s' = db
                  else if Qltb (availableBalance
                                  (fst (ensure (WalletEntity.id wallet)
                                          fromCurrency (walletBalances db))))
                            amount
                  then
                    r = inr (ThrownHttp (mkHttpException
                               ("Insufficient " +:+ code fromCurrency
                                +:+ " balance") BAD_REQUEST))
                    /\ committed s' = db
                  else
                    let tx := mkTransaction userId (WalletEntity.id wallet)
                                TRADE COMPLETED amount fromCurrency toCurrency
                                rate (amount * rate) None
                                (TradeFor amount fromCurrency (amount * rate)
                                   toCurrency rate) in
                    r = inl tx
                    /\ committed s'
                       = mkDb (users db) (wallets db)
                           (move_rows (WalletEntity.id wallet) fromCurrency
                              (WalletEntity.id wallet) toCurrency amount
                              (amount * rate) (walletBalances db))
                           (transactions db ++ [tx])
              end
          end
      end).
Proof.
  intros Hb Heligible. unfold executeTrade.
  apply wp_bind. eapply wp_checkUserVerified; [eassumption| | |];
    [no_fault|intros; contradiction|].
  intros s1 Hb1 _. cbv zeta.
  destruct (bool_decide (fromCurrency = toCurrency)) eqn:Hsame; [thrown|].
  destruct (Qleb amount 0) eqn:Hamount; [thrown|].
  apply wp_bind. eapply wp_connect; [eassumption|].
  intros s2 Hb2. split; [no_fault|].
  apply wp_bind. eapply wp_startTransaction; [eassumption|no_fault|].
  intros s3 Hat3. apply wp_catch_rollback.
  apply wp_bind. eapply wp_findOneWallet; [eassumption|no_fault| |].
  { intros s4 Hat4 Hnone. rewrite Hnone. thrown. }
  intros wallet s4 Hat4 Hwallet. rewrite Hwallet.
  apply wp_bind. eapply wp_fxGetRates; [eassumption|].
  intros s5 Hat5.
  destruct (fst (FxService.getRates network (code fromCurrency) x))
    as [ratesData|[e|msg]] eqn:Hrates.
  2,3: simpl; split; [reflexivity|exact (at_committed _ _ _ _ _ _ Hat5)].
  destruct (FxService.rates ratesData !! code toCurrency) as [rate|] eqn:Hrate;
    [|thrown].
  destruct (Qis_zero rate) eqn:Hzero; [thrown|].
  apply wp_bind. eapply wp_getOrCreateBalance; [eassumption|no_fault|].
  intros s6 Hat6.
  apply wp_bind. eapply wp_getOrCreateBalance; [eassumption|no_fault|].
  intros s7 Hat7.
  destruct (Qltb _ amount) eqn:Hfunds; [thrown|].
  apply wp_bind. eapply wp_saveBalance; [eassumption|no_fault|].
  intros s8 Hat8.
  apply wp_bind. eapply wp_saveBalance; [eassumption|no_fault|].
  intros s9 Hat9.
  apply wp_bind. eapply wp_saveTransaction; [eassumption|no_fault|].
  intros s10 Hat10.
  apply wp_bind. eapply wp_commitTransaction; [eassumption|no_fault|].
  intros s11 [Hc11 _ _]. apply wp_ret. by split.
Qed.
End Faults.

End ResultFacts.

(* ===================================================================== *)
(** * The ledger engine *)
(* ===================================================================== *)

Module LedgerProperties.
Import UserEntity WalletEntity WalletBalanceEntity TransactionEntity Database.
Import WalletService Stated Hoare NumberFacts LedgerFacts TxLogic.
Import OperationFacts Samples.

Lemma Before_initial db x : Before db [] x (initial db x).
Proof. by split. Qed.

Lemma no_faults_never : ~ may_fail no_faults.
Proof. intros [k Hk]. discriminate Hk. Qed.

(** A run of [perform] from [initial db x] is a run of the operation it
    names, to which its run lemma applies. *)
Ltac run_of Hrun H :=
  lazymatch type of Hrun with
  | fundWallet ?f ?u ?a ?c ?r (initial ?db ?x) = _ =>
      pose proof (wp_run _ _ _ _ _
        (fundWallet_run f u a c r db x _ (Before_initial db x)) Hrun) as H
  | transferFunds ?f ?u ?t ?a ?c ?d (initial ?db ?x) = _ =>
      pose proof (wp_run _ _ _ _ _
        (transferFunds_run f u t a c d db x _ (Before_initial db x)) Hrun) as H
  | executeTrade ?f ?n ?u ?c ?t ?a (initial ?db ?x) = _ =>
      pose proof (wp_run _ _ _ _ _
        (executeTrade_run f n u c t a db x _ (Before_initial db x)) Hrun) as H
  end; cbv beta in H.

(** C4.  When a fund, a transfer or a trade ends in an error, at whatever
    stage and whichever database call threw, the committed database is the
    one the operation started from: no balance and no ledger entry of the
    attempt is committed. *)
Theorem rollback_all_or_nothing faults network op db x e s' :
  perform faults network op (initial db x) = (inr e, s') ->
  committed s' = db.
Proof.
  intros Hrun.
  destruct op as [u a c ref|f t a c d|u f t a]; simpl in Hrun;
    run_of Hrun H; by destruct H as [_ H].
Qed.

(** The credit of a trade is the ninth database call on [db0]; it throws
    after the debit was saved, and neither is committed. *)
Lemma rollback_all_or_nothing_witness :
  fst (perform (fault_at 8) offline (Trade "u1" USD EUR 100)
         (initial db0 (cached 0.85)))
  = inr (ThrownHttp (mkHttpException "Trade execution failed"
                       INTERNAL_SERVER_ERROR))
  /\ committed (snd (perform (fault_at 8) offline (Trade "u1" USD EUR 100)
                       (initial db0 (cached 0.85))))
     = db0.
Proof.
  split; [reflexivity|].
  apply (rollback_all_or_nothing (fault_at 8) offline
           (Trade "u1" USD EUR 100) db0 (cached 0.85)
           (ThrownHttp (mkHttpException "Trade execution failed"
                          INTERNAL_SERVER_ERROR))).
  vm_compute. reflexivity.
Defined.




(** C6 as stated fails: a transfer from u2 to u1 takes the holds of u2
    before those of u1, and a trade of USD for EUR takes the USD balance
    before the EUR balance. *)
Lemma holds_not_canonical :
  (String.ltb "u1" "u2" = true
   /\ holds (snd (perform no_faults offline (Transfer "u2" "u1" 100 USD "")
                    (initial db0 cold)))
      = [HoldWallet "w2"; HoldWallet "w1"; HoldBalance "w2" USD;
         HoldBalance "w1" USD]
   /\ canonical db0
        (holds (snd (perform no_faults offline (Transfer "u2" "u1" 100 USD "")
                       (initial db0 cold))))
      = false)
  /\ (String.ltb (code EUR) (code USD) = true
      /\ holds (snd (perform no_faults offline (Trade "u1" USD EUR 100)
                       (initial db0 (cached 0.85))))
         = [HoldWallet "w1"; HoldBalance "w1" USD; HoldBalance "w1" EUR]
      /\ canonical db0
           (holds (snd (perform no_faults offline (Trade "u1" USD EUR 100)
                          (initial db0 (cached 0.85)))))
         = false).
Proof. repeat split; reflexivity. Qed.

(** C6, as the code has it.  The holds of an operation are taken in the
    order of its arguments: a transfer locks the sender's wallet, then the
    receiver's, then holds the sender's balance, then the receiver's; a
    trade locks the owner's wallet, then holds the balance of
    [fromCurrency], then that of [toCurrency].  A run that stops early
    holds a prefix of that sequence, a completed one holds it all. *)
Theorem holds_in_argument_order faults network op db x r s' :
  perform faults network op (initial db x) = (r, s') ->
  holds s' `prefix_of` expected_holds db op
  /\ (forall tx, r = inl tx -> holds s' = expected_holds db op).
Proof.
  intros Hrun.
  destruct op as [u a c ref|f t a c d|u f t a]; simpl in Hrun;
    run_of Hrun H; destruct H as [Hprefix Hr];
    (split; [exact Hprefix|]); intros tx ->.
  - by destruct Hr as (wallet & _ & _ & _ & _ & _ & Hh).
  - by destruct Hr as (fw & tw & _ & _ & _ & _ & _ & _ & _ & _ & Hh).
  - by destruct Hr as (wallet & ratesData & rate & _ & _ & _ & _ & _ & _ & _
                       & _ & _ & _ & Hh).
Qed.

Lemma holds_in_argument_order_witness :
  holds (snd (perform no_faults offline (Transfer "u2" "u1" 100 USD "")
                (initial db0 cold)))
  = transfer_holds db0 "u2" "u1" USD.
Proof.
  eapply (proj2 (holds_in_argument_order no_faults offline
                   (Transfer "u2" "u1" 100 USD "") db0 cold _ _
                   (surjective_pairing _))).
  vm_compute. reflexivity.
Defined.

End LedgerProperties.

(* ===================================================================== *)
(** * More on the retry combinator *)
(* ===================================================================== *)

Module RetryProperties.
Import Retry RetryFacts Notions.

Section Loop.
Context {W T E : Type}.
Variable fn : W -> (T + E) * W.
Variable config : RetryConfig.

Lemma retry_loop_succeeds k :
  forall fuel attempt delay lastError w called slept es w1 v w2,
    failures fn w k = Some (es, w1) ->
    fn w1 = (inl v, w2) ->
    (attempt + k <= maxAttempts config)%nat ->
    (k < fuel)%nat ->
    retry_loop fn config fuel attempt delay lastError w called slept
    = mkRun (inl v) w2 (S (called + k)) (slept ++ schedule config delay k).
Proof.
  induction k as [|k IH];
    intros fuel attempt delay lastError w called slept es w1 v w2 Hf Hv Hle Hfuel.
  - injection Hf as <- <-. destruct fuel as [|fuel]; [lia|]. simpl.
    destruct (Nat.leb_spec attempt (maxAttempts config)); [|lia].
    rewrite Hv, Nat.add_0_r. by rewrite app_nil_r.
  - simpl in Hf. destruct (fn w) as [[v0|e] w'] eqn:Hw; [discriminate|].
    destruct (failures fn w' k) as [[es' w'']|] eqn:Hk; [|discriminate].
    injection Hf as <- <-.
    destruct fuel as [|fuel]; [lia|]. simpl.
    destruct (Nat.leb_spec attempt (maxAttempts config)); [|lia].
    rewrite Hw.
    destruct (Nat.eqb_spec attempt (maxAttempts config)); [lia|].
    rewrite (IH _ _ _ _ _ _ _ _ _ _ _ Hk Hv) by lia.
    f_equal; [lia|]. by rewrite <- app_assoc.
Qed.

Lemma retry_loop_exhausts k :
  forall fuel attempt delay lastError w called slept es w',
    failures fn w (S k) = Some (es, w') ->
    (attempt + k = maxAttempts config)%nat ->
    (k < fuel)%nat ->
    retry_loop fn config fuel attempt delay lastError w called slept
    = mkRun (inr (last es)) w' (S (called + k))
        (slept ++ schedule config delay k).
Proof.
  induction k as [|k IH];
    intros fuel attempt delay lastError w called slept es w' Hf Hle Hfuel.
  - simpl in Hf. destruct (fn w) as [[v0|e] w1] eqn:Hw; [discriminate|].
    injection Hf as <- <-.
    destruct fuel as [|fuel]; [lia|]. simpl.
    destruct (Nat.leb_spec attempt (maxAttempts config)); [|lia].
    rewrite Hw.
    destruct (Nat.eqb_spec attempt (maxAttempts config)); [|lia].
    rewrite Nat.add_0_r. by rewrite app_nil_r.
  - change (failures fn w (S (S k))) with
      (match fn w with
       | (inr e, w1) =>
           match failures fn w1 (S k) with
           | Some (es, w'') => Some (e :: es, w'')
           | None => None
           end
       | (inl _, _) => None
       end) in Hf.
    destruct (fn w) as [[v0|e] w1] eqn:Hw; [discriminate|].
    destruct (failures fn w1 (S k)) as [[es' w'']|] eqn:Hk; [|discriminate].
    injection Hf as <- <-.
    destruct fuel as [|fuel]; [lia|]. simpl retry_loop.
    destruct (Nat.leb_spec attempt (maxAttempts config)); [|lia].
    rewrite Hw.
    destruct (Nat.eqb_spec attempt (maxAttempts config)); [lia|].
    rewrite (IH _ _ _ _ _ _ _ _ _ Hk) by lia.
    assert (last (e :: es') = last es') as ->.
    { destruct es' as [|e' es'']; [|reflexivity].
      simpl in Hk. destruct (fn w1) as [[?|?] ?]; [discriminate|].
      destruct (failures fn _ k) as [[? ?]|]; discriminate. }
    f_equal; [lia|]. simpl. by rewrite <- app_assoc.
Qed.

(** X1.  When the first [k] calls of [fn] fail and the next one returns
    [v], with [k] below [maxAttempts], [retry] returns [v] after [k + 1]
    calls, in the world that call left, having waited for the first [k]
    delays of the schedule. *)
Theorem retry_returns_first_success w k es w1 v w2 :
  failures fn w k = Some (es, w1) ->
  fn w1 = (inl v, w2) ->
  (k < maxAttempts config)%nat ->
  retry fn config w
  = mkRun (inl v) w2 (S k) (schedule config (initialDelay config) k).
Proof.
  intros Hf Hv Hk. unfold retry.
  by rewrite (retry_loop_succeeds k _ _ _ _ _ _ _ _ _ _ _ Hf Hv) by lia.
Qed.

(** X2.  When the first [maxAttempts] calls of [fn] all fail, [retry]
    throws the error of the last of them (not of the first), after
    exactly [maxAttempts] calls and [maxAttempts - 1] waits. *)
Theorem retry_throws_last_error w es w' :
  (1 <= maxAttempts config)%nat ->
  failures fn w (maxAttempts config) = Some (es, w') ->
  retry fn config w
  = mkRun (inr (last es)) w' (maxAttempts config)
      (schedule config (initialDelay config) (pred (maxAttempts config))).
Proof.
  intros Hmax Hf. unfold retry.
  destruct (maxAttempts config) as [|k] eqn:Hk; [lia|].
  by rewrite (retry_loop_exhausts k _ _ _ _ _ _ _ _ _ Hf) by lia.
Qed.

Lemma schedule_capped delay n :
  (delay <= maxDelay config)%Q ->
  Forall (fun d => (d <= maxDelay config)%Q) (schedule config delay n).
Proof.
  revert delay. induction n as [|n IH]; intros delay Hd; simpl.
  - constructor.
  - constructor; [exact Hd|]. apply IH. apply Q.le_min_r.
Qed.

Lemma length_schedule delay n : length (schedule config delay n) = n.
Proof.
  revert delay. induction n as [|n IH]; intros delay; simpl;
    [reflexivity|by rewrite IH].
Qed.

Lemma total_wait_capped (slept : list Q) (cap : Q) :
  Forall (fun d => (d <= cap)%Q) slept ->
  (total_wait slept <= inject_Z (Z.of_nat (length slept)) * cap)%Q.
Proof.
  induction 1 as [|d slept Hd _ IH]; unfold total_wait; simpl fold_right.
  - simpl. rewrite Qmult_0_l. apply Qle_refl.
  - change (length (d :: slept)) with (S (length slept)).
    rewrite Nat2Z.inj_succ. unfold Z.succ. rewrite inject_Z_plus.
    rewrite Qmult_plus_distr_l, Qmult_1_l, Qplus_comm.
    apply Qplus_le_compat; [exact IH|exact Hd].
Qed.

(** X3.  When [initialDelay] does not exceed [maxDelay], no wait of
    [retry] exceeds [maxDelay], whatever the backoff factor, and the
    time it waits in all is at most [maxDelay] for every attempt after
    the first. *)
Theorem retry_waits_capped w :
  (initialDelay config <= maxDelay config)%Q ->
  Forall (fun d => (d <= maxDelay config)%Q) (waits (retry fn config w))
  /\ (total_wait (waits (retry fn config w))
      <= inject_Z (Z.of_nat (pred (attempts (retry fn config w))))
         * maxDelay config)%Q.
Proof.
  intros Hinit. destruct (retry_bounded fn config w) as [_ Hw].
  assert (Hall : Forall (fun d => (d <= maxDelay config)%Q)
                   (waits (retry fn config w))).
  { rewrite Hw. by apply schedule_capped. }
  split; [exact Hall|].
  pose proof (total_wait_capped _ _ Hall) as Ht.
  assert (length (waits (retry fn config w))
          = pred (attempts (retry fn config w))) as Hlen.
  { rewrite Hw. apply length_schedule. }
  rewrite Hlen in Ht. exact Ht.
Qed.

(** X4.  With a count of attempts of 0, [retry] does not call [fn]: it
    throws at once, without waiting, an error that was never assigned.
    With a whole count of at least 1 it calls [fn] at least once, and
    what it throws is an error that a call of [fn] threw. *)
Theorem retry_unassigned w :
  (maxAttempts config = 0%nat ->
   retry fn config w = mkRun (inr None) w 0 [])
  /\ ((1 <= maxAttempts config)%nat ->
      (1 <= attempts (retry fn config w))%nat
      /\ outcome (retry fn config w) <> inr None).
Proof.
  split.
  - intros H. unfold retry. by rewrite H.
  - intros H. split; [|by apply retry_assigned].
    unfold retry. destruct (maxAttempts config) as [|n] eqn:Hn; [lia|].
    rewrite <- Hn. rewrite Hn at 1.
    apply (retry_loop_calls fn config n 1 (initialDelay config) None w 0 []).
    lia.
Qed.
End Loop.

Lemma retry_returns_first_success_witness :
  retry Samples.flaky RETRY_CONFIG 0%nat
  = mkRun (inl 2%nat) 3%nat 3 [1000%Q; 2000%Q].
Proof.
  exact (retry_returns_first_success Samples.flaky RETRY_CONFIG 0%nat 2
           ["ECONNRESET"; "ECONNRESET"] 2%nat 2%nat 3%nat
           eq_refl eq_refl (le_n 3)).
Defined.

Lemma retry_throws_last_error_witness :
  retry MoreSamples.numbered RETRY_CONFIG 0%nat
  = mkRun (inr (Some 2%nat)) 3%nat 3 [1000%Q; 2000%Q].
Proof.
  exact (retry_throws_last_error MoreSamples.numbered RETRY_CONFIG 0%nat
           [0; 1; 2]%nat 3%nat (le_S _ _ (le_S _ _ (le_n 1))) eq_refl).
Defined.

Lemma retry_waits_capped_witness :
  Forall (fun d => (d <= 5000)%Q)
    (waits (retry MoreSamples.numbered RETRY_CONFIG 0%nat)).
Proof.
  apply (retry_waits_capped MoreSamples.numbered RETRY_CONFIG 0%nat).
  vm_compute. discriminate.
Defined.

End RetryProperties.

(* ===================================================================== *)
(** * The two retry loops *)
(* ===================================================================== *)

Module WithRetryProperties.
Import Retry Notions.

Section Loop.
Context {W T E : Type}.
Variable operation : W -> (T + E) * W.
Variable asError : E -> E.

Lemma withRetry_loop_retry_loop fuel :
  forall attempt delay lastError failed w called slept warned,
    let r := retry_loop operation RETRY_CONFIG fuel attempt delay lastError
               w called slept in
    let l := FxRetry.withRetry_loop operation asError fuel attempt delay
               (normalised asError failed lastError) w called slept warned in
    FxRetry.outcome l
    = match outcome r with
      | inl v => inl v
      | inr e => inr (normalised asError failed e)
      end
    /\ FxRetry.world l = world r
    /\ FxRetry.attempts l = attempts r
    /\ FxRetry.waits l = waits r
    /\ length (FxRetry.warnings l)
       = (length warned + (attempts r - called)
          - (match outcome r with inl _ => 1 | inr _ => 0 end))%nat.
Proof.
  induction fuel as [|fuel IH];
    intros attempt delay lastError failed w called slept warned; simpl.
  - repeat split; lia.
  - destruct (attempt <=? 3)%nat; simpl; [|repeat split; lia].
    destruct (operation w) as [[v|error] w']; simpl; [repeat split; lia|].
    destruct (attempt =? 3)%nat; simpl.
    + repeat split. rewrite length_app. simpl. lia.
    + specialize (IH (S attempt) (Qmin (delay * 2) 5000) (Some error) failed
                     w' (S called) (slept ++ [delay])
                     (warned ++ [(attempt, asError error)])).
      simpl in IH. destruct IH as (Ho & Hw & Ha & Hs & Hl).
      repeat split; try assumption.
      rewrite Hl, length_app. simpl.
      pose proof (RetryFacts.retry_loop_attempts operation RETRY_CONFIG fuel
                    (S attempt) (Qmin (delay * 2) 5000) (Some error) w'
                    (S called) (slept ++ [delay])) as Hb.
      simpl in Hb.
      destruct (outcome _); lia.
Qed.

(** X5.  [withRetry] is [retry] under [RETRY_CONFIG]: it makes the same
    calls, waits for the same delays and leaves the same world; it
    returns what [retry] returns and throws what [retry] throws, made an
    [Error]; and it logs one warning for every call that failed. *)
Theorem withRetry_is_retry (failed : E) (w : W) :
  let r := retry operation RETRY_CONFIG w in
  let l := FxRetry.withRetry operation asError failed w in
  FxRetry.outcome l
  = match outcome r with
    | inl v => inl v
    | inr e => inr (normalised asError failed e)
    end
  /\ FxRetry.world l = world r
  /\ FxRetry.attempts l = attempts r
  /\ FxRetry.waits l = waits r
  /\ length (FxRetry.warnings l)
     = (attempts r - (match outcome r with inl _ => 1 | inr _ => 0 end))%nat.
Proof.
  intros r l.
  destruct (withRetry_loop_retry_loop 3 1 1000 None failed w 0 [] [])
    as (Ho & Hw & Ha & Hs & Hl).
  repeat split; [exact Ho|exact Hw|exact Ha|exact Hs|].
  etransitivity; [exact Hl|]. subst r.
  change (retry operation RETRY_CONFIG w)
    with (retry_loop operation RETRY_CONFIG 3 1 1000 None w 0 []).
  generalize (retry_loop operation RETRY_CONFIG 3 1 1000 None w 0 []).
  intros x. simpl length. destruct (outcome x); lia.
Qed.
End Loop.

End WithRetryProperties.

(* ===================================================================== *)
(** * The fallback table: what an update leaves alone, and its refresh *)
(* ===================================================================== *)

Module FallbackTableProperties.
Import FallbackRatesConfig RateSourceInterface FallbackRatesService.
Import FallbackFacts NumberFacts Notions.

Lemma base_rates_positive (a b : string) row q :
  BASE_FALLBACK_RATES !! a = Some row -> row !! b = Some q -> (0 < q)%Q.
Proof.
  assert (H : map_Forall (fun _ (row : gmap string Q) =>
                map_Forall (fun _ q => Qltb 0 q = true) row)
                BASE_FALLBACK_RATES).
  { refine (bool_decide_unpack _ _). vm_compute. exact I. }
  intros Ha Hb. apply Qltb_lt. exact (H a row Ha b q Hb).
Qed.

Lemma positive_initial now : positive_table (initializeFallbackRates now).
Proof.
  intros a b inner r Ha Hb. unfold initializeFallbackRates in Ha.
  rewrite lookup_fmap in Ha. apply fmap_Some in Ha as (row & Hrow & ->).
  rewrite lookup_fmap in Hb. apply fmap_Some in Hb as (q & Hq & ->).
  simpl. eapply base_rates_positive; eassumption.
Qed.

Lemma positive_set_entry t a b v :
  positive_table t -> (0 < FallbackRatesConfig.rate v)%Q -> positive_table (set_entry t a b v).
Proof.
  intros Hp Hv a' b' inner r Hi Hr. unfold set_entry in Hi.
  apply lookup_insert_Some in Hi as [[_ <-]|[_ Hi]].
  - apply lookup_insert_Some in Hr as [[_ <-]|[_ Hr]]; [exact Hv|].
    destruct (t !! code a) as [old|] eqn:E; simpl in Hr.
    + eapply Hp; eassumption.
    + rewrite lookup_empty in Hr. discriminate.
  - eapply Hp; eassumption.
Qed.

Lemma positive_getRate t a b : positive_table t -> (0 < getRate t a b)%Q.
Proof.
  intros Hp. unfold getRate.
  destruct (entry t a b) as [r|] eqn:E.
  - unfold entry in E. destruct (t !! code a) as [inner|] eqn:Ea; [|discriminate].
    simpl in E. eapply Hp; eassumption.
  - destruct a, b; reflexivity.
Qed.

Section Clock.
Variable clock : nat -> Z.

Lemma positive_updateRate A B R s :
  positive_table (fallbackRates s) ->
  positive_table (fallbackRates (updateRate clock A B R s)).
Proof.
  intros Hp. unfold updateRate.
  destruct (isValidRate R) eqn:Hv; simpl; [|exact Hp].
  apply isValidRate_bounds in Hv as [Hpos _].
  apply positive_set_entry; [apply positive_set_entry; assumption|].
  simpl. unfold Qdiv. rewrite Qmult_1_l. by apply Qinv_lt_0_compat.
Qed.

Lemma positive_apply_rates rates :
  forall s, positive_table (fallbackRates s) ->
            positive_table (fallbackRates (fold_left (apply_rate clock) rates s)).
Proof.
  induction rates as [|r rates IH]; intros s Hp; [exact Hp|].
  simpl. apply IH. unfold apply_rate.
  destruct (isValidRate _); [by apply positive_updateRate|exact Hp].
Qed.

(** The state a cycle leaves is the one it found, or what the rates of
    one of the sources make of it. *)
Lemma sources_loop_state sources :
  forall lastError s,
    snd (sources_loop clock sources lastError s) = s
    \/ exists src rates,
         In src sources /\ getRates src = inl rates
         /\ snd (sources_loop clock sources lastError s)
            = fold_left (apply_rate clock) rates s.
Proof.
  induction sources as [|src rest IH]; intros lastError s; simpl.
  - by left.
  - assert (Hrest : forall e,
              snd (sources_loop clock rest e s) = s
              \/ exists src0 rates,
                   (src = src0 \/ In src0 rest) /\ getRates src0 = inl rates
                   /\ snd (sources_loop clock rest e s)
                      = fold_left (apply_rate clock) rates s).
    { intros e. destruct (IH e s) as [H|(src0 & rates & Hin & Hg & H)];
        [by left|right]. exists src0, rates. by repeat split; [right|..]. }
    destruct (isAvailable src) as [[|]|error]; [|apply Hrest..].
    destruct (getRates src) as [rates|error] eqn:Hg; [|apply Hrest].
    right. exists src, rates. repeat split; [by left|exact Hg].
Qed.

Lemma fetchLatestRates_state sources s :
  snd (fetchLatestRates clock sources s)
  = snd (sources_loop clock sources None s).
Proof.
  unfold fetchLatestRates.
  by destruct (sources_loop clock sources None s) as [[[|] e] s'].
Qed.

Lemma fetchLatestRates_failed sources s e :
  fst (fetchLatestRates clock sources s) = inr e ->
  snd (fetchLatestRates clock sources s) = s.
Proof.
  intros H. rewrite fetchLatestRates_state.
  apply sources_loop_failed. unfold fetchLatestRates in H.
  destruct (sources_loop clock sources None s) as [[[|] e'] s']; simpl in *;
    [discriminate|reflexivity].
Qed.

Lemma entry_updateRate_other A B R s A' B' :
  (A', B') <> (A, B) -> (A', B') <> (B, A) ->
  entry (fallbackRates (updateRate clock A B R s)) A' B'
  = entry (fallbackRates s) A' B'.
Proof.
  intros H1 H2. unfold updateRate.
  destruct (isValidRate R); simpl; [|reflexivity].
  by rewrite !entry_set_entry_ne.
Qed.

Lemma entry_apply_rates_other rates A' B' :
  ~ touched rates A' B' ->
  forall s, entry (fallbackRates (fold_left (apply_rate clock) rates s)) A' B'
            = entry (fallbackRates s) A' B'.
Proof.
  induction rates as [|r rates IH]; intros Hn s; [reflexivity|].
  simpl. rewrite IH.
  - unfold apply_rate. destruct (isValidRate _); [|reflexivity].
    apply entry_updateRate_other; intros Heq; apply Hn; exists r;
      (split; [by left|]); [by left|by right].
  - intros (r' & Hin & Hr'). apply Hn. exists r'. split; [by right|exact Hr'].
Qed.

(** X6.  [updateRate] rejects a rate that does not validate and leaves
    the service as it was; an accepted update writes the two entries
    (A, B) and (B, A) and no other: every other pair keeps its entry,
    and so its rate, and the clock is read exactly twice. *)
Theorem updateRate_frame (A B : Currency) (R : Q) (s : State) :
  (isValidRate R = false -> updateRate clock A B R s = s)
  /\ (isValidRate R = true ->
      dates (updateRate clock A B R s) = S (S (dates s)))
  /\ (forall A' B' : Currency,
        (A', B') <> (A, B) -> (A', B') <> (B, A) ->
        entry (fallbackRates (updateRate clock A B R s)) A' B'
        = entry (fallbackRates s) A' B'
        /\ getRate (fallbackRates (updateRate clock A B R s)) A' B'
           = getRate (fallbackRates s) A' B').
Proof.
  split; [apply updateRate_invalid|]. split.
  - intros Hv. unfold updateRate. by rewrite Hv.
  - intros A' B' H1 H2.
    pose proof (entry_updateRate_other A B R s A' B' H1 H2) as He.
    split; [exact He|]. unfold getRate. by rewrite He.
Qed.

(** X7.  A refresh cycle changes only the pairs that the rates of its
    sources name, in either direction: a pair that no source lists
    keeps its entry and its rate, whether the cycle succeeds or
    throws. *)
Theorem fetchLatestRates_frame (sources : list RateSource) (s : State)
    (A B : Currency) :
  (forall src rates, In src sources -> getRates src = inl rates ->
                     ~ touched rates A B) ->
  entry (fallbackRates (snd (fetchLatestRates clock sources s))) A B
  = entry (fallbackRates s) A B
  /\ getRate (fallbackRates (snd (fetchLatestRates clock sources s))) A B
     = getRate (fallbackRates s) A B.
Proof.
  intros Hn.
  assert (He : entry (fallbackRates (snd (fetchLatestRates clock sources s))) A B
               = entry (fallbackRates s) A B).
  { rewrite fetchLatestRates_state.
    destruct (sources_loop_state sources None s)
      as [->|(src & rates & Hin & Hg & ->)]; [reflexivity|].
    apply entry_apply_rates_other. by eapply Hn. }
  split; [exact He|]. unfold getRate. by rewrite He.
Qed.

(** X8.  Every rate of the table is above zero, and stays so: the
    initial table holds positive rates only, [updateRate] and a whole
    refresh cycle keep a table of positive rates one, and [getRate] on
    such a table returns a rate above zero for every pair. *)
Theorem rates_stay_positive :
  (forall now, positive_table (initializeFallbackRates now))
  /\ (forall A B R s,
        positive_table (fallbackRates s) ->
        positive_table (fallbackRates (updateRate clock A B R s)))
  /\ (forall sources s,
        positive_table (fallbackRates s) ->
        positive_table (fallbackRates (snd (fetchLatestRates clock sources s))))
  /\ (forall t a b, positive_table t -> (0 < getRate t a b)%Q).
Proof.
  split; [exact positive_initial|]. split; [exact positive_updateRate|].
  split; [|exact positive_getRate].
  intros sources s Hp. rewrite fetchLatestRates_state.
  destruct (sources_loop_state sources None s)
    as [->|(src & rates & _ & _ & ->)]; [exact Hp|].
  by apply positive_apply_rates.
Qed.

(** X9.  The inverse that [updateRate] stores is not validated: an
    accepted rate of at most one millionth leaves, in the entry (B, A),
    a rate of at least a million, which [isValidRate] itself refuses. *)
Theorem inverse_not_validated (A B : Currency) (R : Q) (s : State) :
  isValidRate R = true -> (R <= 1 / 1000000)%Q ->
  exists stored,
    entry (fallbackRates (updateRate clock A B R s)) B A = Some stored
    /\ (1000000 <= FallbackRatesConfig.rate stored)%Q
    /\ isValidRate (FallbackRatesConfig.rate stored) = false.
Proof.
  intros Hv Hsmall.
  exists (mkFallbackRate (1 / R) (clock (S (dates s)))).
  assert (Hbig : (1000000 <= 1 / R)%Q).
  { apply isValidRate_bounds in Hv as [Hpos _].
    apply Qle_shift_div_l; [exact Hpos|].
    destruct R as [n d]. unfold Qle, Qlt in *. simpl in *. lia. }
  split; [|split; [exact Hbig|]].
  - unfold updateRate. rewrite Hv. simpl. apply entry_set_entry_eq.
  - simpl. unfold isValidRate. apply andb_false_iff. right.
    by apply Qltb_ge.
Qed.
End Clock.

Lemma fetchLatestRates_frame_witness :
  entry (fallbackRates (snd (fetchLatestRates Samples.clock0
                               [Samples.fixer_source] Samples.table0))) GBP NGN
  = entry (fallbackRates Samples.table0) GBP NGN.
Proof.
  refine (proj1 (fetchLatestRates_frame Samples.clock0 [Samples.fixer_source]
                   Samples.table0 GBP NGN _)).
  intros src rates [<-|[]] Hg (r & Hin & Hr).
  vm_compute in Hg. injection Hg as <-.
  repeat (destruct Hin as [<-|Hin]; [vm_compute in Hr; destruct Hr as [Hr|Hr]; discriminate Hr|]).
  destruct Hin.
Defined.

Lemma inverse_not_validated_witness :
  exists stored,
    entry (fallbackRates (updateRate Samples.clock0 USD NGN (1 / 2000000)
                            Samples.table0)) NGN USD = Some stored
    /\ (1000000 <= FallbackRatesConfig.rate stored)%Q
    /\ isValidRate (FallbackRatesConfig.rate stored) = false.
Proof.
  apply (inverse_not_validated Samples.clock0 USD NGN (1 / 2000000)
           Samples.table0); [reflexivity|].
  unfold Qle. simpl. lia.
Defined.

End FallbackTableProperties.

(* ===================================================================== *)
(** * The hourly refresh of the fallback table *)
(* ===================================================================== *)

Module RefreshProperties.
Import FallbackRatesConfig RateSourceInterface FallbackRatesService.
Import FallbackRatesRefresh FallbackFacts NumberFacts Notions.
Import FallbackTableProperties.

Lemma areRatesStale_threshold now t :
  areRatesStale now t = true <-> (now - t > 3600000)%Z.
Proof.
  unfold areRatesStale, MAX_FALLBACK_RATE_AGE. rewrite Qltb_lt.
  unfold Qlt. simpl. lia.
Qed.

Section Clock.
Variable clock : nat -> Z.

Lemma stale_scan_dates table order :
  forall dates,
    (dates <= snd (stale_scan clock table order dates)
     <= dates + length order)%nat.
Proof.
  induction order as [|[a b] rest IH]; intros dates; simpl; [lia|].
  destruct (table !! a ≫= _) as [r|].
  - destruct (areRatesStale _ _); simpl; [lia|].
    specialize (IH (S dates)). lia.
  - specialize (IH dates). lia.
Qed.

Lemma stale_scan_fresh table order :
  forall dates,
    all_fresh clock dates table ->
    fst (stale_scan clock table order dates) = false.
Proof.
  induction order as [|[a b] rest IH]; intros dates Hf; simpl; [reflexivity|].
  destruct (table !! a ≫= _) as [r|] eqn:Hr; [|by apply IH].
  destruct (table !! a) as [inner|] eqn:Ha; [|discriminate]. simpl in Hr.
  destruct (areRatesStale _ _) eqn:Hs.
  - apply areRatesStale_threshold in Hs.
    specialize (Hf a b inner r dates Ha Hr). lia.
  - apply IH. intros a' b' inner' r' j Ha' Hb' Hj.
    apply (Hf a' b' inner' r' j Ha' Hb'). lia.
Qed.

Lemma stale_scan_stale table order a b inner r :
  table !! a = Some inner -> inner !! b = Some r ->
  In (a, b) order ->
  forall dates,
    (forall j, (dates <= j)%nat -> (clock j - lastUpdated r > 3600000)%Z) ->
    fst (stale_scan clock table order dates) = true.
Proof.
  intros Ha Hb. induction order as [|[a' b'] rest IH]; intros Hin dates Hst;
    [destruct Hin|]. simpl.
  destruct Hin as [[= -> ->]|Hin].
  - rewrite Ha. simpl. rewrite Hb.
    assert (areRatesStale (clock dates) (lastUpdated r) = true) as ->;
      [|reflexivity].
    apply areRatesStale_threshold. apply Hst. lia.
  - destruct (table !! a' ≫= _) as [r'|].
    + destruct (areRatesStale _ _); [reflexivity|].
      apply IH; [exact Hin|]. intros j Hj. apply Hst. lia.
    + by apply IH.
Qed.

Variable sources : nat -> list RateSource.

Lemma cycle_failed s k e w :
  cycle clock sources (s, k) = (inr e, w) ->
  w = (s, S k) /\ fst (fetchLatestRates clock (sources k) s) = inr e.
Proof.
  unfold cycle. simpl.
  destruct (fetchLatestRates clock (sources k) s) as [r s'] eqn:E.
  intros [= -> <-].
  pose proof (fetchLatestRates_failed clock (sources k) s e) as H.
  rewrite E in H. simpl in H. by rewrite H.
Qed.

Lemma cycle_succeeded s k w :
  cycle clock sources (s, k) = (inl tt, w) ->
  w = (snd (fetchLatestRates clock (sources k) s), S k)
  /\ fst (fetchLatestRates clock (sources k) s) = inl tt.
Proof.
  unfold cycle. simpl.
  destruct (fetchLatestRates clock (sources k) s) as [r s'] eqn:E.
  by intros [= -> <-].
Qed.

(** X10.  The hourly job refreshes the table only when it finds an
    entry more than 3 600 000 ms old.  Looking for one changes no
    entry and reads the clock at most once for each pair of keys.
    When, from the first of these readings on, no entry is older than
    that, no source is consulted and the job returns at once; when some
    entry that the keys list is older, between one and three refresh
    cycles are run. *)
Theorem refresh_only_when_stale (order : list (string * string)) (s : State) :
  let checked := shouldUpdateRates clock order s in
  let run := updateRatesIfNeeded clock sources order s in
  fallbackRates (snd checked) = fallbackRates s
  /\ (dates s <= dates (snd checked) <= dates s + length order)%nat
  /\ (all_fresh clock (dates s) (fallbackRates s) ->
      run = FxRetry.mkLoggedRun (inl tt) (snd checked, 0%nat) 0 [] [])
  /\ (lists_entries order (fallbackRates s) ->
      some_stale clock (dates s) (fallbackRates s) ->
      (1 <= FxRetry.attempts run <= 3)%nat
      /\ snd (FxRetry.world run) = FxRetry.attempts run).
Proof.
  intros checked run. subst checked run.
  unfold updateRatesIfNeeded, shouldUpdateRates.
  pose proof (stale_scan_dates (fallbackRates s) order (dates s)) as Hd.
  pose proof (stale_scan_fresh (fallbackRates s) order (dates s)) as Hf.
  pose proof (fun a b inner r Ha Hb Hin =>
                stale_scan_stale (fallbackRates s) order a b inner r
                  Ha Hb Hin (dates s)) as Hs.
  destruct (stale_scan clock (fallbackRates s) order (dates s))
    as [stale dates'].
  simpl in *. split; [reflexivity|]. split; [exact Hd|]. split.
  - intros Hfresh. by rewrite (Hf Hfresh).
  - intros Hlist (a & b & inner & r & Ha & Hb & Hst).
    rewrite (Hs a b inner r Ha Hb (Hlist a b inner r Ha Hb) Hst).
    set (s1 := mkState (fallbackRates s) dates').
    unfold FxRetry.withRetry. simpl.
    destruct (cycle clock sources (s1, 0%nat)) as [[[]|e0] w0] eqn:E0; simpl.
    { apply cycle_succeeded in E0 as [-> _]. simpl. lia. }
    apply cycle_failed in E0 as [-> _].
    destruct (cycle clock sources (s1, 1%nat)) as [[[]|e1] w1] eqn:E1; simpl.
    { apply cycle_succeeded in E1 as [-> _]. simpl. lia. }
    apply cycle_failed in E1 as [-> _].
    destruct (cycle clock sources (s1, 2%nat)) as [[[]|e2] w2] eqn:E2; simpl.
    { apply cycle_succeeded in E2 as [-> _]. simpl. lia. }
    apply cycle_failed in E2 as [-> _]. simpl. lia.
Qed.

(** X11.  A refresh that runs leaves either the table it found or the
    table that one single cycle makes of it.  It runs the cycles one
    after the other on the service as the look for a stale entry left
    it, until one succeeds: when cycle [k] (of 0, 1, 2) is the first to
    succeed, the job returns after [k + 1] cycles with the result of
    that cycle; when all three throw, the job throws the error of the
    third and the service is as it was.  It waits 1000 ms after the
    first failure and 2000 ms after the second, and logs one warning
    for each cycle that threw. *)
Theorem refresh_outcome (order : list (string * string)) (s : State) :
  fst (shouldUpdateRates clock order s) = true ->
  let s1 := snd (shouldUpdateRates clock order s) in
  let run := updateRatesIfNeeded clock sources order s in
  let result k := fetchLatestRates clock (sources k) s1 in
  exists k : nat,
    (k < 3)%nat
    /\ (forall j, (j < k)%nat -> exists e, result j = (inr e, s1))
    /\ FxRetry.attempts run = S k
    /\ FxRetry.waits run = firstn k [1000; 2000]%Q
    /\ ((result k = (inl tt, fst (FxRetry.world run))
         /\ FxRetry.outcome run = inl tt
         /\ length (FxRetry.warnings run) = k)
        \/ (k = 2%nat
            /\ exists e, result 2%nat = (inr e, s1)
                         /\ FxRetry.outcome run = inr e
                         /\ fst (FxRetry.world run) = s1
                         /\ length (FxRetry.warnings run) = 3%nat)).
Proof.
  intros Hs s1 run result. subst run. unfold updateRatesIfNeeded.
  destruct (shouldUpdateRates clock order s) as [stale s1'] eqn:Hsh.
  simpl in Hs, s1. subst stale. fold s1. clear Hsh.
  assert (Hfail : forall k e w,
            cycle clock sources (s1, k) = (inr e, w) ->
            w = (s1, S k) /\ result k = (inr e, s1)).
  { intros k e w H. apply cycle_failed in H as [-> H]. split; [reflexivity|].
    subst result. simpl.
    pose proof (fetchLatestRates_failed clock (sources k) s1 e H) as Hst.
    destruct (fetchLatestRates clock (sources k) s1); simpl in *. congruence. }
  assert (Hok : forall k w,
            cycle clock sources (s1, k) = (inl tt, w) ->
            result k = (inl tt, fst w)).
  { intros k w H. apply cycle_succeeded in H as [-> H]. subst result. simpl.
    destruct (fetchLatestRates clock (sources k) s1); simpl in *. congruence. }
  unfold FxRetry.withRetry. simpl.
  destruct (cycle clock sources (s1, 0%nat)) as [[[]|e0] w0] eqn:E0; simpl.
  { exists 0%nat. split; [lia|]. split; [intros j Hj; lia|].
    repeat split. left. repeat split. by apply Hok. }
  apply Hfail in E0 as [-> R0].
  destruct (cycle clock sources (s1, 1%nat)) as [[[]|e1] w1] eqn:E1; simpl.
  { exists 1%nat. split; [lia|]. split.
    - intros j Hj. assert (j = 0)%nat as -> by lia. by exists e0.
    - repeat split. left. repeat split. by apply Hok. }
  apply Hfail in E1 as [-> R1].
  assert (Hbefore : forall j, (j < 2)%nat -> exists e, result j = (inr e, s1)).
  { intros j Hj. destruct j as [|[|j]]; [by exists e0|by exists e1|lia]. }
  destruct (cycle clock sources (s1, 2%nat)) as [[[]|e2] w2] eqn:E2; simpl.
  { exists 2%nat. split; [lia|]. split; [exact Hbefore|].
    repeat split. left. repeat split. by apply Hok. }
  apply Hfail in E2 as [-> R2].
  exists 2%nat. split; [lia|]. split; [exact Hbefore|].
  repeat split. right. split; [reflexivity|]. by exists e2.
Qed.
End Clock.

Lemma refresh_outcome_witness :
  FxRetry.attempts (updateRatesIfNeeded MoreSamples.an_hour_later
                      MoreSamples.recovering MoreSamples.base_order
                      Samples.table0) = 2%nat
  /\ FxRetry.outcome (updateRatesIfNeeded MoreSamples.an_hour_later
                        MoreSamples.recovering MoreSamples.base_order
                        Samples.table0) = inl tt.
Proof.
  destruct (refresh_outcome MoreSamples.an_hour_later MoreSamples.recovering
              MoreSamples.base_order Samples.table0)
    as (k & Hk & Hbefore & Hattempts & _ & Hout).
  - vm_compute. reflexivity.
  - assert (k = 1%nat) as ->.
    { destruct k as [|[|[|k]]]; [|reflexivity| |lia].
      - exfalso. destruct Hout as [(Hr & _)|(Hk2 & _)]; [|discriminate Hk2].
        vm_compute in Hr. discriminate Hr.
      - exfalso. destruct (Hbefore 1%nat) as [e He]; [lia|].
        vm_compute in He. discriminate He. }
    split; [exact Hattempts|].
    destruct Hout as [(_ & Ho & _)|(Hk2 & _)]; [exact Ho|discriminate Hk2].
Defined.

End RefreshProperties.

(* ===================================================================== *)
(** * The rate resolver: cache, requests and quotes *)
(* ===================================================================== *)

Module FxServiceProperties.
Import Retry FxService FxConversion Notions NumberFacts.

Section Network.
Variable network : nat -> string -> Exchange.

(** X12.  [getRates] on a base currency that is not cached sends at
    most three requests, one after the other.  The first response ends
    it: a body with a rate table is cached and returned; a body without
    one throws status 500 at once, is not retried and caches nothing.
    A rejected request is retried after 1000 ms, and a second after
    2000 ms; when all three are rejected the error of the third is
    rethrown and the cache is as it was. *)
Theorem getRates_miss (baseCurrency : string) (w : World) :
  cache w !! ("rates:" +:+ baseCurrency) = None ->
  let k := requests w in
  let run := getRates network baseCurrency w in
  (forall data,
      network k baseCurrency = Responded data ->
      run = (answer data, after_requests baseCurrency w 1 data))
  /\ (forall e0 data,
        network k baseCurrency = Rejected e0 ->
        network (S k) baseCurrency = Responded data ->
        run = (answer data, after_requests baseCurrency w 2 data))
  /\ (forall e0 e1 data,
        network k baseCurrency = Rejected e0 ->
        network (S k) baseCurrency = Rejected e1 ->
        network (S (S k)) baseCurrency = Responded data ->
        run = (answer data, after_requests baseCurrency w 3 data))
  /\ (forall e0 e1 e2,
        network k baseCurrency = Rejected e0 ->
        network (S k) baseCurrency = Rejected e1 ->
        network (S (S k)) baseCurrency = Rejected e2 ->
        run = (inr (ThrownHttp (rethrow e2)),
               after_requests baseCurrency w 3 None)).
Proof.
  intros Hmiss k run. subst run k. unfold getRates. rewrite Hmiss.
  cbv zeta. unfold after_requests.
  repeat split.
  - intros data H0.
    assert (Hrun : retry (fetch network baseCurrency) RETRY_CONFIG w
                   = mkRun (inl data)
                       (mkWorld (cache w) (S (requests w)) (slept w)) 1 []).
    { unfold retry, fetch. simpl. by rewrite H0. }
    rewrite Hrun. simpl. rewrite app_nil_r. by destruct data.
  - intros e0 data H0 H1.
    assert (Hrun : retry (fetch network baseCurrency) RETRY_CONFIG w
                   = mkRun (inl data)
                       (mkWorld (cache w) (S (S (requests w))) (slept w))
                       2 [1000%Q]).
    { unfold retry, fetch. simpl. rewrite H0. simpl. by rewrite H1. }
    rewrite Hrun. simpl. by destruct data.
  - intros e0 e1 data H0 H1 H2.
    assert (Hrun : retry (fetch network baseCurrency) RETRY_CONFIG w
                   = mkRun (inl data)
                       (mkWorld (cache w) (S (S (S (requests w)))) (slept w))
                       3 [1000; 2000]%Q).
    { unfold retry, fetch. simpl. rewrite H0. simpl. rewrite H1. simpl.
      by rewrite H2. }
    rewrite Hrun. simpl. by destruct data.
  - intros e0 e1 e2 H0 H1 H2.
    assert (Hrun : retry (fetch network baseCurrency) RETRY_CONFIG w
                   = mkRun (inr (Some e2))
                       (mkWorld (cache w) (S (S (S (requests w)))) (slept w))
                       3 [1000; 2000]%Q).
    { unfold retry, fetch. simpl. rewrite H0. simpl. rewrite H1. simpl.
      by rewrite H2. }
    by rewrite Hrun.
Qed.

Lemma fetch_cache baseCurrency w :
  cache (snd (fetch network baseCurrency w)) = cache w
  /\ requests (snd (fetch network baseCurrency w)) = S (requests w).
Proof. unfold fetch. by destruct (network _ _). Qed.

Lemma retry_fetch_cache baseCurrency fuel :
  forall attempt delay lastError w called slept,
    let run := retry_loop (fetch network baseCurrency) RETRY_CONFIG fuel
                 attempt delay lastError w called slept in
    cache (world run) = cache w
    /\ (requests w <= requests (world run) <= fuel + requests w)%nat.
Proof.
  induction fuel as [|fuel IH]; intros attempt delay lastError w called slept;
    simpl; [split; [reflexivity|lia]|].
  destruct (attempt <=? 3)%nat; simpl; [|split; [reflexivity|lia]].
  destruct (fetch_cache baseCurrency w) as [Hc Hr].
  destruct (fetch network baseCurrency w) as [[v|error] w']; simpl in *.
  - split; [exact Hc|lia].
  - destruct (attempt =? 3)%nat; simpl; [split; [exact Hc|lia]|].
    specialize (IH (S attempt) (Qmin (delay * 2) 5000) (Some error) w'
                   (S called) (slept ++ [delay])).
    simpl in IH. destruct IH as [IHc IHr]. split; [congruence|lia].
Qed.

(** X13.  [getRates] writes the cache only when it returns, and only
    under the key of its base currency: the tables cached for other
    base currencies are as they were, a call that throws leaves the
    whole cache as it was, and a table that was returned is served from
    the cache by the next call for the same base currency, whatever the
    provider would answer, without a request.  A call sends at most
    three requests. *)
Theorem getRates_cache (baseCurrency : string) (w : World) :
  let run := getRates network baseCurrency w in
  (forall other,
      other <> baseCurrency ->
      cache (snd run) !! ("rates:" +:+ other) = cache w !! ("rates:" +:+ other))
  /\ (requests w <= requests (snd run) <= 3 + requests w)%nat
  /\ match fst run with
     | inl rates =>
         forall network',
           getRates network' baseCurrency (snd run) = (inl rates, snd run)
     | inr _ => cache (snd run) = cache w
     end.
Proof.
  intros run. subst run. unfold getRates.
  destruct (cache w !! ("rates:" +:+ baseCurrency)) as [cachedRates|] eqn:Hc.
  - simpl. split; [reflexivity|]. split; [lia|].
    intros network'. by rewrite Hc.
  - cbv zeta.
    destruct (retry_fetch_cache baseCurrency 3 1 1000 None w 0 [])
      as [Hcache Hreq].
    change (retry_loop (fetch network baseCurrency) RETRY_CONFIG 3 1 1000
              None w 0 [])
      with (retry (fetch network baseCurrency) RETRY_CONFIG w) in Hcache, Hreq.
    destruct (outcome (retry (fetch network baseCurrency) RETRY_CONFIG w))
      as [[rates|]|[error|]]; simpl.
    + split; [|split; [exact Hreq|]].
      * intros other Hne. rewrite lookup_insert_ne; [by rewrite Hcache|].
        intros Heq. apply Hne. symmetry.
        by apply (inj (String.append "rates:")) in Heq.
      * intros network'. by rewrite lookup_insert_eq.
    + split; [by rewrite Hcache|]. split; [exact Hreq|exact Hcache].
    + split; [by rewrite Hcache|]. split; [exact Hreq|exact Hcache].
    + split; [by rewrite Hcache|]. split; [exact Hreq|exact Hcache].
Qed.
End Network.

Lemma getRates_miss_witness :
  getRates Samples.rate_limited "USD" Samples.cold
  = (inr (ThrownHttp (mkHttpException "Too Many Requests" 429)),
     mkWorld ∅ 3 [1000; 2000]%Q)
  /\ getRates Samples.garbled "USD" Samples.cold
     = (inr invalid_data, mkWorld ∅ 1 []).
Proof.
  destruct (getRates_miss Samples.rate_limited "USD" Samples.cold eq_refl)
    as (_ & _ & _ & H3).
  destruct (getRates_miss Samples.garbled "USD" Samples.cold eq_refl)
    as (H0 & _).
  split.
  - exact (H3 _ _ _ eq_refl eq_refl eq_refl).
  - exact (H0 None eq_refl).
Defined.

End FxServiceProperties.

(* ===================================================================== *)
(** * The ledger: the keys of the balance rows *)
(* ===================================================================== *)

Module LedgerMoreFacts.
Import UserEntity WalletEntity WalletBalanceEntity TransactionEntity Database.
Import WalletService Stated Hoare NumberFacts LedgerFacts Notions.

(** ** Keys *)

Lemma find_none_key w c rows :
  find (same_key w c) rows = None <-> ~ In (w, c) (keys rows).
Proof.
  induction rows as [|r rows IH]; simpl; [tauto|].
  destruct (same_key w c r) eqn:Hr.
  - apply same_key_spec in Hr as [<- <-]. split; [discriminate|].
    intros H. exfalso. apply H. by left.
  - rewrite IH. apply not_true_iff_false in Hr. rewrite same_key_spec in Hr.
    split.
    + intros H [[= <- <-]|Hin]; [by apply Hr|by apply H].
    + intros H Hin. apply H. by right.
Qed.

Lemma keys_upsert b rows :
  keys (upsert b rows)
  = match find (same_key (WalletBalanceEntity.walletId b) (currency b)) rows with
    | Some _ => keys rows
    | None => keys rows ++ [(WalletBalanceEntity.walletId b, currency b)]
    end.
Proof.
  induction rows as [|r rows IH]; simpl; [reflexivity|].
  destruct (same_key _ _ r) eqn:Hr; simpl.
  - apply same_key_spec in Hr as [Hw Hc]. by rewrite Hw, Hc.
  - rewrite IH. by destruct (find _ rows).
Qed.

Lemma keys_ensure w c rows :
  keys (snd (ensure w c rows))
  = match find (same_key w c) rows with
    | Some _ => keys rows
    | None => keys rows ++ [(w, c)]
    end.
Proof.
  unfold ensure. destruct (find (same_key w c) rows) as [b|] eqn:Hf; simpl.
  - reflexivity.
  - rewrite keys_upsert. simpl. by rewrite Hf.
Qed.

Lemma extends_refl ks : extends ks ks.
Proof. split; [reflexivity|tauto]. Qed.

Lemma extends_trans ks1 ks2 ks3 :
  extends ks1 ks2 -> extends ks2 ks3 -> extends ks1 ks3.
Proof. intros [H1 N1] [H2 N2]. split; [by etrans|tauto]. Qed.

Lemma extends_upsert b rows : extends (keys rows) (keys (upsert b rows)).
Proof.
  rewrite keys_upsert.
  destruct (find _ rows) as [b'|] eqn:Hf; [apply extends_refl|].
  split; [by eexists|]. intros Hnd.
  apply NoDup_app. split; [exact Hnd|]. split; [|apply NoDup_singleton].
  intros k Hk Hin. apply list_elem_of_singleton in Hin as ->.
  apply find_none_key in Hf. apply Hf. by apply list_elem_of_In.
Qed.

Lemma extends_ensure w c rows : extends (keys rows) (keys (snd (ensure w c rows))).
Proof.
  unfold ensure. destruct (find (same_key w c) rows); simpl;
    [apply extends_refl|apply extends_upsert].
Qed.

Lemma extends_fund_rows w c amount rows :
  extends (keys rows) (keys (fund_rows w c amount rows)).
Proof.
  unfold fund_rows. cbv zeta.
  eapply extends_trans; [apply extends_ensure|apply extends_upsert].
Qed.

Lemma extends_move_rows w1 c1 w2 c2 out into rows :
  extends (keys rows) (keys (move_rows w1 c1 w2 c2 out into rows)).
Proof.
  unfold move_rows. cbv zeta.
  eapply extends_trans; [apply extends_ensure|].
  eapply extends_trans; [apply extends_ensure|].
  eapply extends_trans; apply extends_upsert.
Qed.

Lemma length_keys rows : length (keys rows) = length rows.
Proof. apply length_map. Qed.

Lemma length_upsert b rows :
  (length rows <= length (upsert b rows) <= S (length rows))%nat.
Proof.
  induction rows as [|r rows IH]; simpl; [lia|].
  destruct (same_key _ _ r); simpl; lia.
Qed.

Lemma length_ensure w c rows :
  (length rows <= length (snd (ensure w c rows)) <= S (length rows))%nat.
Proof.
  unfold ensure. destruct (find (same_key w c) rows); simpl; [lia|].
  apply length_upsert.
Qed.

Lemma In_keys_extends ks ks' k : extends ks ks' -> In k ks -> In k ks'.
Proof. intros [[rest ->] _] Hin. apply in_or_app. by left. Qed.

Lemma In_keys_ensure w c rows : In (w, c) (keys (snd (ensure w c rows))).
Proof.
  pose proof (find_ensure w c rows) as Hf.
  apply find_same_key in Hf as (Hin & Hw & Hc).
  unfold keys. apply in_map_iff. exists (fst (ensure w c rows)).
  by rewrite Hw, Hc.
Qed.

Lemma length_upsert_present b rows :
  In (WalletBalanceEntity.walletId b, currency b) (keys rows) ->
  length (upsert b rows) = length rows.
Proof.
  intros Hin. pose proof (keys_upsert b rows) as H.
  destruct (find _ rows) as [b'|] eqn:Hf.
  - by rewrite <- !length_keys, H.
  - by apply find_none_key in Hf.
Qed.

Lemma length_fund_rows w c amount rows :
  (length rows <= length (fund_rows w c amount rows) <= S (length rows))%nat.
Proof.
  unfold fund_rows. cbv zeta.
  destruct (ensure_key w c rows) as [Hw Hc].
  rewrite length_upsert_present
    by (simpl; rewrite Hw, Hc; apply In_keys_ensure).
  apply length_ensure.
Qed.

Lemma length_move_rows w1 c1 w2 c2 out into rows :
  (length rows <= length (move_rows w1 c1 w2 c2 out into rows)
   <= S (S (length rows)))%nat.
Proof.
  unfold move_rows. cbv zeta.
  set (e1 := ensure w1 c1 rows). set (e2 := ensure w2 c2 (snd e1)).
  destruct (ensure_key w1 c1 rows) as [Hw1 Hc1]. fold e1 in Hw1, Hc1.
  destruct (ensure_key w2 c2 (snd e1)) as [Hw2 Hc2]. fold e2 in Hw2, Hc2.
  pose proof (length_ensure w1 c1 rows) as L1. fold e1 in L1.
  pose proof (length_ensure w2 c2 (snd e1)) as L2. fold e2 in L2.
  rewrite length_upsert_present.
  - rewrite length_upsert_present; [lia|].
    simpl. rewrite Hw1, Hc1.
    apply (In_keys_extends (keys (snd e1))); [apply extends_ensure|].
    apply In_keys_ensure.
  - simpl. rewrite Hw2, Hc2.
    apply (In_keys_extends (keys (snd e2))); [apply extends_upsert|].
    apply In_keys_ensure.
Qed.

(** ** Users and wallets *)

Lemma eligible_users db db' u :
  users db' = users db -> eligible db u -> eligible db' u.
Proof. unfold eligible. by intros ->. Qed.

Lemma wallet_of_wallets db db' u :
  wallets db' = wallets db -> wallet_of db' u = wallet_of db u.
Proof. unfold wallet_of. by intros ->. Qed.

End LedgerMoreFacts.

(* ===================================================================== *)
(** * The wallet service: refusals and the keys of the rows *)
(* ===================================================================== *)

Module WalletProperties.
Import UserEntity WalletEntity WalletBalanceEntity TransactionEntity Database.
Import WalletService Stated Hoare NumberFacts LedgerFacts TxLogic.
Import OperationFacts ResultFacts Notions LedgerMoreFacts.

Lemma initial_Before db x : Before db [] x (initial db x).
Proof. by split. Qed.

Lemma never_fails : ~ may_fail no_faults.
Proof. intros [k Hk]. discriminate Hk. Qed.

(** What a request leaves committed, whichever database calls fail. *)
Lemma perform_committed faults network op db x :
  let run := perform faults network op (initial db x) in
  match fst run with
  | inr _ => committed (snd run) = db
  | inl tx =>
      eligible db (actor op)
      /\ TransactionEntity.userId tx = actor op
      /\ status tx = COMPLETED
      /\ exists rows',
           committed (snd run)
           = mkDb (users db) (wallets db) rows' (transactions db ++ [tx])
           /\ match op with
              | Fund u a c _ =>
                  exists wallet,
                    wallet_of db u = Some wallet
                    /\ rows' = fund_rows (WalletEntity.id wallet) c a
                                 (walletBalances db)
                    /\ type tx = FUNDING /\ amount tx = a
                    /\ fromCurrency tx = c /\ toCurrency tx = c
                    /\ convertedAmount tx = a
              | Transfer f t a c _ =>
                  exists fromWallet toWallet,
                    wallet_of db f = Some fromWallet
                    /\ wallet_of db t = Some toWallet
                    /\ f <> t
                    /\ rows' = move_rows (WalletEntity.id fromWallet) c
                                 (WalletEntity.id toWallet) c a a
                                 (walletBalances db)
                    /\ type tx = TRANSFER
              | Trade u f t a =>
                  exists wallet r,
                    wallet_of db u = Some wallet
                    /\ f <> t
                    /\ rows' = move_rows (WalletEntity.id wallet) f
                                 (WalletEntity.id wallet) t a (a * r)
                                 (walletBalances db)
                    /\ type tx = TRADE /\ amount tx = a
                    /\ fromCurrency tx = f /\ toCurrency tx = t
                    /\ convertedAmount tx = (a * r)%Q
              end
  end.
Proof.
  intros run. subst run.
  destruct (perform faults network op (initial db x)) as [r s'] eqn:Hrun.
  destruct op as [u a c ref|f t a c d|u f t a]; simpl in Hrun; simpl.
  - pose proof (wp_run _ _ _ _ _
      (fundWallet_run faults u a c ref db x _ (initial_Before db x)) Hrun) as H.
    cbv beta in H. destruct H as [_ H]. destruct r as [tx|e]; [|exact H].
    destruct H as (wallet & He & Ha & Hw & -> & Hc & _).
    repeat split; [exact He|]. eexists. split; [exact Hc|].
    exists wallet. by repeat split.
  - pose proof (wp_run _ _ _ _ _
      (transferFunds_run faults f t a c d db x _ (initial_Before db x)) Hrun) as H.
    cbv beta in H. destruct H as [_ H]. destruct r as [tx|e]; [|exact H].
    destruct H as (fw & tw & He & Hne & Ha & Hf & Ht & Hav & -> & Hc & _).
    repeat split; [exact He|]. eexists. split; [exact Hc|].
    exists fw, tw. by repeat split.
  - pose proof (wp_run _ _ _ _ _
      (executeTrade_run faults network u f t a db x _ (initial_Before db x))
      Hrun) as H.
    cbv beta in H. destruct H as [_ H]. destruct r as [tx|e]; [|exact H].
    destruct H as (wallet & rd & rate & He & Hne & Ha & Hw & Hr & Hrate & Hnz
                   & Hav & -> & Hc & _).
    repeat split; [exact He|]. eexists. split; [exact Hc|].
    exists wallet, rate. by repeat split.
Qed.

(** X16.  A request in the name of a user who does not exist, or whose
    e-mail is not verified, is refused before anything else is looked
    at: it throws status 403, or the error of the one database call it
    makes, opens no transaction, takes no lock, asks for no rate and
    leaves the database as it was. *)
Theorem ineligible_rejected faults network op db x :
  ~ eligible db (actor op) ->
  let run := perform faults network op (initial db x) in
  fst run = (if faults 0%nat then inr database_error
             else inr (ThrownHttp (mkHttpException
                                     "User not verified or not found"
                                     FORBIDDEN)))
  /\ snd run = mkTx db db 1 [] x.
Proof.
  intros Hno run. subst run.
  assert (Hcheck : checkUserVerified faults (actor op) (initial db x)
                   = (if faults 0%nat then inr database_error
                      else inr (ThrownHttp (mkHttpException
                                              "User not verified or not found"
                                              FORBIDDEN)),
                      mkTx db db 1 [] x)).
  { unfold checkUserVerified, findOneUser, bind, dbCall, initial. simpl.
    destruct (faults 0%nat); [reflexivity|]. cbn [committed].
    destruct (find (fun u => String.eqb (UserEntity.id u) (actor op)) (users db))
      as [u|] eqn:Hf; [|reflexivity].
    destruct (isEmailVerified u) eqn:Hv; [|reflexivity].
    exfalso. apply Hno. by exists u. }
  assert (Hrun : perform faults network op (initial db x)
                 = (if faults 0%nat then inr database_error
                    else inr (ThrownHttp (mkHttpException
                                            "User not verified or not found"
                                            FORBIDDEN)),
                    mkTx db db 1 [] x)).
  { destruct op as [u a c ref|f t a c d|u f t a]; simpl in *;
      unfold fundWallet, transferFunds, executeTrade;
      unfold bind at 1; rewrite Hcheck; by destruct (faults 0%nat). }
  by rewrite Hrun.
Qed.

Lemma ineligible_rejected_witness :
  fst (perform no_faults Samples.offline (Transfer "u3" "u1" 10 USD "")
         (initial Samples.db0 Samples.cold))
  = inr (ThrownHttp (mkHttpException "User not verified or not found" FORBIDDEN))
  /\ snd (perform no_faults Samples.offline (Transfer "u3" "u1" 10 USD "")
            (initial Samples.db0 Samples.cold))
     = mkTx Samples.db0 Samples.db0 1 [] Samples.cold.
Proof.
  apply (ineligible_rejected no_faults Samples.offline
           (Transfer "u3" "u1" 10 USD "") Samples.db0 Samples.cold).
  intros (u & Hf & Hv). vm_compute in Hf. injection Hf as <-. discriminate Hv.
Defined.

(** X18.  A request keeps every balance row in its place and adds rows at
    the end only, at most one for a funding and two for a transfer or a
    trade: the keys (wallet, currency) of the rows before are a prefix
    of the keys after, and when they were distinct before they are
    distinct after, so no wallet gets two balances of one currency. *)
Theorem balance_keys_kept faults network op db x :
  let run := perform faults network op (initial db x) in
  let rows := walletBalances db in
  let rows' := walletBalances (committed (snd run)) in
  keys rows `prefix_of` keys rows'
  /\ (NoDup (keys rows) -> NoDup (keys rows'))
  /\ (length rows <= length rows'
      <= length rows + (match op with Fund _ _ _ _ => 1 | _ => 2 end))%nat.
Proof.
  intros run rows rows'.
  pose proof (perform_committed faults network op db x) as H.
  cbv zeta in H. fold run in H. subst rows rows'.
  destruct (fst run) as [tx|e].
  - destruct H as (_ & _ & _ & rows' & -> & Hop). simpl.
    destruct op as [u a c ref|f t a c d|u f t a].
    + destruct Hop as (wallet & _ & -> & _).
      destruct (extends_fund_rows (WalletEntity.id wallet) c a
                  (walletBalances db)) as [Hp Hn].
      pose proof (length_fund_rows (WalletEntity.id wallet) c a
                    (walletBalances db)).
      repeat split; [exact Hp|exact Hn|lia..].
    + destruct Hop as (fw & tw & _ & _ & _ & -> & _).
      destruct (extends_move_rows (WalletEntity.id fw) c (WalletEntity.id tw) c
                  a a (walletBalances db)) as [Hp Hn].
      pose proof (length_move_rows (WalletEntity.id fw) c (WalletEntity.id tw) c
                    a a (walletBalances db)).
      repeat split; [exact Hp|exact Hn|lia..].
    + destruct Hop as (wallet & r & _ & _ & -> & _).
      destruct (extends_move_rows (WalletEntity.id wallet) f
                  (WalletEntity.id wallet) t a (a * r) (walletBalances db))
        as [Hp Hn].
      pose proof (length_move_rows (WalletEntity.id wallet) f
                    (WalletEntity.id wallet) t a (a * r) (walletBalances db)).
      repeat split; [exact Hp|exact Hn|lia..].
  - rewrite H. repeat split; [reflexivity|tauto|lia|destruct op; lia].
Qed.

End WalletProperties.

(* ===================================================================== *)
(** * Quotes and the two queries of the wallet service *)
(* ===================================================================== *)

Module QueryProperties.
Import UserEntity WalletEntity WalletBalanceEntity TransactionEntity Database.
Import WalletService WalletQueries Stated Hoare NumberFacts LedgerFacts TxLogic.
Import OperationFacts ResultFacts Notions LedgerMoreFacts.

(** ** Quotes *)

(** X14.  A quote and a trade agree on the rate, and differ on a rate
    they cannot use.  For an eligible user with a wallet, on a database
    whose calls succeed and from the same state of the FX service: when
    [convertCurrency] quotes a rate that is not zero and the wallet can
    afford the amount, the trade returns an entry with the rate and the
    converted amount of the quote; when it quotes the rate zero, the
    quote converts to zero and the trade throws status 503; when the
    table lacks the target currency, the quote throws status 400 and the
    trade status 503; and whatever [getRates] throws, both throw. *)
Theorem quote_and_trade network db x userId fromCurrency toCurrency amount wallet :
  eligible db userId ->
  wallet_of db userId = Some wallet ->
  fromCurrency <> toCurrency ->
  (0 < amount)%Q ->
  let quote := fst (FxConversion.convertCurrency network (code fromCurrency)
                      (code toCurrency) amount x) in
  let run := executeTrade no_faults network userId fromCurrency toCurrency
               amount (initial db x) in
  let unavailable :=
    ThrownHttp (mkHttpException
      ("Exchange rate not available for " +:+ code fromCurrency
       +:+ " to " +:+ code toCurrency) SERVICE_UNAVAILABLE) in
  (forall q,
      quote = inl q -> ~ (FxConversion.rate q == 0)%Q ->
      (amount <= availableBalance
                   (row_at (WalletEntity.id wallet) fromCurrency
                      (walletBalances db)))%Q ->
      exists tx,
        fst run = inl tx
        /\ TransactionEntity.amount tx = FxConversion.amount q
        /\ TransactionEntity.rate tx = FxConversion.rate q
        /\ TransactionEntity.convertedAmount tx = FxConversion.convertedAmount q)
  /\ (forall q,
        quote = inl q -> (FxConversion.rate q == 0)%Q ->
        (FxConversion.convertedAmount q == 0)%Q
        /\ fst run = inr unavailable /\ committed (snd run) = db)
  /\ (forall ratesData,
        fst (FxService.getRates network (code fromCurrency) x) = inl ratesData ->
        FxService.rates ratesData !! code toCurrency = None ->
        quote = inr (ThrownHttp (mkHttpException
                       ("Exchange rate not available for " +:+ code toCurrency)
                       BAD_REQUEST))
        /\ fst run = inr unavailable /\ committed (snd run) = db)
  /\ (forall thrown,
        fst (FxService.getRates network (code fromCurrency) x) = inr thrown ->
        quote = inr thrown
        /\ (exists e, fst run = inr e) /\ committed (snd run) = db).
Proof.
  intros Heligible Hwallet Hne Hamount quote run unavailable.
  pose proof (executeTrade_result no_faults network
                WalletProperties.never_fails userId fromCurrency toCurrency
                amount db x _ (WalletProperties.initial_Before db x) Heligible)
    as H.
  unfold wp in H. fold run in H. cbv zeta in H.
  rewrite bool_decide_eq_false_2 in H by exact Hne.
  apply Qleb_gt in Hamount. rewrite Hamount, Hwallet in H.
  subst quote. unfold FxConversion.convertCurrency.
  destruct (FxService.getRates network (code fromCurrency) x)
    as [[ratesData|thrown] x1]; simpl in H |- *.
  - destruct (FxService.rates ratesData !! code toCurrency) as [r|] eqn:Hr;
      simpl.
    + split; [|split; [|split]].
      * intros q [= <-] Hnz Hfunds. simpl in *.
        apply Qis_zero_false in Hnz. rewrite Hnz in H.
        apply Qltb_ge in Hfunds. unfold row_at in Hfunds.
        rewrite Hfunds in H. destruct H as [Hrun _].
        eexists. split; [exact Hrun|]. by repeat split.
      * intros q [= <-] Hz. simpl in *.
        assert (Qis_zero r = true) as Hzb.
        { destruct (Qis_zero r) eqn:E; [reflexivity|].
          apply Qis_zero_false in E. contradiction. }
        rewrite Hzb in H. split; [|exact H].
        rewrite Hz. ring.
      * intros rd [= <-] Hnone. congruence.
      * intros thrown Ht. discriminate Ht.
    + split; [|split; [|split]].
      * intros q Hq. discriminate Hq.
      * intros q Hq. discriminate Hq.
      * intros rd [= <-] _. by split.
      * intros thrown Ht. discriminate Ht.
  - split; [|split; [|split]].
    + intros q Hq. discriminate Hq.
    + intros q Hq. discriminate Hq.
    + intros rd Hrd. discriminate Hrd.
    + intros t [= <-]. split; [reflexivity|].
      destruct thrown as [e|msg]; destruct H as [Hr Hc]; split;
        try exact Hc; eexists; exact Hr.
Qed.

Lemma quote_and_trade_witness :
  exists tx,
    fst (executeTrade no_faults Samples.offline "u1" USD EUR 100
           (initial Samples.db0 (Samples.cached 0.85)))
    = inl tx
    /\ TransactionEntity.rate tx = 0.85%Q.
Proof.
  destruct (quote_and_trade Samples.offline Samples.db0 (Samples.cached 0.85)
              "u1" USD EUR 100 (mkWallet "w1" "u1")) as (H & _).
  - by exists (mkUser "u1" true).
  - reflexivity.
  - discriminate.
  - reflexivity.
  - destruct (H (FxConversion.mkConversion 100 0.85 (100 * 0.85)))
      as (tx & Hr & _ & Hrate & _).
    + reflexivity.
    + simpl. discriminate.
    + vm_compute. discriminate.
    + exists tx. split; [exact Hr|exact Hrate].
Defined.

(** ** The balances of a wallet *)

Lemma wp_catch_rollback_all {A} (body : M A) failure s
    (Q : A + Thrown -> Tx -> Prop) :
  wp body s (fun r s1 =>
    match r with
    | inl a => Q (inl a) s1
    | inr _ =>
        Q (inr (ThrownHttp (mkHttpException failure INTERNAL_SERVER_ERROR)))
          (rollbackTransaction s1)
    end) ->
  wp (catch_rollback_all body failure) s Q.
Proof. unfold wp, catch_rollback_all. by destruct (body s) as [[a|e] s1]. Qed.

Lemma filter_wallet_find w c rows :
  rows_of w rows = [] ->
  find (same_key w c) rows = None.
Proof.
  unfold rows_of. induction rows as [|r rows IH]; simpl; [reflexivity|].
  unfold same_key at 1.
  destruct (String.eqb (WalletBalanceEntity.walletId r) w); [discriminate|].
  simpl. exact IH.
Qed.

Lemma upsert_absent b rows :
  find (same_key (WalletBalanceEntity.walletId b) (currency b)) rows = None ->
  upsert b rows = rows ++ [b].
Proof.
  induction rows as [|r rows IH]; simpl; [reflexivity|].
  destruct (same_key _ _ r); [discriminate|]. intros H. by rewrite IH.
Qed.

Lemma rows_of_app w rows b :
  rows_of w (rows ++ [b])
  = rows_of w rows
    ++ (if String.eqb (WalletBalanceEntity.walletId b) w then [b] else []).
Proof. unfold rows_of. rewrite List.filter_app. reflexivity. Qed.

Section Loaded.
Variable loaded : list WalletBalance -> list WalletBalance.
(** The database returns the rows of the relation, each once, in an
    order of its own, which it keeps as long as the rows are the
    same. *)
Hypothesis Hloaded : forall rows, Permutation (loaded rows) rows.

Lemma loaded_nil : loaded [] = [].
Proof. apply Permutation_nil. symmetry. apply Hloaded. Qed.

Lemma loaded_one b : loaded [b] = [b].
Proof. apply Permutation_length_1_inv. symmetry. apply Hloaded. Qed.

Lemma loaded_is_nil rows : loaded rows = [] -> rows = [].
Proof.
  intros H. apply Permutation_nil. rewrite <- H. apply Hloaded.
Qed.

Lemma wp_findOneWalletWithBalances faults userId c h x s
    (Q : option (Wallet * list WalletBalance) + Thrown -> Tx -> Prop) :
  Before c h x s ->
  (forall s', Before c h x s' ->
     (may_fail faults -> Q (inr database_error) s')
     /\ Q (inl (match wallet_of c userId with
                | Some w =>
                    Some (w, loaded (rows_of (WalletEntity.id w)
                                       (walletBalances c)))
                | None => None
                end)) s') ->
  wp (findOneWalletWithBalances faults loaded userId) s Q.
Proof.
  intros [Hc Hh Hx] H. unfold findOneWalletWithBalances.
  apply wp_bind, wp_dbCall.
  intros s' Hc' _ Hh' Hx'. destruct (H s') as [He Hok]; [split; congruence|].
  split; [exact He|]. unfold wp. simpl. by rewrite Hc', Hc.
Qed.

(** The rows of a wallet, as one call loads them. *)
Lemma getWalletBalances_run faults userId db x s :
  Before db [] x s ->
  wp (getWalletBalances faults loaded userId) s (fun r s' =>
    match r with
    | inr e =>
        committed s' = db
        /\ (may_fail faults
            \/ (~ eligible db userId
                /\ e = ThrownHttp (mkHttpException
                                     "User not verified or not found"
                                     FORBIDDEN))
            \/ (wallet_of db userId = None
                /\ e = ThrownHttp (mkHttpException "Wallet not found"
                                     NOT_FOUND)))
    | inl balances =>
        eligible db userId
        /\ exists wallet,
             wallet_of db userId = Some wallet
             /\ balances <> []
             /\ balances = loaded (rows_of (WalletEntity.id wallet)
                                     (walletBalances (committed s')))
             /\ (committed s' = db
                 \/ (rows_of (WalletEntity.id wallet) (walletBalances db) = []
                     /\ committed s'
                        = mkDb (users db) (wallets db)
                            (walletBalances db
                             ++ [mkWalletBalance (WalletEntity.id wallet) NGN
                                   0 0 0])
                            (transactions db)))
    end).
Proof.
  intros Hb. unfold getWalletBalances.
  apply wp_bind. eapply wp_checkUserVerified; [eassumption| | |].
  { intros s1 [Hc _ _] Hf. split; [exact Hc|by left]. }
  { intros s1 [Hc _ _] Hno. split; [exact Hc|]. right. left. by split. }
  intros s1 Hb1 Heligible.
  apply wp_bind. eapply wp_findOneWalletWithBalances; [eassumption|].
  intros s2 Hb2. split.
  { intros Hf. destruct Hb2. split; [assumption|by left]. }
  destruct (wallet_of db userId) as [wallet|] eqn:Hwallet.
  2:{ apply wp_throw. destruct Hb2. split; [assumption|]. right. right.
      by split. }
  set (mine := rows_of (WalletEntity.id wallet) (walletBalances db)).
  destruct (length (loaded mine) =? 0)%nat eqn:Hlen.
  - apply Nat.eqb_eq, length_zero_iff_nil, loaded_is_nil in Hlen.
    apply wp_bind. eapply wp_connect; [eassumption|].
    intros s3 Hb3. split.
    { intros Hf. destruct Hb3. split; [assumption|by left]. }
    apply wp_bind. eapply wp_startTransaction; [eassumption| |].
    { intros s4 Hb4 Hf. destruct Hb4. split; [assumption|by left]. }
    intros s4 Hat4. apply wp_catch_rollback_all.
    apply wp_bind. eapply wp_getOrCreateBalance; [eassumption| |].
    { intros s5 Hat5 Hf. destruct Hat5. split; [assumption|by left]. }
    intros s5 Hat5.
    apply wp_bind. eapply wp_commitTransaction; [eassumption| |].
    { intros s6 Hat6 Hf. destruct Hat6. split; [assumption|by left]. }
    intros s6 [Hc6 _ _]. apply wp_ret.
    pose proof (filter_wallet_find (WalletEntity.id wallet) NGN
                  (walletBalances db) Hlen) as Hfind.
    assert (Hensure : ensure (WalletEntity.id wallet) NGN (walletBalances db)
                      = (mkWalletBalance (WalletEntity.id wallet) NGN 0 0 0,
                         walletBalances db
                         ++ [mkWalletBalance (WalletEntity.id wallet) NGN
                               0 0 0])).
    { unfold ensure. rewrite Hfind. by rewrite upsert_absent. }
    rewrite Hensure in *. simpl in Hc6 |- *.
    split; [exact Heligible|]. exists wallet. split; [reflexivity|].
    split; [discriminate|]. split.
    + rewrite Hc6. simpl. rewrite rows_of_app. fold mine. rewrite Hlen.
      simpl. by rewrite String.eqb_refl, loaded_one.
    + right. by split.
  - apply wp_ret. destruct Hb2 as [Hc2 _ _].
    split; [exact Heligible|]. exists wallet. split; [reflexivity|].
    split; [|split].
    + intros Hnil. rewrite Hnil in Hlen. discriminate Hlen.
    + by rewrite Hc2.
    + by left.
Qed.

(** X21.  [getWalletBalances], whichever database calls fail and in
    whatever order the database returns the rows of a wallet.  When it
    throws, the database is as it was, and the user is not eligible
    (status 403), has no wallet (status 404), or some database call can
    fail.  When it returns, the user is eligible and has a wallet, and
    the list returned is not empty and holds, in some order, exactly
    the balance rows of that wallet in the database as the call leaves
    it; that database is the one the call found when the wallet had a
    balance, and otherwise the one it found with one row added, a
    balance of zero NGN for the wallet.  Users, wallets and ledger are
    never changed. *)
Theorem getWalletBalances_result faults userId db x :
  let run := getWalletBalances faults loaded userId (initial db x) in
  let db' := committed (snd run) in
  match fst run with
  | inr e =>
      db' = db
      /\ (may_fail faults
          \/ (~ eligible db userId
              /\ e = ThrownHttp (mkHttpException
                                   "User not verified or not found"
                                   FORBIDDEN))
          \/ (wallet_of db userId = None
              /\ e = ThrownHttp (mkHttpException "Wallet not found"
                                   NOT_FOUND)))
  | inl balances =>
      eligible db userId
      /\ exists wallet,
           wallet_of db userId = Some wallet
           /\ balances <> []
           /\ Permutation balances
                (rows_of (WalletEntity.id wallet) (walletBalances db'))
           /\ (db' = db
               \/ (rows_of (WalletEntity.id wallet) (walletBalances db) = []
                   /\ db' = mkDb (users db) (wallets db)
                              (walletBalances db
                               ++ [mkWalletBalance (WalletEntity.id wallet)
                                     NGN 0 0 0])
                              (transactions db)))
  end.
Proof.
  intros run db'. subst db'.
  pose proof (getWalletBalances_run faults userId db x (initial db x)
                (WalletProperties.initial_Before db x)) as H.
  unfold wp in H. fold run in H.
  destruct (fst run) as [balances|e]; [|exact H].
  destruct H as (He & wallet & Hw & Hne & Hrows & Hdb).
  split; [exact He|]. exists wallet. split; [exact Hw|].
  split; [exact Hne|]. split; [|exact Hdb].
  rewrite Hrows. apply Hloaded.
Qed.

(** X23.  Reading the balances twice.  After a call of
    [getWalletBalances] that returned, a second call for the same user
    never changes the database, whichever of its database calls fail;
    when it returns it returns the list the first call returned, and it
    does return when none of its database calls fails. *)
Theorem getWalletBalances_again faults1 faults2 userId db x x' balances :
  let first := getWalletBalances faults1 loaded userId (initial db x) in
  fst first = inl balances ->
  let second := getWalletBalances faults2 loaded userId
                  (initial (committed (snd first)) x') in
  committed (snd second) = committed (snd first)
  /\ (forall again, fst second = inl again -> again = balances)
  /\ (~ may_fail faults2 -> fst second = inl balances).
Proof.
  intros first Hfirst second.
  pose proof (getWalletBalances_run faults1 userId db x (initial db x)
                (WalletProperties.initial_Before db x)) as H1.
  unfold wp in H1. fold first in H1. rewrite Hfirst in H1.
  destruct H1 as (He & wallet & Hw & Hne & Hrows & Hdb).
  set (db1 := committed (snd first)) in *.
  assert (Hu : users db1 = users db /\ wallets db1 = wallets db).
  { destruct Hdb as [->|[_ ->]]; by split. }
  destruct Hu as [Hu Hws].
  pose proof (getWalletBalances_run faults2 userId db1 x' (initial db1 x')
                (WalletProperties.initial_Before db1 x')) as H2.
  unfold wp in H2. fold second in H2.
  rewrite (wallet_of_wallets db db1) in H2 by exact Hws.
  rewrite Hw in H2.
  destruct (fst second) as [again|e].
  - destruct H2 as (_ & wallet2 & [= <-] & _ & Hagain & Hdb2).
    assert (committed (snd second) = db1) as Hsame.
    { destruct Hdb2 as [H|[Hnil _]]; [exact H|].
      exfalso. apply Hne. rewrite Hrows, Hnil. apply loaded_nil. }
    split; [exact Hsame|]. rewrite Hsame in Hagain.
    assert (again = balances) as -> by congruence.
    split; [by intros ? [= <-]|reflexivity].
  - destruct H2 as [Hc Hwhy]. split; [exact Hc|]. split; [discriminate|].
    intros Hnf. exfalso.
    destruct Hwhy as [Hf|[[Hno _]|[Hnone _]]]; [by apply Hnf| |discriminate].
    apply Hno. by apply (eligible_users db).
Qed.
End Loaded.

Lemma reversed_rows (rows : list WalletBalance) : Permutation (rev rows) rows.
Proof. symmetry. apply Permutation_rev. Qed.

Lemma getWalletBalances_again_witness :
  committed (snd (getWalletBalances (Samples.fault_at 1) (@rev WalletBalance) "u1"
                    (initial (committed (snd
                       (getWalletBalances no_faults (@rev WalletBalance) "u1"
                          (initial Samples.db0 Samples.cold)))) Samples.cold)))
  = committed (snd (getWalletBalances no_faults (@rev WalletBalance) "u1"
                      (initial Samples.db0 Samples.cold))).
Proof.
  refine (proj1 (getWalletBalances_again (@rev WalletBalance) reversed_rows
                   no_faults (Samples.fault_at 1) "u1"
                   Samples.db0 Samples.cold Samples.cold
                   [mkWalletBalance "w1" USD 1000 0 1000] _)).
  reflexivity.
Defined.

(** The balances of a wallet with two rows, returned last row first. *)
Lemma getWalletBalances_result_witness :
  exists balances,
    fst (getWalletBalances no_faults (@rev WalletBalance) "u1"
           (initial MoreSamples.db_two Samples.cold)) = inl balances
    /\ Permutation balances
         (rows_of "w1" (walletBalances MoreSamples.db_two)).
Proof.
  pose proof (getWalletBalances_result (@rev WalletBalance) reversed_rows
                no_faults "u1" MoreSamples.db_two Samples.cold) as H.
  cbv zeta in H.
  destruct (fst (getWalletBalances no_faults (@rev WalletBalance) "u1"
                   (initial MoreSamples.db_two Samples.cold)))
    as [balances|e] eqn:E; [|vm_compute in E; discriminate E].
  exists balances. split; [reflexivity|].
  destruct H as (_ & wallet & Hw & _ & Hperm & Hdb).
  injection Hw as <-.
  destruct Hdb as [Hdb|[Hnil _]]; [|vm_compute in Hnil; discriminate Hnil].
  assert (committed (snd (getWalletBalances no_faults (@rev WalletBalance) "u1"
                            (initial MoreSamples.db_two Samples.cold)))
          = MoreSamples.db_two) as Hsame by reflexivity.
  rewrite Hsame in Hperm. exact Hperm.
Defined.

End QueryProperties.

(* ===================================================================== *)
(** * The accuracy of binary64 and of the decimal columns *)
(* ===================================================================== *)

Module DoubleFacts.
Import JsNumber Columns NumberFacts.

Lemma nearest_even_error y :
  (Qabs (inject_Z (nearest_even y) - y) <= 1 # 2)%Q.
Proof.
  destruct y as [n d]. apply Qabs_Qle_condition.
  unfold nearest_even. cbn [Qnum Qden].
  pose proof (Z.div_mod n (Zpos d) ltac:(lia)) as Hdm.
  pose proof (Z.mod_pos_bound n (Zpos d) ltac:(lia)) as Hr.
  set (q := (n / Zpos d)%Z) in *. set (r := (n mod Zpos d)%Z) in *.
  assert (Hcases :
    forall k, (2 * Z.abs (k * Zpos d - n) <= Zpos d)%Z ->
              (- (1 # 2) <= inject_Z k - (n # d))%Q
              /\ (inject_Z k - (n # d) <= 1 # 2)%Q).
  { intros k Hk. unfold Qle, Qminus, Qplus, Qopp, inject_Z. simpl. lia. }
  destruct (Z.compare_spec (2 * r) (Zpos d)) as [He|Hl|Hg].
  - destruct (Z.even q); apply Hcases; lia.
  - apply Hcases; lia.
  - apply Hcases; lia.
Qed.

Lemma two_power (e : Z) : (0 <= e)%Z -> (2 ^ e == inject_Z (2 ^ e))%Q.
Proof. intros He. by rewrite Zpower_Qpower. Qed.

Lemma exponent_le x : (0 < x)%Q -> (2 ^ exponent x <= x)%Q.
Proof.
  intros Hx. unfold exponent.
  set (e := (Z.log2 (Qnum x) - Z.log2 (Zpos (Qden x)))%Z).
  destruct (Qleb (2 ^ e) x) eqn:Hle; [by apply Qleb_le|].
  destruct x as [n d]. cbn [Qnum Qden] in *.
  assert (Hn : (0 < n)%Z) by (unfold Qlt in Hx; simpl in Hx; lia).
  pose proof (Z.log2_spec n Hn) as [Hn1 _].
  pose proof (Z.log2_spec (Zpos d) ltac:(lia)) as [_ Hd2].
  pose proof (Z.log2_nonneg n) as Ha. pose proof (Z.log2_nonneg (Zpos d)) as Hb.
  replace (e - 1)%Z with (Z.log2 n - Z.succ (Z.log2 (Zpos d)))%Z by (unfold e; lia).
  rewrite Qpower_minus by discriminate.
  rewrite !two_power by lia.
  set (a := (2 ^ Z.log2 n)%Z) in *. set (b := (2 ^ Z.succ (Z.log2 (Zpos d)))%Z) in *.
  assert (Hbpos : (0 < b)%Z) by lia.
  unfold Qle, Qdiv, Qmult, Qinv, inject_Z. simpl.
  destruct b as [|b|b]; try lia. simpl. nia.
Qed.


Lemma binary64_half_ulp x :
  ~ (x == 0)%Q ->
  (Qabs (binary64 x - x)
   <= (1 # 2) * 2 ^ Z.max (exponent (Qabs x) - 52) (-1074))%Q.
Proof.
  intros Hx.
  assert (Hnz : Qis_zero x = false) by (by apply Qis_zero_false).
  unfold binary64. rewrite Hnz.
  set (ulp := (2 ^ Z.max (exponent (Qabs x) - 52) (-1074))%Q).
  assert (Hulp : (0 < ulp)%Q) by (by apply Qpower_0_lt).
  rewrite Qred_correct.
  assert (Heq : (inject_Z (nearest_even (x / ulp)) * ulp - x
                 == (inject_Z (nearest_even (x / ulp)) - x / ulp) * ulp)%Q).
  { field. intros Hz. rewrite Hz in Hulp. by apply Qlt_irrefl in Hulp. }
  rewrite Heq, Qabs_Qmult, (Qabs_pos ulp) by by apply Qlt_le_weak.
  apply Qmult_le_compat_r; [apply nearest_even_error|by apply Qlt_le_weak].
Qed.

Lemma Qabs_positive x : ~ (x == 0)%Q -> (0 < Qabs x)%Q.
Proof.
  intros Hx. destruct (Qlt_le_dec 0 (Qabs x)) as [H|H]; [exact H|].
  exfalso. apply Hx. apply Qabs_Qle_condition in H. lra.
Qed.


(** Everywhere, by that fraction and a little. *)
Lemma binary64_near x :
  (Qabs (binary64 x - x)
   <= Qabs x * (1 # 9007199254740992)
      + (1 # 1000000000000000000000000000000))%Q.
Proof.
  destruct (Qeq_dec x 0) as [Hz|Hnz].
  - unfold binary64. replace (Qis_zero x) with true.
    + rewrite Hz. by vm_compute.
    + symmetry. unfold Qis_zero. by rewrite (proj1 (Qeq_alt x 0) Hz).
  - eapply Qle_trans; [by apply binary64_half_ulp|].
    pose proof (exponent_le (Qabs x) (Qabs_positive x Hnz)) as He.
    pose proof (Qabs_positive x Hnz) as Hpos.
    destruct (Z.max_spec (exponent (Qabs x) - 52) (-1074)) as [[_ ->]|[_ ->]].
    + apply Qle_trans with (1 # 1000000000000000000000000000000)%Q;
        [by vm_compute|].
      clear He. lra.
    + replace (exponent (Qabs x) - 52)%Z with (exponent (Qabs x) + -52)%Z
        by lia.
      rewrite Qpower_plus by discriminate.
      change (2 ^ (-52))%Q with (1 # 4503599627370496)%Q.
      generalize dependent (2 ^ exponent (Qabs x))%Q. intros p Hp. lra.
Qed.

Lemma digits_reads x n k c :
  digits x n k = Some c -> (binary64 c == x)%Q.
Proof.
  unfold digits.
  set (lo := (inject_Z (Qfloor (x / 10 ^ (n - k))) * 10 ^ (n - k))%Q).
  set (hi := (inject_Z (Qfloor (x / 10 ^ (n - k)) + 1) * 10 ^ (n - k))%Q).
  destruct (Qeq_bool (binary64 lo) x) eqn:Hlo;
    destruct (Qeq_bool (binary64 hi) x) eqn:Hhi; intros [= <-].
  - apply Qeq_bool_iff in Hlo, Hhi.
    destruct (x - lo ?= hi - x)%Q; [|exact Hlo|exact Hhi].
    by destruct (Z.even _).
  - by apply Qeq_bool_iff in Hlo.
  - by apply Qeq_bool_iff in Hhi.
Qed.

Lemma shortest_reads x n fuel k :
  shortest x n fuel k = x \/ (binary64 (shortest x n fuel k) == x)%Q.
Proof.
  revert k. induction fuel as [|fuel IH]; intros k; simpl; [by left|].
  destruct (digits x n k) as [c|] eqn:Hd; [|apply IH].
  right. by apply (digits_reads x n k).
Qed.

(** The decimal that [String] prints is as near to the number as
    rounding it is. *)
Lemma toString_near x :
  (Qabs (toString x - binary64 x)
   <= Qabs (toString x) * (1 # 9007199254740992)
      + (1 # 1000000000000000000000000000000))%Q.
Proof.
  unfold toString. set (d := binary64 x).
  destruct (Qis_zero d) eqn:Hz.
  { assert (Hd : (d == 0)%Q).
    { unfold Qis_zero in Hz. apply Qeq_alt. by destruct (d ?= 0)%Q. }
    rewrite Hd. by vm_compute. }
  set (c := shortest (Qabs d) (decade (Qabs d)) 17 1).
  assert (Hc : (Qabs (c - Qabs d)
                <= Qabs c * (1 # 9007199254740992)
                   + (1 # 1000000000000000000000000000000))%Q).
  { destruct (shortest_reads (Qabs d) (decade (Qabs d)) 17 1) as [H|H];
      fold c in H.
    - rewrite H.
      assert (E : (Qabs d - Qabs d == 0)%Q) by ring. rewrite E.
      pose proof (Qabs_nonneg (Qabs d)). change (Qabs 0) with 0%Q. lra.
    - rewrite <- H at 1. rewrite Qabs_Qminus. apply binary64_near. }
  rewrite Qred_correct.
  destruct (Qltb d 0) eqn:Hs.
  - apply Qltb_lt in Hs. rewrite (Qabs_neg d) in Hc by lra.
    rewrite Qabs_opp.
    assert (E : (- c - d == - (c - - d))%Q) by ring.
    by rewrite E, Qabs_opp.
  - apply Qltb_ge in Hs. by rewrite (Qabs_pos d) in Hc.
Qed.

Lemma numeric_scaled y :
  exists k, (Columns.numeric_20_8 y == inject_Z k * (1 # 100000000))%Q.
Proof.
  unfold Columns.numeric_20_8. eexists. rewrite Qred_correct.
  unfold Qdiv. reflexivity.
Qed.

(** The column moves a value by at most half a unit of its last
    digit. *)
Lemma numeric_near y :
  (Qabs (Columns.numeric_20_8 y - y) <= 1 # 200000000)%Q.
Proof.
  unfold Columns.numeric_20_8. rewrite Qred_correct.
  pose proof (Qfloor_le (Qabs y * 100000000 + (1 # 2))) as Hlow.
  pose proof (Qlt_floor (Qabs y * 100000000 + (1 # 2))) as Hhigh.
  rewrite inject_Z_plus in Hhigh. change (inject_Z 1) with 1%Q in Hhigh.
  apply Qabs_Qle_condition. unfold Qdiv.
  change (/ 100000000)%Q with (1 # 100000000)%Q.
  destruct (Qltb y 0) eqn:Hs.
  - apply Qltb_lt in Hs.
    assert (Ha : (Qabs y == - y)%Q) by (apply Qabs_neg; lra).
    rewrite inject_Z_opp.
    generalize dependent (inject_Z (Qfloor (Qabs y * 100000000 + (1 # 2)))).
    generalize dependent (Qabs y). intros a Ha q Hlow Hhigh. lra.
  - apply Qltb_ge in Hs.
    assert (Ha : (Qabs y == y)%Q) by (by apply Qabs_pos).
    generalize dependent (inject_Z (Qfloor (Qabs y * 100000000 + (1 # 2)))).
    generalize dependent (Qabs y). intros a Ha q Hlow Hhigh. lra.
Qed.

(** Two values of eight decimals that are less than a unit of the last
    digit apart are the same. *)
Lemma scaled_close k1 k2 :
  (Qabs (inject_Z k1 * (1 # 100000000) - inject_Z k2 * (1 # 100000000))
   < 1 # 100000000)%Q ->
  k1 = k2.
Proof.
  intros H. apply Qabs_Qlt_condition in H as [H1 H2].
  assert (Hlt1 : (inject_Z k1 < inject_Z (k2 + 1))%Q).
  { rewrite inject_Z_plus. change (inject_Z 1) with 1%Q. lra. }
  assert (Hlt2 : (inject_Z k2 < inject_Z (k1 + 1))%Q).
  { rewrite inject_Z_plus. change (inject_Z 1) with 1%Q. lra. }
  rewrite <- Zlt_Qlt in Hlt1, Hlt2. lia.
Qed.

Lemma Qabs_cases x :
  ((0 <= x)%Q /\ (Qabs x == x)%Q) \/ ((x <= 0)%Q /\ (Qabs x == - x)%Q).
Proof.
  destruct (Qlt_le_dec x 0) as [H|H].
  - right. split; [lra|]. apply Qabs_neg. lra.
  - left. split; [exact H|]. by apply Qabs_pos.
Qed.

Ltac sides H :=
  let S := fresh "Hsides" in
  pose proof (proj1 (Qabs_Qle_condition _ _) H) as S.

Ltac absolute x :=
  let H1 := fresh "Hsign" in
  let H2 := fresh "Habs" in
  destruct (Qabs_cases x) as [[H1 H2]|[H1 H2]];
  generalize dependent (Qabs x); intros.

(** What a column holds of a number of moderate size is within
    0.000000006 of the number. *)
Lemma decimal_near w :
  (Qabs w <= 3000000)%Q ->
  (Qabs (Columns.decimal w - w) <= 6 # 1000000000)%Q.
Proof.
  intros Hw. unfold Columns.decimal.
  pose proof (binary64_near w) as H1.
  pose proof (toString_near w) as H2.
  pose proof (numeric_near (toString w)) as H3.
  generalize dependent (Columns.numeric_20_8 (toString w)). intros n H3.
  generalize dependent (toString w). intros t H2 H3.
  generalize dependent (binary64 w). intros d H1 H2.
  sides Hw. sides H1. sides H2. sides H3.
  apply Qabs_Qle_condition. absolute t; lra.
Qed.

Lemma eight_decimals_scaled x :
  eight_decimals x = true ->
  exists k, (x == inject_Z k * (1 # 100000000))%Q.
Proof.
  intros H. apply Qeq_bool_iff in H.
  destruct (numeric_scaled x) as [k Hk]. exists k. by rewrite <- H.
Qed.

(** A number of moderate size that is within 0.000000003 of a value of
    eight decimals is stored as that value. *)
Lemma decimal_exact w v :
  eight_decimals v = true ->
  (Qabs w <= 3000000)%Q ->
  (Qabs (w - v) <= 3 # 1000000000)%Q ->
  (Columns.decimal w == v)%Q.
Proof.
  intros Hv Hw Hnear.
  destruct (eight_decimals_scaled v Hv) as [k Hk].
  destruct (numeric_scaled (toString w)) as [k' Hk'].
  fold (Columns.decimal w) in Hk'.
  pose proof (decimal_near w Hw) as Hd.
  assert (k' = k) as ->; [|by rewrite Hk', Hk].
  apply scaled_close. rewrite <- Hk', <- Hk.
  generalize dependent (Columns.decimal w). intros n _ Hd.
  clear Hk Hv. sides Hd. sides Hnear. apply Qabs_Qlt_condition. lra.
Qed.

Lemma eight_decimals_plus a b :
  eight_decimals a = true -> eight_decimals b = true ->
  eight_decimals (a + b) = true.
Proof.
  intros Ha Hb.
  destruct (eight_decimals_scaled a Ha) as [ka Hka].
  destruct (eight_decimals_scaled b Hb) as [kb Hkb].
  apply Qeq_bool_iff.
  destruct (numeric_scaled (a + b)) as [k Hk].
  assert (k = (ka + kb)%Z) as ->.
  { apply scaled_close. rewrite <- Hk, inject_Z_plus.
    pose proof (numeric_near (a + b)) as Hn.
    generalize dependent (Columns.numeric_20_8 (a + b)). intros n _ Hn.
    apply Qabs_Qlt_condition.
    generalize dependent (inject_Z ka). generalize dependent (inject_Z kb).
    intros qb Hqb qa Hqa. clear Ha Hb.
    absolute (n - (a + b))%Q; lra. }
  rewrite Hk, inject_Z_plus, Hka, Hkb. ring.
Qed.

Lemma eight_decimals_opp a :
  eight_decimals a = true -> eight_decimals (- a) = true.
Proof.
  intros Ha.
  destruct (eight_decimals_scaled a Ha) as [ka Hka].
  apply Qeq_bool_iff.
  destruct (numeric_scaled (- a)) as [k Hk].
  assert (k = (- ka)%Z) as ->.
  { apply scaled_close. rewrite <- Hk, inject_Z_opp.
    pose proof (numeric_near (- a)) as Hn.
    generalize dependent (Columns.numeric_20_8 (- a)). intros n _ Hn.
    apply Qabs_Qlt_condition.
    generalize dependent (inject_Z ka). intros qa Hqa. clear Ha.
    absolute (n - - a)%Q; lra. }
  rewrite Hk, inject_Z_opp, Hka. ring.
Qed.

(** Sums and differences of values of eight decimals up to a million
    are stored exactly. *)
Lemma add_exact b a :
  eight_decimals b = true -> eight_decimals a = true ->
  (Qabs b <= 1000000)%Q -> (Qabs a <= 1000000)%Q ->
  (Columns.decimal (add (Number b) (Number a)) == b + a)%Q.
Proof.
  intros Hb Ha Hbb Hab. unfold add, Number.
  pose proof (binary64_near b) as H1. pose proof (binary64_near a) as H2.
  pose proof (binary64_near (binary64 b + binary64 a)) as H3.
  generalize dependent (binary64 (binary64 b + binary64 a)). intros w H3.
  generalize dependent (binary64 b). intros fb H1 H3.
  generalize dependent (binary64 a). intros fa H2 H3.
  apply decimal_exact; [by apply eight_decimals_plus| |].
  - clear Ha Hb. sides Hbb. sides Hab. sides H1. sides H2. sides H3.
    apply Qabs_Qle_condition. absolute (fb + fa)%Q; lra.
  - clear Ha Hb. sides Hbb. sides Hab. sides H1. sides H2. sides H3.
    apply Qabs_Qle_condition. absolute (fb + fa)%Q; lra.
Qed.

Lemma sub_exact b a :
  eight_decimals b = true -> eight_decimals a = true ->
  (Qabs b <= 1000000)%Q -> (Qabs a <= 1000000)%Q ->
  (Columns.decimal (sub (Number b) (Number a)) == b - a)%Q.
Proof.
  intros Hb Ha Hbb Hab. unfold sub, Number.
  pose proof (binary64_near b) as H1. pose proof (binary64_near a) as H2.
  pose proof (binary64_near (binary64 b - binary64 a)) as H3.
  generalize dependent (binary64 (binary64 b - binary64 a)). intros w H3.
  generalize dependent (binary64 b). intros fb H1 H3.
  generalize dependent (binary64 a). intros fa H2 H3.
  apply decimal_exact;
    [by apply eight_decimals_plus; [|apply eight_decimals_opp]| |].
  - clear Ha Hb. sides Hbb. sides Hab. sides H1. sides H2. sides H3.
    apply Qabs_Qle_condition. absolute (fb - fa)%Q; lra.
  - clear Ha Hb. sides Hbb. sides Hab. sides H1. sides H2. sides H3.
    apply Qabs_Qle_condition. absolute (fb - fa)%Q; lra.
Qed.

(** A balance credited with a product is stored within 0.000000007 of
    the exact sum. *)
Lemma credit_product_near b a r :
  (Qabs b <= 1000000)%Q -> (Qabs a <= 1000000)%Q ->
  (Qabs r <= 1000000)%Q -> (Qabs (a * r) <= 1000000)%Q ->
  (Qabs (Columns.decimal (add (Number b) (mul (Number a) r)) - (b + a * r))
   <= 7 # 1000000000)%Q.
Proof.
  intros Hb Ha Hr Har. unfold add, mul, Number.
  pose proof (binary64_near b) as H1. pose proof (binary64_near a) as H2.
  assert (Hp : (Qabs (binary64 a * r - a * r)
                <= Qabs (a * r) * (1 # 9007199254740992)
                   + (1 # 1000000000000000000000000000000) * Qabs r)%Q).
  { assert (E : (binary64 a * r - a * r == (binary64 a - a) * r)%Q) by ring.
    rewrite E, Qabs_Qmult, (Qabs_Qmult a r).
    eapply Qle_trans;
      [apply Qmult_le_compat_r; [exact H2|apply Qabs_nonneg]|].
    apply Qle_lteq. right. ring. }
  pose proof (binary64_near (binary64 a * r)) as H3.
  generalize dependent (binary64 a). intros fa H2 Hp H3.
  generalize dependent (binary64 (fa * r)). intros fp H3.
  generalize dependent (fa * r)%Q. intros p Hp H3.
  generalize dependent (a * r)%Q. intros ar Har Hp.
  pose proof (binary64_near (binary64 b + fp)) as H4.
  generalize dependent (binary64 b). intros fb H1 H4.
  sides Hb. sides Har. sides Hr. sides H1. sides H3. sides Hp.
  assert (Hw : (Qabs (binary64 (fb + fp)) <= 3000000)%Q).
  { generalize dependent (binary64 (fb + fp)). intros w H4. sides H4.
    apply Qabs_Qle_condition. absolute (fb + fp)%Q; absolute p; lra. }
  pose proof (decimal_near _ Hw) as H5.
  generalize dependent (Columns.decimal (binary64 (fb + fp))). intros n H5.
  generalize dependent (binary64 (fb + fp)). intros w H4 Hw H5.
  sides H4. sides H5.
  apply Qabs_Qle_condition. absolute (fb + fp)%Q; absolute p; lra.
Qed.

End DoubleFacts.

(* ===================================================================== *)
(** * The operations on doubles and decimal columns, run by run *)
(* ===================================================================== *)

Module LedgerLogic.
Import UserEntity WalletEntity WalletBalanceEntity TransactionEntity Database.
Import WalletService Stated Hoare NumberFacts LedgerFacts TxLogic Notions.
Import JsNumber Columns.

Lemma decimal_0 : decimal 0 = 0%Q.
Proof. reflexivity. Qed.

Lemma balance_row_zero w c :
  balance_row (mkWalletBalance w c 0 0 0) = mkWalletBalance w c 0 0 0.
Proof. reflexivity. Qed.

Lemma balance_row_key b :
  WalletBalanceEntity.walletId (balance_row b) = WalletBalanceEntity.walletId b
  /\ currency (balance_row b) = currency b
  /\ lockedBalance (balance_row b) = lockedBalance b.
Proof. by repeat split. Qed.

(** A run that failed leaves the committed database alone. *)
Ltac aborted :=
  unfold database_error; simpl;
  lazymatch goal with
  | H : At _ _ _ _ _ ?s |- committed ?s = _ =>
      exact (at_committed _ _ _ _ _ _ H)
  | H : Before _ _ _ ?s |- committed ?s = _ =>
      exact (before_committed _ _ _ _ H)
  end.

Ltac no_fault :=
  lazymatch goal with
  | Hnf : ~ may_fail _ |- _ => intros; exfalso; by apply Hnf
  end.

Ltac thrown :=
  unfold http; apply wp_throw; simpl;
  lazymatch goal with
  | H : At _ _ _ _ _ ?s |- _ /\ committed ?s = _ =>
      split; [reflexivity|exact (at_committed _ _ _ _ _ _ H)]
  | H : Before _ _ _ ?s |- _ /\ committed ?s = _ =>
      split; [reflexivity|exact (before_committed _ _ _ _ H)]
  end.

Section Faults.
Variable faults : nat -> bool.
Variable network : nat -> string -> FxService.Exchange.

Lemma wp_saveBalances bs c rows txs h x s (Q : unit + Thrown -> Tx -> Prop) :
  At c rows txs h x s ->
  (forall s', At c rows txs h x s' -> may_fail faults ->
              Q (inr database_error) s') ->
  (forall s', At c (fold_left (fun rows b => upsert (balance_row b) rows)
                      bs rows) txs h x s' ->
              Q (inl tt) s') ->
  wp (WalletLedger.saveBalances faults bs) s Q.
Proof.
  intros [Hc Hu Hw Hr Ht Hh Hx] He Hok. unfold WalletLedger.saveBalances.
  apply wp_bind, wp_dbCall. intros s' Hc' Hw' Hh' Hx'.
  split; [apply He; split; congruence|]. unfold wp. simpl.
  apply Hok. split; simpl; congruence.
Qed.

Lemma wp_saveTransaction_row t c rows txs h x s
    (Q : Transaction + Thrown -> Tx -> Prop) :
  At c rows txs h x s ->
  (forall s', At c rows txs h x s' -> may_fail faults ->
              Q (inr database_error) s') ->
  (forall s', At c rows (txs ++ [transaction_row t]) h x s' -> Q (inl t) s') ->
  wp (WalletLedger.saveTransaction faults t) s Q.
Proof.
  intros [Hc Hu Hw Hr Ht Hh Hx] He Hok. unfold WalletLedger.saveTransaction.
  apply wp_bind, wp_dbCall. intros s' Hc' Hw' Hh' Hx'.
  split; [apply He; split; congruence|]. unfold wp. simpl.
  apply Hok. split; simpl; congruence.
Qed.

Lemma wp_getOrCreateBalance_row walletId currency c rows txs h x s
    (Q : WalletBalance + Thrown -> Tx -> Prop) :
  At c rows txs h x s ->
  (forall s', At c rows txs h x s' -> may_fail faults ->
              Q (inr database_error) s') ->
  (forall s', At c (snd (ensure walletId currency rows)) txs
                (h ++ [HoldBalance walletId currency]) x s' ->
              Q (inl (fst (ensure walletId currency rows))) s') ->
  wp (WalletLedger.getOrCreateBalance faults walletId currency) s Q.
Proof.
  intros Hat He Hok. unfold WalletLedger.getOrCreateBalance, findOneBalance.
  apply wp_bind, wp_bind, wp_dbCall. intros s1 Hc1 Hw1 Hh1 Hx1.
  assert (At c rows txs h x s1) as Hat1.
  { destruct Hat. split; congruence. }
  split; [by apply He|]. unfold wp at 1.
  destruct Hat1 as [Hc Hu Hw Hr Ht Hh Hx].
  unfold ensure in Hok. rewrite Hr.
  destruct (find (same_key walletId currency) rows) as [b|] eqn:Hf; simpl.
  - apply wp_ret. apply Hok. split; simpl; congruence.
  - apply wp_bind. eapply wp_saveBalances.
    + split; eassumption.
    + intros s2 Hat2. by apply He.
    + intros s2 [Hc2 Hu2 Hw2 Hr2 Ht2 Hh2 Hx2]. unfold wp. simpl.
      apply Hok. cbn [fold_left] in Hr2. rewrite balance_row_zero in Hr2.
      split; simpl; congruence.
Qed.

(** ** Whichever database calls fail *)

Lemma fundWallet_rows userId amount currency reference db x s :
  Before db [] x s ->
  wp (WalletLedger.fundWallet faults userId amount currency reference) s
    (fun r s' =>
    match r with
    | inr _ => committed s' = db
    | inl tx =>
        exists wallet,
          eligible db userId /\ (0 < amount)%Q
          /\ wallet_of db userId = Some wallet
          /\ tx = mkTransaction userId (WalletEntity.id wallet) FUNDING
                    COMPLETED amount currency currency 1 amount
                    (Some reference) (WalletFundedWith amount currency)
          /\ committed s'
             = mkDb (users db) (wallets db)
                 (funded_rows (WalletEntity.id wallet) currency amount
                    (walletBalances db))
                 (transactions db ++ [transaction_row tx])
    end).
Proof.
  intros Hb. unfold WalletLedger.fundWallet.
  apply wp_bind. eapply wp_checkUserVerified; [eassumption| | |].
  { intros s1 Hb1 _. aborted. }
  { intros s1 Hb1 _. aborted. }
  intros s1 Hb1 Heligible.
  destruct (Qleb amount 0) eqn:Hamount.
  { apply wp_throw. aborted. }
  apply Qleb_gt in Hamount.
  apply wp_bind. eapply wp_connect; [eassumption|].
  intros s2 Hb2. split; [intros _; aborted|].
  apply wp_bind. eapply wp_startTransaction; [eassumption| |].
  { intros s3 Hb3 _. aborted. }
  intros s3 Hat3. apply wp_catch_rollback.
  apply wp_bind. eapply wp_findOneWallet; [eassumption| | |].
  { intros s4 Hat4 _. aborted. }
  { intros s4 Hat4 Hnone. apply wp_throw. aborted. }
  intros wallet s4 Hat4 Hwallet.
  apply wp_bind. eapply wp_getOrCreateBalance_row; [eassumption| |].
  { intros s5 Hat5 _. aborted. }
  intros s5 Hat5.
  apply wp_bind. eapply wp_saveBalances; [eassumption| |].
  { intros s6 Hat6 _. aborted. }
  intros s6 Hat6.
  apply wp_bind. eapply wp_saveTransaction_row; [eassumption| |].
  { intros s7 Hat7 _. aborted. }
  intros s7 Hat7.
  apply wp_bind. eapply wp_commitTransaction; [eassumption| |].
  { intros s8 Hat8 _. aborted. }
  intros s8 [Hc8 Hh8 _]. apply wp_ret.
  exists wallet. by repeat split.
Qed.

Lemma transferFunds_rows fromUserId toUserId amount currency description
    db x s :
  Before db [] x s ->
  wp (WalletLedger.transferFunds faults fromUserId toUserId amount currency
        description) s
    (fun r s' =>
    match r with
    | inr _ => committed s' = db
    | inl tx =>
        exists fromWallet toWallet,
          eligible db fromUserId /\ fromUserId <> toUserId
          /\ (0 < amount)%Q
          /\ wallet_of db fromUserId = Some fromWallet
          /\ wallet_of db toUserId = Some toWallet
          /\ tx = mkTransaction fromUserId (WalletEntity.id fromWallet)
                    TRANSFER COMPLETED amount currency currency 1 amount
                    None
                    (Text (if String.eqb description ""
                           then "Transfer to user " +:+ toUserId
                           else description))
          /\ committed s'
             = mkDb (users db) (wallets db)
                 (moved_rows (WalletEntity.id fromWallet) currency
                    (WalletEntity.id toWallet) currency amount amount
                    (walletBalances db))
                 (transactions db ++ [transaction_row tx])
    end).
Proof.
  intros Hb. unfold WalletLedger.transferFunds.
  apply wp_bind. eapply wp_checkUserVerified; [eassumption| | |].
  { intros s1 Hb1 _. aborted. }
  { intros s1 Hb1 _. aborted. }
  intros s1 Hb1 Heligible.
  destruct (String.eqb_spec fromUserId toUserId) as [Hsame|Hdiff].
  { apply wp_throw. aborted. }
  destruct (Qleb amount 0) eqn:Hamount.
  { apply wp_throw. aborted. }
  apply Qleb_gt in Hamount.
  apply wp_bind. eapply wp_connect; [eassumption|].
  intros s2 Hb2. split; [intros _; aborted|].
  apply wp_bind. eapply wp_startTransaction; [eassumption| |].
  { intros s3 Hb3 _. aborted. }
  intros s3 Hat3. apply wp_catch_rollback.
  apply wp_bind. eapply wp_findOneWallet; [eassumption| | |].
  { intros s4 Hat4 _. aborted. }
  { intros s4 Hat4 Hnone.
    apply wp_bind. eapply wp_findOneWallet; [eassumption| | |].
    - intros s5 Hat5 _. aborted.
    - intros s5 Hat5 Hnone'. apply wp_throw. aborted.
    - intros toWallet s5 Hat5 Hto. apply wp_throw. aborted. }
  intros fromWallet s4 Hat4 Hfrom.
  apply wp_bind. eapply wp_findOneWallet; [eassumption| | |].
  { intros s5 Hat5 _. aborted. }
  { intros s5 Hat5 Hnone. apply wp_throw. aborted. }
  intros toWallet s5 Hat5 Hto.
  apply wp_bind. eapply wp_getOrCreateBalance_row; [eassumption| |].
  { intros s6 Hat6 _. aborted. }
  intros s6 Hat6.
  apply wp_bind. eapply wp_getOrCreateBalance_row; [eassumption| |].
  { intros s7 Hat7 _. aborted. }
  intros s7 Hat7.
  destruct (Qltb _ amount) eqn:Hfunds.
  { apply wp_throw. aborted. }
  apply wp_bind. eapply wp_saveBalances; [eassumption| |].
  { intros s8 Hat8 _. aborted. }
  intros s8 Hat8.
  apply wp_bind. eapply wp_saveTransaction_row; [eassumption| |].
  { intros s10 Hat10 _. aborted. }
  intros s10 Hat10.
  apply wp_bind. eapply wp_commitTransaction; [eassumption| |].
  { intros s11 Hat11 _. aborted. }
  intros s11 [Hc11 Hh11 _]. apply wp_ret.
  exists fromWallet, toWallet. by repeat split.
Qed.

Lemma executeTrade_rows userId fromCurrency toCurrency amount db x s :
  Before db [] x s ->
  wp (WalletLedger.executeTrade faults network userId fromCurrency toCurrency
        amount) s
    (fun r s' =>
    match r with
    | inr _ => committed s' = db
    | inl tx =>
        exists wallet ratesData rate,
          eligible db userId /\ fromCurrency <> toCurrency
          /\ (0 < amount)%Q
          /\ wallet_of db userId = Some wallet
          /\ fst (FxService.getRates network (code fromCurrency) x)
             = inl ratesData
          /\ FxService.rates ratesData !! code toCurrency = Some rate
          /\ ~ (rate == 0)%Q
          /\ tx = mkTransaction userId (WalletEntity.id wallet) TRADE
                    COMPLETED amount fromCurrency toCurrency rate
                    (mul amount rate) None
                    (TradeFor amount fromCurrency (mul amount rate)
                       toCurrency rate)
          /\ committed s'
             = mkDb (users db) (wallets db)
                 (moved_rows (WalletEntity.id wallet) fromCurrency
                    (WalletEntity.id wallet) toCurrency amount
                    (mul amount rate) (walletBalances db))
                 (transactions db ++ [transaction_row tx])
    end).
Proof.
  intros Hb. unfold WalletLedger.executeTrade.
  apply wp_bind. eapply wp_checkUserVerified; [eassumption| | |].
  { intros s1 Hb1 _. aborted. }
  { intros s1 Hb1 _. aborted. }
  intros s1 Hb1 Heligible.
  destruct (bool_decide_reflect (fromCurrency = toCurrency)) as [Hsame|Hdiff].
  { apply wp_throw. aborted. }
  destruct (Qleb amount 0) eqn:Hamount.
  { apply wp_throw. aborted. }
  apply Qleb_gt in Hamount.
  apply wp_bind. eapply wp_connect; [eassumption|].
  intros s2 Hb2. split; [intros _; aborted|].
  apply wp_bind. eapply wp_startTransaction; [eassumption| |].
  { intros s3 Hb3 _. aborted. }
  intros s3 Hat3. apply wp_catch_rollback.
  apply wp_bind. eapply wp_findOneWallet; [eassumption| | |].
  { intros s4 Hat4 _. aborted. }
  { intros s4 Hat4 Hnone. apply wp_throw. aborted. }
  intros wallet s4 Hat4 Hwallet.
  apply wp_bind. eapply wp_fxGetRates; [eassumption|].
  intros s5 Hat5.
  destruct (fst (FxService.getRates network (code fromCurrency) x))
    as [ratesData|[e|msg]] eqn:Hrates; [|aborted..].
  destruct (FxService.rates ratesData !! code toCurrency) as [rate|] eqn:Hrate.
  2:{ apply wp_throw. aborted. }
  destruct (Qis_zero rate) eqn:Hzero.
  { apply wp_throw. aborted. }
  apply Qis_zero_false in Hzero.
  apply wp_bind. eapply wp_getOrCreateBalance_row; [eassumption| |].
  { intros s6 Hat6 _. aborted. }
  intros s6 Hat6.
  apply wp_bind. eapply wp_getOrCreateBalance_row; [eassumption| |].
  { intros s7 Hat7 _. aborted. }
  intros s7 Hat7.
  destruct (Qltb _ amount) eqn:Hfunds.
  { apply wp_throw. aborted. }
  apply wp_bind. eapply wp_saveBalances; [eassumption| |].
  { intros s8 Hat8 _. aborted. }
  intros s8 Hat8.
  apply wp_bind. eapply wp_saveTransaction_row; [eassumption| |].
  { intros s10 Hat10 _. aborted. }
  intros s10 Hat10.
  apply wp_bind. eapply wp_commitTransaction; [eassumption| |].
  { intros s11 Hat11 _. aborted. }
  intros s11 [Hc11 Hh11 _]. apply wp_ret.
  exists wallet, ratesData, rate. by repeat split.
Qed.

(** ** On a database whose calls succeed *)

Hypothesis Hnf : ~ may_fail faults.

Lemma fundWallet_stores userId amount currency reference db x s :
  Before db [] x s -> eligible db userId ->
  wp (WalletLedger.fundWallet faults userId amount currency reference) s
    (fun r s' =>
    if Qleb amount 0 then
      r = inr (ThrownHttp (mkHttpException "Funding amount must be positive"
                             BAD_REQUEST))
      /\ committed s' = db
    else
      match wallet_of db userId with
      | None =>
          r = inr (ThrownHttp (mkHttpException "Wallet not found" NOT_FOUND))
          /\ committed s' = db
      | Some wallet =>
          let tx := mkTransaction userId (WalletEntity.id wallet) FUNDING
                      COMPLETED amount currency currency 1 amount
                      (Some reference) (WalletFundedWith amount currency) in
          r = inl tx
          /\ committed s'
             = mkDb (users db) (wallets db)
                 (funded_rows (WalletEntity.id wallet) currency amount
                    (walletBalances db))
                 (transactions db ++ [transaction_row tx])
      end).
Proof.
  intros Hb Heligible. unfold WalletLedger.fundWallet.
  apply wp_bind. eapply wp_checkUserVerified; [eassumption| | |];
    [no_fault|intros; contradiction|].
  intros s1 Hb1 _.
  destruct (Qleb amount 0) eqn:Hamount; [thrown|].
  apply wp_bind. eapply wp_connect; [eassumption|].
  intros s2 Hb2. split; [no_fault|].
  apply wp_bind. eapply wp_startTransaction; [eassumption|no_fault|].
  intros s3 Hat3. apply wp_catch_rollback.
  apply wp_bind. eapply wp_findOneWallet; [eassumption|no_fault| |].
  { intros s4 Hat4 Hnone. rewrite Hnone. thrown. }
  intros wallet s4 Hat4 Hwallet. rewrite Hwallet.
  apply wp_bind. eapply wp_getOrCreateBalance_row; [eassumption|no_fault|].
  intros s5 Hat5.
  apply wp_bind. eapply wp_saveBalances; [eassumption|no_fault|].
  intros s6 Hat6.
  apply wp_bind. eapply wp_saveTransaction_row; [eassumption|no_fault|].
  intros s7 Hat7.
  apply wp_bind. eapply wp_commitTransaction; [eassumption|no_fault|].
  intros s8 [Hc8 _ _]. apply wp_ret. by split.
Qed.


End Faults.

End LedgerLogic.

(* ===================================================================== *)
(** * The rows that the operations store *)
(* ===================================================================== *)

Module StoredRows.
Import UserEntity WalletEntity WalletBalanceEntity TransactionEntity Database.
Import WalletService Stated Hoare NumberFacts LedgerFacts TxLogic Notions.
Import JsNumber Columns LedgerLogic.

Lemma initially db x : Before db [] x (initial db x).
Proof. by split. Qed.

Lemma without_faults : ~ may_fail no_faults.
Proof. intros [k Hk]. discriminate Hk. Qed.


Lemma row_at_funded_rows w c w' c' amount rows :
  row_at w c (funded_rows w' c' amount rows)
  = if decide ((w, c) = (w', c'))
    then balance_row (WalletLedger.credit amount (row_at w' c' rows))
    else row_at w c rows.
Proof.
  unfold funded_rows. cbv zeta.
  destruct (ensure_key w' c' rows) as [Hw Hc].
  destruct (decide ((w, c) = (w', c'))) as [[= -> ->]|Hne].
  - pose proof (row_at_upsert_eq
                  (balance_row (WalletLedger.credit amount
                                  (fst (ensure w' c' rows))))
                  (snd (ensure w' c' rows))) as H.
    simpl in H. rewrite Hw, Hc in H. exact H.
  - rewrite row_at_upsert_ne; [apply row_at_ensure|].
    simpl. by rewrite Hw, Hc.
Qed.


(** The sum of a currency changes by what the rows of that currency that
    were saved changed by. *)
Lemma total_in_funded_rows c w amount rows :
  (total_in c (funded_rows w c amount rows)
   == total_in c rows
      + (balance (row_at w c (funded_rows w c amount rows))
         - balance (row_at w c rows)))%Q.
Proof.
  rewrite row_at_funded_rows, decide_True by reflexivity.
  unfold funded_rows. cbv zeta.
  destruct (ensure_key w c rows) as [Hw Hc].
  rewrite total_in_upsert by exact Hc. cbn [WalletBalanceEntity.walletId balance_row WalletLedger.credit].
  rewrite Hw, row_at_ensure, total_in_ensure.
  change (fst (ensure w c rows)) with (row_at w c rows).
  cbn [balance balance_row WalletLedger.credit].
  generalize (decimal (add (Number (balance (row_at w c rows))) amount)).
  intros stored. ring.
Qed.


(** What a request leaves committed, whichever database calls fail. *)
Lemma perform_stored faults network op db x :
  let run := WalletLedger.perform faults network op (initial db x) in
  match fst run with
  | inr _ => committed (snd run) = db
  | inl tx =>
      eligible db (actor op)
      /\ TransactionEntity.userId tx = actor op
      /\ status tx = COMPLETED
      /\ exists rows',
           committed (snd run)
           = mkDb (users db) (wallets db) rows'
               (transactions db ++ [transaction_row tx])
  end.
Proof.
  intros run. subst run.
  destruct (WalletLedger.perform faults network op (initial db x))
    as [r s'] eqn:Hrun.
  destruct op as [u a c ref|f t a c d|u f t a]; simpl in Hrun; simpl.
  - pose proof (wp_run _ _ _ _ _
      (fundWallet_rows faults u a c ref db x _ (initially db x)) Hrun) as H.
    cbv beta in H. destruct r as [tx|e]; [|exact H].
    destruct H as (wallet & He & Ha & Hw & -> & Hc).
    repeat split; [exact He|]. eexists. exact Hc.
  - pose proof (wp_run _ _ _ _ _
      (transferFunds_rows faults f t a c d db x _ (initially db x)) Hrun) as H.
    cbv beta in H. destruct r as [tx|e]; [|exact H].
    destruct H as (fw & tw & He & Hne & Ha & Hf & Ht & -> & Hc).
    repeat split; [exact He|]. eexists. exact Hc.
  - pose proof (wp_run _ _ _ _ _
      (executeTrade_rows faults network u f t a db x _ (initially db x))
      Hrun) as H.
    cbv beta in H. destruct r as [tx|e]; [|exact H].
    destruct H as (wallet & rd & rate & He & Hne & Ha & Hw & Hr & Hrate & Hnz
                   & -> & Hc).
    repeat split; [exact He|]. eexists. exact Hc.
Qed.

End StoredRows.

(* ===================================================================== *)
(** * The ledger engine: the values that are stored *)
(* ===================================================================== *)

Module StoredValues.
Import UserEntity WalletEntity WalletBalanceEntity TransactionEntity Database.
Import WalletService WalletQueries Stated Hoare NumberFacts LedgerFacts TxLogic.
Import Notions LedgerMoreFacts JsNumber Columns LedgerLogic StoredRows.
Import Samples MoreSamples.








(** X15.  [fundWallet] for an eligible user, on a database whose calls
    succeed: an amount that is not positive is refused with status 400,
    a user without a wallet with status 404, and neither changes the
    database; otherwise it returns one COMPLETED entry of kind FUNDING
    with the amount, rate 1 and the reference given, that the ledger
    stores with its numbers rounded to 8 decimals; [total] and
    [available] of the balance of the wallet in the currency, created at
    zero when there was none, become the column's rounding of the double
    sum of what they were and the amount; [locked] and every other
    balance are as they were; the sum of the currency changes by what
    the stored total changed by, and no other sum changes. *)
Theorem fund_credits db x userId amount currency reference :
  eligible db userId ->
  let run := WalletLedger.fundWallet no_faults userId amount currency reference
               (initial db x) in
  let rows := walletBalances db in
  let rows' := walletBalances (committed (snd run)) in
  ((amount <= 0)%Q ->
   fst run = inr (ThrownHttp (mkHttpException "Funding amount must be positive"
                                BAD_REQUEST))
   /\ committed (snd run) = db)
  /\ ((0 < amount)%Q -> wallet_of db userId = None ->
      fst run = inr (ThrownHttp (mkHttpException "Wallet not found" NOT_FOUND))
      /\ committed (snd run) = db)
  /\ (forall wallet,
        (0 < amount)%Q -> wallet_of db userId = Some wallet ->
        let target := row_at (WalletEntity.id wallet) currency in
        exists tx,
          fst run = inl tx
          /\ balance (target rows')
             = decimal (add (Number (balance (target rows))) amount)
          /\ availableBalance (target rows')
             = decimal (add (Number (availableBalance (target rows))) amount)
          /\ lockedBalance (target rows') = lockedBalance (target rows)
          /\ (forall w c,
                (w, c) <> (WalletEntity.id wallet, currency) ->
                row_at w c rows' = row_at w c rows)
          /\ (total_in currency rows'
              == total_in currency rows
                 + (balance (target rows') - balance (target rows)))%Q
          /\ transactions (committed (snd run))
             = transactions db ++ [transaction_row tx]
          /\ tx = mkTransaction userId (WalletEntity.id wallet) FUNDING
                    COMPLETED amount currency currency 1 amount
                    (Some reference) (WalletFundedWith amount currency)).
Proof.
  intros Heligible run rows rows'.
  pose proof (fundWallet_stores no_faults without_faults userId amount currency
                reference db x _ (initially db x) Heligible) as H.
  unfold wp in H. fold run in H.
  split; [|split].
  - intros Hle. apply Qleb_le in Hle. by rewrite Hle in H.
  - intros Hpos Hnone. apply Qleb_gt in Hpos. by rewrite Hpos, Hnone in H.
  - intros wallet Hpos Hwallet target. apply Qleb_gt in Hpos.
    rewrite Hpos, Hwallet in H. destruct H as [Hr Hc].
    eexists. split; [exact Hr|].
    assert (Hsum := total_in_funded_rows currency (WalletEntity.id wallet)
                      amount (walletBalances db)).
    unfold rows', target. rewrite Hc. cbn [walletBalances transactions].
    rewrite Hsum.
    rewrite row_at_funded_rows, decide_True by reflexivity.
    repeat split; try reflexivity.
    intros w c Hne. by rewrite row_at_funded_rows, decide_False.
Qed.

Lemma fund_credits_witness :
  exists tx,
    fst (WalletLedger.fundWallet no_faults "u2" 250 EUR "ref-1"
           (initial db0 cold)) = inl tx
    /\ balance (row_at "w2" EUR
                  (walletBalances (committed (snd
                     (WalletLedger.fundWallet no_faults "u2" 250 EUR "ref-1"
                        (initial db0 cold))))))
       = 250%Q
    /\ reference tx = Some "ref-1".
Proof.
  destruct (fund_credits db0 cold "u2" 250 EUR "ref-1") as (_ & _ & H).
  - by exists (mkUser "u2" true).
  - destruct (H (mkWallet "w2" "u2"))
      as (tx & Hr & Hb & _ & _ & _ & _ & _ & Htx);
      [reflexivity|reflexivity|].
    exists tx. split; [exact Hr|]. split; [|by rewrite Htx].
    etransitivity; [exact Hb|vm_compute; reflexivity].
Defined.

(** X17.  Whichever database calls fail, a request never changes the
    users or the wallets, and never rewrites or removes a ledger entry:
    a request that throws leaves the ledger as it was, and one that
    returns has appended exactly one row, the entry it returns with its
    amount, rate and converted amount rounded to 8 decimals: a COMPLETED
    entry in the name of the requesting user, who is eligible. *)
Theorem ledger_append_only faults network op db x :
  let run := WalletLedger.perform faults network op (initial db x) in
  users (committed (snd run)) = users db
  /\ wallets (committed (snd run)) = wallets db
  /\ match fst run with
     | inr _ => transactions (committed (snd run)) = transactions db
     | inl tx =>
         transactions (committed (snd run))
         = transactions db ++ [transaction_row tx]
         /\ status (transaction_row tx) = COMPLETED
         /\ TransactionEntity.userId (transaction_row tx) = actor op
         /\ eligible db (actor op)
     end.
Proof.
  intros run. pose proof (perform_stored faults network op db x) as H.
  cbv zeta in H. fold run in H.
  destruct (fst run) as [tx|e].
  - destruct H as (He & Hu & Hs & rows' & ->). by repeat split.
  - by rewrite H.
Qed.

Lemma history_returns db x userId :
  eligible db userId ->
  getTransactions no_faults userId (initial db x)
  = (inl (rev (List.filter
                 (fun t => String.eqb (TransactionEntity.userId t) userId)
                 (transactions db))),
     mkTx db db 2 [] x).
Proof.
  intros (u & Hf & Hv).
  unfold getTransactions, findTransactions, checkUserVerified, findOneUser,
    bind, dbCall, initial, no_faults.
  simpl. rewrite Hf, Hv. reflexivity.
Qed.

(** X22.  The history of a user records the requests of that user, newest
    first.  For a request served whichever of its database calls fail,
    and a history read from a database whose calls succeed: the history
    of an eligible user after the request is the history before it, with
    the row of the request's entry in front, its numbers rounded to 8
    decimals, when the request returned and was made in the name of that
    user.  A transfer so appears in the history of its sender only.
    Reading the history changes nothing. *)
Theorem history_after_request faults network op db x x1 x2 userId :
  eligible db userId ->
  let run := WalletLedger.perform faults network op (initial db x) in
  let before := getTransactions no_faults userId (initial db x1) in
  let after := getTransactions no_faults userId
                 (initial (committed (snd run)) x2) in
  exists history,
    fst before = inl history
    /\ fst after
       = inl (match fst run with
              | inl tx =>
                  if String.eqb (actor op) userId
                  then transaction_row tx :: history
                  else history
              | inr _ => history
              end)
    /\ committed (snd before) = db
    /\ committed (snd after) = committed (snd run).
Proof.
  intros He run before after. subst before after.
  pose proof (perform_stored faults network op db x) as H.
  cbv zeta in H. fold run in H.
  rewrite (history_returns db x1 userId He).
  assert (He' : eligible (committed (snd run)) userId).
  { apply (eligible_users db); [|exact He].
    destruct (fst run) as [tx|e]; [|by rewrite H].
    destruct H as (_ & _ & _ & rows' & ->). reflexivity. }
  rewrite (history_returns _ x2 userId He'). simpl.
  eexists. split; [reflexivity|]. split; [|by split].
  destruct (fst run) as [tx|e]; [|by rewrite H].
  destruct H as (_ & Hu & _ & rows' & ->). simpl.
  rewrite List.filter_app, rev_app_distr. simpl. rewrite Hu.
  by destruct (String.eqb (actor op) userId).
Qed.

Lemma history_after_request_witness :
  exists history,
    fst (getTransactions no_faults "u2" (initial db0 cold)) = inl history
    /\ fst (getTransactions no_faults "u2"
              (initial (committed (snd
                 (WalletLedger.perform no_faults offline
                    (Transfer "u1" "u2" 300 USD "")
                    (initial db0 cold)))) cold))
       = inl history.
Proof.
  destruct (history_after_request no_faults offline
              (Transfer "u1" "u2" 300 USD "") db0 cold cold cold "u2")
    as (history & Hb & Ha & _).
  - by exists (mkUser "u2" true).
  - exists history. split; [exact Hb|]. rewrite Ha. reflexivity.
Defined.

End StoredValues.


(* ===================================================================== *)
(** * The fallback table: the inverse rate *)
(* ===================================================================== *)

Module ReciprocalProperties.
Import FallbackRatesConfig FallbackRatesService.
Import NumberFacts FallbackFacts DoubleFacts Samples.





End ReciprocalProperties.
